(** * GitBackup: the synchronization engine of [GitBackup.pyw]

    A shallow embedding of the four core functions of [GitBackup.pyw]
    ([get_user_repos], [run_git_command], [clone_or_pull], [process_repos])
    and the properties of the engine that follow from the code.

    The engine talks to three things it does not own: the hosting API
    ([urllib.request.urlopen]), the file system ([os.path]) and the [git]
    subprocess ([subprocess.Popen]).  They are gathered in the class
    [Runtime]; the engine is a program over any runtime.  Each function is a
    computation in the monad [M]: it reads and changes the world of the
    runtime, returns or raises, and emits the events an observer can see
    (callback invocations, listing requests, subprocess launches) in the
    order in which they happen.

    The two callbacks are optional arguments in the source.  Here a callback
    is either absent ([false]) or a recorder ([true]) whose invocations
    appear in the event trace; a callback that itself raises is not
    modelled.  A subprocess whose output never ends is not modelled
    either: a launched process has a finite list of output lines. *)

From Stdlib Require Import String Ascii List ZArith Lia Bool Arith DecimalString.
Import ListNotations.
Open Scope string_scope.

(** ** Python strings *)

Module Py.

Definition quote : string := String (ascii_of_nat 34) EmptyString.
Definition newline : string := String (ascii_of_nat 10) EmptyString.

(** [str(n)] for a non-negative [int]. *)
Definition str_of_nat (n : nat) : string :=
  NilEmpty.string_of_uint (Nat.to_uint n).

(** [str(z)] for an [int]. *)
Definition str_of_int (z : Z) : string :=
  NilZero.string_of_int (Z.to_int z).

(** [needle in hay] on strings. *)
Fixpoint str_in (needle hay : string) : bool :=
  String.prefix needle hay ||
  match hay with
  | EmptyString => false
  | String _ hay' => str_in needle hay'
  end.

(** Truth value of a string: [if s:]. *)
Definition truthy (s : string) : bool :=
  match s with
  | EmptyString => false
  | String _ _ => true
  end.

(** [sep.join(lines)]. *)
Definition join (sep : string) (lines : list string) : string :=
  String.concat sep lines.

End Py.

(** ** Exceptions *)

(** The exceptions that reach the handlers of the engine.  [HTTPError] is
    [urllib.error.HTTPError]; [KeyError] and [TypeError] come from
    subscripting a decoded JSON value; [OtherError] stands for every other
    subclass of [Exception] raised by a library (URLError, OSError,
    JSONDecodeError, UnicodeDecodeError, ...), given by its text;
    [Exception] is [raise Exception(message)] in the source. *)
Inductive exn : Type :=
| HTTPError (code : Z) (msg : string)
| KeyError (key : string)
| TypeError (text : string)
| OtherError (text : string)
| Exception (message : string).

(** [str(e)]. *)
Definition str (e : exn) : string :=
  match e with
  | HTTPError code msg => "HTTP Error " ++ Py.str_of_int code ++ ": " ++ msg
  | KeyError key => "'" ++ key ++ "'"
  | TypeError text => text
  | OtherError text => text
  | Exception message => message
  end.

(** ** Data model *)

(** [{"name": ..., "clone_url": ...}] *)
Record RepositoryRef : Type := mkRepo {
  name : string;
  clone_url : string
}.

(** The four status strings handed to the status callback. *)
Inductive RepoStatus : Type := Processing | Success | Failed | Skipped.

Definition status_text (s : RepoStatus) : string :=
  match s with
  | Processing => "处理中"
  | Success => "成功"
  | Failed => "失败"
  | Skipped => "跳过"
  end.

Definition terminal (s : RepoStatus) : bool :=
  match s with
  | Processing => false
  | _ => true
  end.

(** One element of the decoded listing: a JSON object (the members of the
    decoded [dict], one entry per key, looked up by key; the values of the
    two members the engine reads are strings in the listing of the hosting
    API, and are strings here) or any other JSON value, on which
    [repo["name"]] raises [TypeError] with the given text. *)
Inductive json_item : Type :=
| JObject (members : list (string * string))
| JNonObject (type_error : string).

(** The decoded body: a JSON array, or another JSON value.  A value that is
    not an array is either falsy ([null], [0], [""], [{}], [false]) or makes
    the [for] loop over it raise [TypeError] with the given text. *)
Inductive json_value : Type :=
| JArray (items : list json_item)
| JNonArray (is_truthy : bool) (type_error : string).

Record Request : Type := mkRequest {
  url : string;
  headers : list (string * string)
}.

(** A 2xx response: [payload] is what [json.loads(response.read().decode())]
    gives (a value, or the exception it raises); [link_header] is
    [response.headers.get("Link")]. *)
Record Response : Type := mkResponse {
  payload : exn + json_value;
  link_header : option string
}.

(** What [urlopen(req)] does: raise, or hand over a response. *)
Inductive fetch : Type :=
| FetchRaises (e : exn)
| Fetched (response : Response).

(** A launched subprocess: the lines its merged stdout/stderr yields, the
    exception (if any) that reading raises after them, and its exit code. *)
Record Process : Type := mkProcess {
  stdout : list string;
  stdout_error : option exn;
  returncode : Z
}.

(** What [subprocess.Popen(...)] does: raise, or launch. *)
Inductive spawn : Type :=
| SpawnRaises (e : exn)
| Spawned (process : Process).

(** What an observer of a run sees. *)
Inductive event : Type :=
| OnStatus (repo_name : string) (status : RepoStatus)
| OnOutput (line : string)
| HttpRequest (req : Request)
| Spawn (cmd : list string) (cwd : option string) (creationflags : Z).

(** ** The runtime the engine runs on *)

Class Runtime : Type := {
  World : Type;
  os_path_join : string -> string -> string;
  os_path_normpath : string -> string;
  os_path_exists : World -> string -> bool;
  os_path_isdir : World -> string -> bool;
  urlopen : World -> Request -> fetch * World;
  Popen : World -> list string -> option string -> Z -> spawn * World;
  sys_platform : string;
  rstrip : string -> string
}.

(** ** Computations *)

Inductive result (A : Type) : Type :=
| Return (a : A)
| Raise (e : exn)
| Diverge.

Arguments Return {A} a.
Arguments Raise {A} e.
Arguments Diverge {A}.

Section Engine.

Context {RT : Runtime}.

Definition M (A : Type) : Type := World -> result A * World * list event.

Definition ret {A : Type} (a : A) : M A := fun w => (Return a, w, []).

Definition raise {A : Type} (e : exn) : M A := fun w => (Raise e, w, []).

Definition diverge {A : Type} : M A := fun w => (Diverge, w, []).

(** The outcome of a computation that ran after the events [t1]. *)
Definition prepend {A : Type} (t1 : list event)
  (x : result A * World * list event) : result A * World * list event :=
  match x with
  | (r, w2, t2) => (r, w2, (t1 ++ t2)%list)
  end.

Definition bind {A B : Type} (m : M A) (k : A -> M B) : M B := fun w =>
  match m w with
  | (Return a, w1, t1) => prepend t1 (k a w1)
  | (Raise e, w1, t1) => (Raise e, w1, t1)
  | (Diverge, w1, t1) => (Diverge, w1, t1)
  end.

(** [try: body  except Exception as e: handler e] *)
Definition try_except {A : Type} (body : M A) (handler : exn -> M A) : M A :=
  fun w =>
  match body w with
  | (Raise e, w1, t1) => prepend t1 (handler e w1)
  | other => other
  end.

Definition emit (ev : event) : M unit := fun w => (Return tt, w, [ev]).

Definition ask {A : Type} (f : World -> A) : M A := fun w => (Return (f w), w, []).

End Engine.

Declare Scope py_scope.
Delimit Scope py_scope with py.
Notation "x <- m ;; k" := (bind m (fun x => k))
  (at level 100, m at next level, right associativity) : py_scope.
Notation "m ;; k" := (bind m (fun _ => k))
  (at level 100, right associativity) : py_scope.
Open Scope py_scope.

(** ** The engine *)

Section Core.

Context {RT : Runtime}.

(** [if status_callback: status_callback(repo_name, status)] *)
Definition call_status (status_callback : bool) (repo_name : string)
  (status : RepoStatus) : M unit :=
  if status_callback then emit (OnStatus repo_name status) else ret tt.

(** [if output_callback: output_callback(line)] *)
Definition call_output (output_callback : bool) (line : string) : M unit :=
  if output_callback then emit (OnOutput line) else ret tt.

(** *** get_user_repos *)

Definition per_page : nat := 100.

Definition rel_next : string := "rel=" ++ Py.quote ++ "next" ++ Py.quote.

(** The request of one loop round: the URL of the page and the
    [Authorization] header when [token] is truthy. *)
Definition listing_request (username : string) (token : option string)
  (page : nat) : Request :=
  {| url := "https://api.github.com/users/" ++ username ++ "/repos?page="
            ++ Py.str_of_nat page ++ "&per_page=" ++ Py.str_of_nat per_page;
     headers := match token with
                | Some t => if Py.truthy t
                            then [("Authorization", "token " ++ t)]
                            else []
                | None => []
                end |}.

Definition do_urlopen (req : Request) : M Response := fun w =>
  match urlopen w req with
  | (FetchRaises e, w') => (Raise e, w', [HttpRequest req])
  | (Fetched response, w') => (Return response, w', [HttpRequest req])
  end.

(** [d[key]] on a decoded JSON object. *)
Fixpoint dict_get (members : list (string * string)) (key : string)
  : exn + string :=
  match members with
  | [] => inl (KeyError key)
  | (k, v) :: rest => if String.eqb k key then inr v else dict_get rest key
  end.

(** [repo[key]] on an element of the listing. *)
Definition subscript (repo : json_item) (key : string) : exn + string :=
  match repo with
  | JObject members => dict_get members key
  | JNonObject type_error => inl (TypeError type_error)
  end.

Definition lift {A : Type} (r : exn + A) : M A :=
  match r with
  | inl e => raise e
  | inr a => ret a
  end.

(** [for repo in data: repos.append({...})] over an array. *)
Fixpoint append_repos (data : list json_item) (repos : list RepositoryRef)
  : M (list RepositoryRef) :=
  match data with
  | [] => ret repos
  | repo :: rest =>
      n <- lift (subscript repo "name") ;;
      u <- lift (subscript repo "clone_url") ;;
      append_repos rest (repos ++ [{| name := n; clone_url := u |}])%list
  end.

Definition has_next (link : option string) : bool :=
  match link with
  | Some link_header => Py.truthy link_header && Py.str_in rel_next link_header
  | None => false
  end.

(** The body of the [try] in one round of the loop.  It returns whether the
    loop goes on to the next page, and the list collected so far. *)
Definition fetch_page (username : string) (token : option string)
  (page : nat) (repos : list RepositoryRef) : M (bool * list RepositoryRef) :=
  response <- do_urlopen (listing_request username token page) ;;
  data <- lift (payload response) ;;
  match data with
  | JArray [] => ret (false, repos)
  | JNonArray false _ => ret (false, repos)
  | JNonArray true type_error => raise (TypeError type_error)
  | JArray items =>
      repos' <- append_repos items repos ;;
      if has_next (link_header response)
      then ret (true, repos')
      else ret (false, repos')
  end.

(** The four exceptions the [except] clauses raise. *)
Definition UserNotFound (username : string) : exn :=
  Exception ("用户 " ++ username ++ " 不存在或没有公共仓库。").

Definition RateLimited : exn :=
  Exception "API 速率限制已用尽。请稍后再试，或使用个人访问令牌提高限制。".

Definition APIRequestFailed (e : exn) : exn :=
  Exception ("API 请求失败: " ++ str e).

Definition TransportError (e : exn) : exn :=
  Exception ("发生错误: " ++ str e).

(** The two [except] clauses: which exception is raised for [e]. *)
Definition listing_error (username : string) (e : exn) : exn :=
  match e with
  | HTTPError code _ =>
      if (code =? 404)%Z then UserNotFound username
      else if (code =? 403)%Z && Py.str_in "rate limit" (str e)
      then RateLimited
      else APIRequestFailed e
  | _ => TransportError e
  end.

Definition listing_handler {A : Type} (username : string) (e : exn) : M A :=
  raise (listing_error username e).

(** [while True:] with the rounds bounded by [fuel]. *)
Fixpoint get_user_repos_from (fuel : nat) (username : string)
  (token : option string) (page : nat) (repos : list RepositoryRef)
  : M (list RepositoryRef) :=
  match fuel with
  | O => diverge
  | S fuel' =>
      round <- try_except (fetch_page username token page repos)
                          (listing_handler username) ;;
      match round with
      | (true, repos') =>
          get_user_repos_from fuel' username token (page + 1) repos'
      | (false, repos') => ret repos'
      end
  end.

Definition get_user_repos (fuel : nat) (username : string)
  (token : option string) : M (list RepositoryRef) :=
  get_user_repos_from fuel username token 1 [].

(** *** run_git_command *)

Definition CREATE_NO_WINDOW : Z := 134217728.

Definition do_Popen (cmd : list string) (cwd : option string)
  (creationflags : Z) : M Process := fun w =>
  match Popen w cmd cwd creationflags with
  | (SpawnRaises e, w') => (Raise e, w', [Spawn cmd cwd creationflags])
  | (Spawned process, w') => (Return process, w', [Spawn cmd cwd creationflags])
  end.

(** [for line in process.stdout:] *)
Fixpoint read_lines (lines : list string) (output_callback : bool)
  (output_lines : list string) : M (list string) :=
  match lines with
  | [] => ret output_lines
  | line :: rest =>
      let line := rstrip line in
      let output_lines := (output_lines ++ [line])%list in
      call_output output_callback line ;;
      read_lines rest output_callback output_lines
  end.

Definition end_of_stream (process : Process) : M unit :=
  match stdout_error process with
  | Some e => raise e
  | None => ret tt
  end.

Definition run_git_command (cmd : list string) (cwd : option string)
  (output_callback : bool) : M (bool * string) :=
  try_except
    (let creationflags :=
       if String.eqb sys_platform "win32" then CREATE_NO_WINDOW else 0%Z in
     process <- do_Popen cmd cwd creationflags ;;
     output_lines <- read_lines (stdout process) output_callback [] ;;
     end_of_stream process ;;
     if negb (returncode process =? 0)%Z
     then ret (false, Py.join Py.newline output_lines)
     else ret (true, Py.join Py.newline output_lines))
    (fun e => ret (false, str e)).

(** *** clone_or_pull *)

Definition local_path_of (base_dir repo_name : string) : string :=
  os_path_normpath (os_path_join base_dir repo_name).

Definition clone_or_pull (repo_info : RepositoryRef) (base_dir : string)
  (status_callback output_callback : bool) : M bool :=
  let repo_name := name repo_info in
  let repo_url := clone_url repo_info in
  let local_path := local_path_of base_dir repo_name in
  call_status status_callback repo_name Processing ;;
  path_exists <- ask (fun w => os_path_exists w local_path) ;;
  if negb path_exists then
    call_output output_callback ("克隆 " ++ repo_url ++ " 到 " ++ local_path) ;;
    r <- run_git_command ["git"; "clone"; repo_url; local_path] None
                         output_callback ;;
    (if fst r
     then call_status status_callback repo_name Success
     else call_status status_callback repo_name Failed) ;;
    ret (fst r)
  else
    is_repo <- ask (fun w => os_path_isdir w (os_path_join local_path ".git")) ;;
    if negb is_repo then
      call_output output_callback
        ("跳过: " ++ local_path ++ " 不是一个 Git 仓库") ;;
      call_status status_callback repo_name Skipped ;;
      ret false
    else
      call_output output_callback ("拉取 " ++ local_path) ;;
      r <- run_git_command ["git"; "pull"] (Some local_path)
                           output_callback ;;
      (if fst r
       then call_status status_callback repo_name Success
       else call_status status_callback repo_name Failed) ;;
      ret (fst r).

(** *** process_repos *)

(** [for repo in repos:] with the two counters. *)
Fixpoint process_loop (repos : list RepositoryRef) (base_dir : string)
  (status_callback output_callback : bool) (success_count fail_count : nat)
  : M (nat * nat) :=
  match repos with
  | [] => ret (success_count, fail_count)
  | repo :: rest =>
      ok <- clone_or_pull repo base_dir status_callback output_callback ;;
      if ok
      then process_loop rest base_dir status_callback output_callback
                        (success_count + 1) fail_count
      else process_loop rest base_dir status_callback output_callback
                        success_count (fail_count + 1)
  end.

(** The log lines of [process_repos]. *)
Definition listing_line (username : string) : string :=
  "正在获取用户 " ++ username ++ " 的仓库列表...".

Definition error_line (e : exn) : string := "错误: " ++ str e.

Definition nothing_line : string := "没有找到任何仓库。".

Definition count_line (n : nat) : string :=
  "共找到 " ++ Py.str_of_nat n ++ " 个仓库，开始处理...".

Definition summary_line (success_count fail_count : nat) : string :=
  Py.newline ++ "处理完成: " ++ Py.str_of_nat success_count ++ " 成功, "
  ++ Py.str_of_nat fail_count ++ " 失败".

(** What follows the [try] statement of [process_repos]. *)
Definition process_listing (repos : list RepositoryRef) (base_dir : string)
  (status_callback output_callback : bool) : M bool :=
  match repos with
  | [] =>
      call_output output_callback nothing_line ;;
      ret true
  | _ :: _ =>
      call_output output_callback (count_line (length repos)) ;;
      counts <- process_loop repos base_dir status_callback output_callback 0 0 ;;
      call_output output_callback (summary_line (fst counts) (snd counts)) ;;
      ret (snd counts =? 0)%nat
  end.

Definition process_repos (fuel : nat) (username base_dir : string)
  (token : option string) (status_callback output_callback : bool) : M bool :=
  fun w =>
  match (call_output output_callback (listing_line username) ;;
         get_user_repos fuel username token) w with
  | (Return repos, w1, t1) =>
      prepend t1
        (process_listing repos base_dir status_callback output_callback w1)
  | (Raise e, w1, t1) =>
      prepend t1
        ((call_output output_callback (error_line e) ;; ret false) w1)
  | (Diverge, w1, t1) => (Diverge, w1, t1)
  end.

End Core.

(** ** Reading a trace *)

(** The status events of a trace, in order. *)
Fixpoint statuses (t : list event) : list (string * RepoStatus) :=
  match t with
  | [] => []
  | OnStatus n s :: t' => (n, s) :: statuses t'
  | _ :: t' => statuses t'
  end.

(** The log lines handed to the output callback, in order. *)
Fixpoint log_lines (t : list event) : list string :=
  match t with
  | [] => []
  | OnOutput line :: t' => line :: log_lines t'
  | _ :: t' => log_lines t'
  end.

(** The listing requests issued, in order. *)
Fixpoint requests (t : list event) : list Request :=
  match t with
  | [] => []
  | HttpRequest req :: t' => req :: requests t'
  | _ :: t' => requests t'
  end.

(** The subprocesses launched (argument vector and working directory). *)
Fixpoint spawned (t : list event) : list (list string * option string) :=
  match t with
  | [] => []
  | Spawn cmd cwd _ :: t' => (cmd, cwd) :: spawned t'
  | _ :: t' => spawned t'
  end.

Definition status_eqb (a b : RepoStatus) : bool :=
  match a, b with
  | Processing, Processing | Success, Success
  | Failed, Failed | Skipped, Skipped => true
  | _, _ => false
  end.

(** How many status events of a trace carry the status [s]. *)
Definition count_status (s : RepoStatus) (t : list event) : nat :=
  length (filter (fun p => status_eqb (snd p) s) (statuses t)).

(** How many status events of a trace are terminal. *)
Definition count_terminal (t : list event) : nat :=
  length (filter (fun p => terminal (snd p)) (statuses t)).

(** The events of one optional callback invocation. *)
Definition status_event (status_callback : bool) (repo_name : string)
  (status : RepoStatus) : list event :=
  if status_callback then [OnStatus repo_name status] else [].

Definition output_event (output_callback : bool) (line : string)
  : list event :=
  if output_callback then [OnOutput line] else [].

Definition output_events (output_callback : bool) (lines : list string)
  : list event :=
  if output_callback then map OnOutput lines else [].

(** The terminal status that goes with the boolean of the runner. *)
Definition status_of_bool (ok : bool) : RepoStatus :=
  if ok then Success else Failed.

(** How many of the terminal statuses are [Success], and how many are not. *)
Definition successes (finals : list RepoStatus) : nat :=
  length (filter (fun s => status_eqb s Success) finals).

Definition failures (finals : list RepoStatus) : nat :=
  length (filter (fun s => negb (status_eqb s Success)) finals).

(** The two status events of one repository. *)
Definition status_pair (p : RepositoryRef * RepoStatus)
  : list (string * RepoStatus) :=
  [(name (fst p), Processing); (name (fst p), snd p)].

(** ** The routing decision and the listing, as the world gives them *)

Inductive Route : Type := RouteClone | RoutePull | RouteSkip.

Section Reading.

Context {RT : Runtime}.

(** The three-way decision of [clone_or_pull], read off the file system. *)
Definition route (w : World) (base_dir : string) (repo_info : RepositoryRef)
  : Route :=
  let local_path := local_path_of base_dir (name repo_info) in
  if negb (os_path_exists w local_path) then RouteClone
  else if os_path_isdir w (os_path_join local_path ".git") then RoutePull
  else RouteSkip.

Definition creation_flags : Z :=
  if String.eqb sys_platform "win32" then CREATE_NO_WINDOW else 0%Z.

(** What the runner returns once the process is launched. *)
Definition runner_result (p : Process) : bool * string :=
  match stdout_error p with
  | Some e => (false, str e)
  | None => ((returncode p =? 0)%Z,
             Py.join Py.newline (map rstrip (stdout p)))
  end.

(** What one call of the runner returns and emits, given what [Popen] did. *)
Definition launch_result (s : spawn) : bool * string :=
  match s with
  | SpawnRaises e => (false, str e)
  | Spawned p => runner_result p
  end.

Definition launch_events (cmd : list string) (cwd : option string)
  (ocb : bool) (s : spawn) : list event :=
  Spawn cmd cwd creation_flags ::
  match s with
  | SpawnRaises _ => []
  | Spawned p => output_events ocb (map rstrip (stdout p))
  end.

(** The parts of the outcome of a run. *)
Definition value {A : Type} (x : result A * World * list event) : result A :=
  fst (fst x).

Definition final_world {A : Type} (x : result A * World * list event)
  : World :=
  snd (fst x).

Definition events {A : Type} (x : result A * World * list event)
  : list event :=
  snd x.

(** The answers of the hosting API to the requests for the pages [page],
    [page + 1], ... issued one after the other from the world [w]. *)
Fixpoint served (username : string) (token : option string) (w : World)
  (page : nat) (answers : list fetch) : Prop :=
  match answers with
  | [] => True
  | f :: rest =>
      fst (urlopen w (listing_request username token page)) = f /\
      served username token
             (snd (urlopen w (listing_request username token page)))
             (page + 1) rest
  end.

(** The world after [n] such requests. *)
Fixpoint world_after (username : string) (token : option string) (w : World)
  (page n : nat) : World :=
  match n with
  | O => w
  | S n' =>
      world_after username token
                  (snd (urlopen w (listing_request username token page)))
                  (page + 1) n'
  end.


End Reading.

(** One page of a listing: the elements of its JSON array and its [Link]
    header. *)
Record Page : Type := mkPage {
  items : list json_item;
  link : option string
}.

Definition page_response (p : Page) : fetch :=
  Fetched {| payload := inr (JArray (items p)); link_header := link p |}.

(** The reference an element of the listing yields, when it is an object
    with both keys. *)
Definition item_ref (it : json_item) : option RepositoryRef :=
  match it with
  | JObject members =>
      match dict_get members "name", dict_get members "clone_url" with
      | inr n, inr u => Some {| name := n; clone_url := u |}
      | _, _ => None
      end
  | JNonObject _ => None
  end.

Definition well_formed (it : json_item) : bool :=
  match item_ref it with
  | Some _ => true
  | None => false
  end.

(** The references of the elements of a page, in order. *)
Fixpoint refs_of (its : list json_item) : list RepositoryRef :=
  match its with
  | [] => []
  | it :: rest =>
      match item_ref it with
      | Some r => r :: refs_of rest
      | None => refs_of rest
      end
  end.

(** What the [for] loop over the elements of a page collects, or the
    exception of the first element that is no object with both keys. *)
Fixpoint page_refs (its : list json_item) : exn + list RepositoryRef :=
  match its with
  | [] => inr []
  | it :: rest =>
      match subscript it "name" with
      | inl e => inl e
      | inr n =>
          match subscript it "clone_url" with
          | inl e => inl e
          | inr u =>
              match page_refs rest with
              | inl e => inl e
              | inr l => inr ({| name := n; clone_url := u |} :: l)
              end
          end
      end
  end.

(** What one round of the loop makes of the answer to its request: the
    exception raised inside the [try], or whether the loop goes on and the
    references the page adds. *)
Definition page_outcome (f : fetch) : exn + (bool * list RepositoryRef) :=
  match f with
  | FetchRaises e => inl e
  | Fetched response =>
      match payload response with
      | inl e => inl e
      | inr (JArray []) => inr (false, [])
      | inr (JNonArray false _) => inr (false, [])
      | inr (JNonArray true type_error) => inl (TypeError type_error)
      | inr (JArray its) =>
          match page_refs its with
          | inl e => inl e
          | inr l => inr (has_next (link_header response), l)
          end
      end
  end.

(** A page after which the loop goes on: not empty, every element an object
    with both keys, and a [Link] header with a next relation. *)
Definition continuing (p : Page) : bool :=
  match items p with
  | [] => false
  | _ :: _ => forallb well_formed (items p) && has_next (link p)
  end.

(** A page that is not empty and whose [Link] header has a next relation:
    the loop asks for one more page after it. *)
Definition advertises_more (p : Page) : bool :=
  match items p with
  | [] => false
  | _ :: _ => has_next (link p)
  end.

(** A page of exactly [per_page] objects with both keys, followed by more. *)
Definition full (p : Page) : Prop :=
  length (items p) = per_page /\
  forallb well_formed (items p) = true /\
  has_next (link p) = true.

(** The references of the pages of a listing, in page order. *)
Definition listing_refs (pages : list Page) : list RepositoryRef :=
  flat_map (fun p => refs_of (items p)) pages.

(** Requests for the [n] pages from [page] on. *)
Definition page_requests (username : string) (token : option string)
  (page n : nat) : list Request :=
  map (listing_request username token) (seq page n).

(** ** A small runtime to run the engine on *)

Module Demo.

Record world : Type := mkWorld {
  dirs : list string;
  network : list fetch;
  git : list spawn
}.

Definition is_dir (w : world) (path : string) : bool :=
  existsb (String.eqb path) (dirs w).

Definition next_fetch (w : world) (req : Request) : fetch * world :=
  match network w with
  | [] => (FetchRaises (OtherError "<urlopen error timed out>"), w)
  | f :: rest => (f, {| dirs := dirs w; network := rest; git := git w |})
  end.

Definition cloned (cmd : list string) (s : spawn) : list string :=
  match cmd, s with
  | [_; "clone"; _; path], Spawned p =>
      if (returncode p =? 0)%Z then [path; path ++ "/.git"] else []
  | _, _ => []
  end.

Definition next_spawn (w : world) (cmd : list string) (cwd : option string)
  (creationflags : Z) : spawn * world :=
  match git w with
  | [] => (SpawnRaises (OtherError "[Errno 2] No such file or directory: 'git'"), w)
  | s :: rest =>
      (s, {| dirs := (cloned cmd s ++ dirs w)%list;
             network := network w; git := rest |})
  end.

Definition is_space (a : ascii) : bool :=
  let n := nat_of_ascii a in
  (((9 <=? n) && (n <=? 13)) || ((28 <=? n) && (n <=? 32)))%nat.

Fixpoint strip_right (s : string) : string :=
  match s with
  | EmptyString => EmptyString
  | String a s' =>
      match strip_right s' with
      | EmptyString => if is_space a then EmptyString else String a EmptyString
      | r => String a r
      end
  end.

Definition runtime : Runtime := {|
  World := world;
  os_path_join := fun a b => a ++ "/" ++ b;
  os_path_normpath := fun p => p;
  os_path_exists := is_dir;
  os_path_isdir := is_dir;
  urlopen := next_fetch;
  Popen := next_spawn;
  sys_platform := "linux";
  rstrip := strip_right
|}.

Definition repo_item (n u : string) : json_item :=
  JObject [("id", "1"); ("name", n); ("clone_url", u)].

Definition next_link : option string :=
  Some ("<https://api.github.com/user/1/repos?page=2>; " ++ rel_next).

Definition three : Page :=
  {| items := [repo_item "a" "https://h/a.git";
               repo_item "b" "https://h/b.git";
               repo_item "c" "https://h/c.git"];
     link := None |}.

Definition done (lines : list string) : spawn :=
  Spawned {| stdout := lines; stdout_error := None; returncode := 0 |}.

Definition failed (lines : list string) (code : Z) : spawn :=
  Spawned {| stdout := lines; stdout_error := None; returncode := code |}.

(** [d/c] is there but is no working copy; [a] and [b] are cloned. *)
Definition w_three : world :=
  {| dirs := ["d/c"];
     network := [page_response three];
     git := [done ["Cloning into 'd/a'..." ++ Py.newline]; done []] |}.

(** A full first page and a short second one. *)
Definition full_page : Page :=
  {| items := repeat (repo_item "r" "https://h/r.git") 100;
     link := next_link |}.

Definition short_page : Page :=
  {| items := [repo_item "s" "https://h/s.git"]; link := None |}.

Definition w_pages : world :=
  {| dirs := []; network := [page_response full_page; page_response short_page];
     git := [] |}.



(** The listing request is answered with 404. *)
Definition w_404 : world :=
  {| dirs := []; network := [FetchRaises (HTTPError 404 "Not Found")];
     git := [done []] |}.

(** The second listing request is answered with 403 and a rate-limit
    reason. *)
Definition w_403 : world :=
  {| dirs := [];
     network := [page_response full_page;
                 FetchRaises (HTTPError 403 "rate limit exceeded")];
     git := [done []] |}.

(** The second page holds an object without [clone_url]. *)
Definition broken_page : fetch :=
  Fetched {| payload := inr (JArray [repo_item "s" "https://h/s.git";
                                     JObject [("name", "x")]]);
             link_header := None |}.

Definition w_broken : world :=
  {| dirs := []; network := [page_response full_page; broken_page];
     git := [done []] |}.

End Demo.

(** ** More readings of a run *)

(** What an observer with only some of the two callbacks sees of a trace:
    without the status callback no status event, without the output
    callback no log line. *)
Fixpoint visible (status_callback output_callback : bool) (t : list event)
  : list event :=
  match t with
  | [] => []
  | OnStatus n s :: t' =>
      if status_callback
      then OnStatus n s :: visible status_callback output_callback t'
      else visible status_callback output_callback t'
  | OnOutput line :: t' =>
      if output_callback
      then OnOutput line :: visible status_callback output_callback t'
      else visible status_callback output_callback t'
  | ev :: t' => ev :: visible status_callback output_callback t'
  end.

Section Endless.

Context {RT : Runtime}.

(** A hosting API that never ends the listing: whatever the page asked
    for, the answer is a page after which the loop goes on. *)
Definition endless (username : string) (token : option string) : Prop :=
  forall (w : World) (page : nat),
    exists p : Page,
      continuing p = true /\
      fst (urlopen w (listing_request username token page)) = page_response p.

End Endless.

(** ** More runtimes to run the engine on *)

Module Lab.

(** The hosting API answers every request with the same page, which has a
    next relation. *)
Definition more_page : Page :=
  {| items := [Demo.repo_item "r" "https://h/r.git"];
     link := Demo.next_link |}.

Definition endless_runtime : Runtime := {|
  World := Demo.world;
  os_path_join := fun a b => a ++ "/" ++ b;
  os_path_normpath := fun p => p;
  os_path_exists := Demo.is_dir;
  os_path_isdir := Demo.is_dir;
  urlopen := fun w _ => (page_response more_page, w);
  Popen := Demo.next_spawn;
  sys_platform := "win32";
  rstrip := Demo.strip_right
|}.

Definition w_nothing : Demo.world :=
  {| Demo.dirs := []; Demo.network := []; Demo.git := [] |}.

(** The listing is empty. *)
Definition w_empty : Demo.world :=
  {| Demo.dirs := [];
     Demo.network := [page_response {| items := []; link := None |}];
     Demo.git := [] |}.

(** The body of the answer is a JSON object, not an array. *)
Definition w_object : Demo.world :=
  {| Demo.dirs := [];
     Demo.network :=
       [Fetched {| payload :=
                     inr (JNonArray true
                            "string indices must be integers, not 'str'");
                   link_header := None |}];
     Demo.git := [] |}.

(** Two short pages, the first with a next relation, then more that is
    never asked for. *)
Definition w_short_pages : Demo.world :=
  {| Demo.dirs := [];
     Demo.network := [page_response more_page;
                      page_response Demo.short_page;
                      page_response more_page];
     Demo.git := [] |}.

(** [a] is a working copy, [c] is a plain directory, [b] is not there; the
    pull of [a] succeeds and the clone of [b] fails. *)
Definition w_mixed : Demo.world :=
  {| Demo.dirs := ["d/a"; "d/a/.git"; "d/c"];
     Demo.network := [page_response Demo.three];
     Demo.git := [Demo.done ["Already up to date." ++ Py.newline];
                  Demo.failed ["fatal: unable to access" ++ Py.newline] 128] |}.


(** The listing request is answered with 403 and a reason phrase. *)
Definition w_limited : Demo.world :=
  {| Demo.dirs := [];
     Demo.network := [FetchRaises (HTTPError 403 "API rate limit exceeded")];
     Demo.git := [] |}.

End Lab.

(** ** The header check of the HTTP library *)

(** [urlopen] hands the headers of a request to [http.client], whose
    [putheader] raises [ValueError('Invalid header value %r' % value)] on
    a value it refuses, before anything is sent; [urllib] turns only
    [OSError] into [URLError], so the [ValueError] is what [urlopen]
    raises. *)
Module Wire.

(** The values [putheader] refuses: a line feed that is not followed by
    a blank or a tab, or a carriage return that is not followed by a
    blank, a tab or a line feed. *)
Fixpoint illegal_header_value (s : string) : bool :=
  match s with
  | EmptyString => false
  | String c rest =>
      let folds (line_feed_too : bool) :=
        match rest with
        | EmptyString => false
        | String d _ =>
            ((nat_of_ascii d =? 32) || (nat_of_ascii d =? 9)
             || (line_feed_too && (nat_of_ascii d =? 10)))%nat
        end in
      ((nat_of_ascii c =? 10)%nat && negb (folds false))
      || ((nat_of_ascii c =? 13)%nat && negb (folds true))
      || illegal_header_value rest
  end.

Definition hex_digit (n : nat) : ascii :=
  ascii_of_nat (if (n <? 10)%nat then 48 + n else 87 + n).

Definition backslash : string := String (ascii_of_nat 92) EmptyString.

(** One byte in [repr(bytes)], between quotes of the kind [quote_char]. *)
Definition escaped (quote_char : nat) (c : ascii) : string :=
  let n := nat_of_ascii c in
  if (n =? 92)%nat then backslash ++ backslash
  else if (n =? quote_char)%nat then backslash ++ String c EmptyString
  else if (n =? 9)%nat then backslash ++ "t"
  else if (n =? 10)%nat then backslash ++ "n"
  else if (n =? 13)%nat then backslash ++ "r"
  else if ((n <? 32) || (126 <? n))%nat
  then backslash ++ "x"
       ++ String (hex_digit (Nat.div n 16))
            (String (hex_digit (Nat.modulo n 16)) EmptyString)
  else String c EmptyString.

(** [repr(value)] for the bytes [value]: single quotes, or double quotes
    when the bytes hold a single quote and no double quote. *)
Definition bytes_repr (value : string) : string :=
  let holds (n : nat) :=
    existsb (fun c => (nat_of_ascii c =? n)%nat) (list_ascii_of_string value) in
  let quote_char := if holds 39 && negb (holds 34) then 34 else 39 in
  "b" ++ String (ascii_of_nat quote_char)
           (String.concat EmptyString
              (map (escaped quote_char) (list_ascii_of_string value)))
      ++ String (ascii_of_nat quote_char) EmptyString.

(** [urlopen]: the header check, then the network of [Demo]. *)
Definition send (w : Demo.world) (req : Request) : fetch * Demo.world :=
  match find (fun h => illegal_header_value (snd h)) (headers req) with
  | Some (_, value) =>
      (FetchRaises (OtherError ("Invalid header value " ++ bytes_repr value)),
       w)
  | None => Demo.next_fetch w req
  end.

Definition runtime : Runtime := {|
  World := Demo.world;
  os_path_join := fun a b => a ++ "/" ++ b;
  os_path_normpath := fun p => p;
  os_path_exists := Demo.is_dir;
  os_path_isdir := Demo.is_dir;
  urlopen := send;
  Popen := Demo.next_spawn;
  sys_platform := "linux";
  rstrip := Demo.strip_right
|}.


Definition other : string := "ghp_OTHER" ++ Py.newline.

(** A session with a token, with both callbacks, on the listing of three
    repositories. *)
Definition session (token : string)
  : result bool * @World runtime * list event :=
  process_repos (RT := runtime) 1 "u" "d" (Some token) true true Demo.w_three.

End Wire.

(** ** The command line *)

(** The class [Colors]: ANSI colour codes. *)
Module Colors.

Definition ESC : string := String (ascii_of_nat 27) EmptyString.
Definition HEADER : string := ESC ++ "[95m".
Definition OKBLUE : string := ESC ++ "[94m".
Definition OKGREEN : string := ESC ++ "[92m".
Definition WARNING : string := ESC ++ "[93m".
Definition FAIL : string := ESC ++ "[91m".
Definition ENDC : string := ESC ++ "[0m".
Definition BOLD : string := ESC ++ "[1m".

End Colors.

Definition color_text (text color_code : string) (use_color : bool)
  : string :=
  if use_color then color_code ++ text ++ Colors.ENDC else text.

(** The closure [colored_output] of [main_cli]: the line it prints for
    [msg]. *)
Definition colored_output (use_color : bool) (msg : string) : string :=
  if Py.str_in "克隆" msg || Py.str_in "拉取" msg then
    color_text msg Colors.OKBLUE use_color
  else if Py.str_in "成功" msg || Py.str_in "完成" msg then
    color_text msg Colors.OKGREEN use_color
  else if Py.str_in "失败" msg || Py.str_in "错误" msg
          || Py.str_in "跳过" msg then
    color_text msg Colors.FAIL use_color
  else msg.

(** The parsed arguments of the command line ([args]). *)
Record Args : Type := mkArgs {
  arg_username : string;
  arg_dir : string;
  arg_token : option string;
  arg_color : bool
}.

(** What the command line needs besides the runtime of the engine:
    [os.path.abspath], [os.makedirs] (which creates the directory or
    raises [OSError], given by its text), and for [supports_color]
    whether standard output is a terminal, [os.name], and whether the
    [ctypes] calls on the console run through without raising. *)
Class Console : Type := {
  console_runtime : Runtime;
  os_path_abspath : string -> string;
  os_makedirs : @World console_runtime -> string
                -> option string * @World console_runtime;
  stdout_isatty : bool;
  os_name : string;
  console_calls_pass : bool
}.

(** What an observer of the command line sees. *)
Inductive cli_event : Type :=
| Print (line : string)
| ConsoleMode
| MakeDirs (path : string)
| Listing (req : Request)
| Launch (cmd : list string) (cwd : option string) (creationflags : Z).

(** How the command line ends: the script runs to its end, [sys.exit] is
    called with a message, an exception escapes, or the run is still
    going when the rounds are used up. *)
Inductive cli_exit : Type :=
| Completed
| SystemExit (message : string)
| Uncaught (e : exn)
| Unfinished.

(** The events of the engine as the command line shows them: a log line
    is printed through [colored_output]; there is no status callback. *)
Fixpoint shown (use_color : bool) (t : list event) : list cli_event :=
  match t with
  | [] => []
  | OnOutput line :: t' =>
      Print (colored_output use_color line) :: shown use_color t'
  | OnStatus _ _ :: t' => shown use_color t'
  | HttpRequest req :: t' => Listing req :: shown use_color t'
  | Spawn cmd cwd flags :: t' => Launch cmd cwd flags :: shown use_color t'
  end.

(** The lines printed, in order. *)
Fixpoint printed (t : list cli_event) : list string :=
  match t with
  | [] => []
  | Print line :: t' => line :: printed t'
  | _ :: t' => printed t'
  end.

(** Whether the command line asked the hosting API or launched git. *)
Definition touches_nothing (t : list cli_event) : bool :=
  forallb (fun ev => match ev with
                     | Listing _ | Launch _ _ _ => false
                     | _ => true
                     end) t.

(** How the script ends after the call of [process_repos], whose value
    it does not look at. *)
Definition exit_after (r : result bool) : cli_exit :=
  match r with
  | Return _ => Completed
  | Raise e => Uncaught e
  | Diverge => Unfinished
  end.

Section CommandLine.

Context {C : Console}.

#[local] Existing Instance console_runtime.

(** [supports_color()]: its value and what it does to the console. *)
Definition supports_color : bool * list cli_event :=
  if negb stdout_isatty then (false, [])
  else if String.eqb os_name "nt" then (console_calls_pass, [ConsoleMode])
  else (true, []).

(** [args.color or supports_color()] *)
Definition choose_color (args : Args) : bool * list cli_event :=
  if arg_color args then (true, []) else supports_color.

(** [main_cli()], from the parsed arguments on. *)
Definition main_cli (fuel : nat) (args : Args) (w : World)
  : cli_exit * World * list cli_event :=
  let '(use_color, t0) := choose_color args in
  let base_dir := os_path_abspath (arg_dir args) in
  let session (w1 : World) (t1 : list cli_event) :=
    match process_repos fuel (arg_username args) base_dir (arg_token args)
                        false true w1 with
    | (r, w2, t2) => (exit_after r, w2, (t1 ++ shown use_color t2)%list)
    end in
  if negb (os_path_exists w base_dir) then
    match os_makedirs w base_dir with
    | (None, w1) =>
        session w1
          (t0 ++ [MakeDirs base_dir;
                  Print (color_text ("创建目录: " ++ base_dir) Colors.OKBLUE
                                    use_color)])%list
    | (Some e, w1) =>
        (SystemExit ("无法创建目录 " ++ base_dir ++ ": " ++ e), w1,
         (t0 ++ [MakeDirs base_dir])%list)
    end
  else session w t0.

End CommandLine.

(** Whether a character is a decimal digit, and whether every character
    of a string is one. *)
Definition is_digit (c : ascii) : bool :=
  ((48 <=? nat_of_ascii c)%nat && (nat_of_ascii c <=? 57)%nat)%bool.

Fixpoint all_digits (s : string) : bool :=
  match s with
  | EmptyString => true
  | String c s' => is_digit c && all_digits s'
  end.

(** Whether a string starts with a character that is no digit. *)
Definition starts_off_digits (s : string) : bool :=
  match s with
  | EmptyString => false
  | String c _ => negb (is_digit c)
  end.

(** ** A console to run the command line on *)

Module Desk.

(** A console on the demonstration runtime: a Windows terminal on which
    the console calls fail, and a directory that cannot be created. *)
Definition console : Console := {|
  console_runtime := Demo.runtime;
  os_path_abspath := fun p => "/home/" ++ p;
  os_makedirs := fun w path =>
    if String.eqb path "/home/locked"
    then (Some "[Errno 13] Permission denied: '/home/locked'", w)
    else (None, {| Demo.dirs := path :: Demo.dirs w;
                   Demo.network := Demo.network w;
                   Demo.git := Demo.git w |});
  stdout_isatty := true;
  os_name := "nt";
  console_calls_pass := false
|}.

(** The three repositories of [Demo.w_three] under [/home/d]. *)
Definition w_home : Demo.world :=
  {| Demo.dirs := ["/home/d"; "/home/d/c"];
     Demo.network := [page_response Demo.three];
     Demo.git := [Demo.done []; Demo.failed [] 128] |}.

(** The same console with standard output not a terminal. *)
Definition piped : Console := {|
  console_runtime := Demo.runtime;
  os_path_abspath := fun p => "/home/" ++ p;
  os_makedirs := fun w path => (None, w);
  stdout_isatty := false;
  os_name := "posix";
  console_calls_pass := true
|}.

Definition args_d : Args :=
  {| arg_username := "u"; arg_dir := "d"; arg_token := None;
     arg_color := false |}.

Definition args_locked : Args :=
  {| arg_username := "u"; arg_dir := "locked"; arg_token := None;
     arg_color := false |}.

Definition args_color : Args :=
  {| arg_username := "u"; arg_dir := "d"; arg_token := None;
     arg_color := true |}.

End Desk.

(** ** The window *)

(** [s.split('\n')] *)
Fixpoint split_newline (s : string) : list string :=
  match s with
  | EmptyString => [EmptyString]
  | String c s' =>
      if Ascii.eqb c (ascii_of_nat 10) then EmptyString :: split_newline s'
      else match split_newline s' with
           | h :: t => String c h :: t
           | [] => [String c EmptyString]
           end
  end.

(** What [subprocess.run(..., capture_output=True, text=True)] returns. *)
Record CompletedProcess : Type := mkCompletedProcess {
  cp_returncode : Z;
  cp_stdout : string;
  cp_stderr : string
}.

(** What the window needs besides the runtime of the engine:
    [subprocess.run] (which returns or raises), [str.strip], [str.lower]
    and [os.makedirs] (which creates the directory or raises). *)
Class Desktop : Type := {
  desktop_runtime : Runtime;
  subprocess_run : @World desktop_runtime -> list string -> Z
                   -> (exn + CompletedProcess) * @World desktop_runtime;
  str_strip : string -> string;
  str_lower : string -> string;
  window_makedirs : @World desktop_runtime -> string
                    -> option exn * @World desktop_runtime
}.

(** What the user of the window sees besides its widgets. *)
Inductive window_event : Type :=
| ShowError (title message : string)
| Printed (line : string)
| RanConfig (cmd : list string) (creationflags : Z)
| MadeDirs (path : string)
| ThreadStarted (username base_dir : string) (token : option string).

(** The error boxes shown, in order. *)
Fixpoint error_boxes (t : list window_event) : list (string * string) :=
  match t with
  | [] => []
  | ShowError title message :: t' => (title, message) :: error_boxes t'
  | _ :: t' => error_boxes t'
  end.

(** The threads started, in order. *)
Fixpoint threads (t : list window_event)
  : list (string * string * option string) :=
  match t with
  | [] => []
  | ThreadStarted u d k :: t' => (u, d, k) :: threads t'
  | _ :: t' => threads t'
  end.

(** An item of the output queue: [("log", msg)] or [("done", None)]. *)
Inductive queue_item : Type :=
| QLog (msg : string)
| QDone.

(** A row of the tree view. *)
Record Row : Type := mkRow {
  row_iid : nat;
  row_text : string;
  row_value : string;
  row_tags : list string
}.

(** The tree view (its rows in display order, the next item identifier,
    the colours of its tags) and the dictionary [repo_items]. *)
Record Table : Type := mkTable {
  rows : list Row;
  next_iid : nat;
  tag_colors : list (string * string);
  repo_items : list (string * nat)
}.

(** The variables of the entry fields and of the two check boxes. *)
Record Form : Type := mkForm {
  username_var : string;
  dir_var : string;
  token_var : string;
  safe_dir_var : bool;
  ssl_verify_var : bool
}.

(** The states of the three widgets [set_controls_state] sets. *)
Record Controls : Type := mkControls {
  run_button : string;
  safe_dir_cb : string;
  ssl_verify_cb : string
}.

Record App : Type := mkApp {
  form : Form;
  controls : Controls;
  output_text : string;
  table : Table;
  output_queue : list queue_item;
  status_queue : list (string * string)
}.

Definition with_form (f : Form) (app : App) : App :=
  {| form := f; controls := controls app; output_text := output_text app;
     table := table app; output_queue := output_queue app;
     status_queue := status_queue app |}.

Definition with_text (text : string) (app : App) : App :=
  {| form := form app; controls := controls app; output_text := text;
     table := table app; output_queue := output_queue app;
     status_queue := status_queue app |}.

Definition with_table (t : Table) (app : App) : App :=
  {| form := form app; controls := controls app;
     output_text := output_text app; table := t;
     output_queue := output_queue app; status_queue := status_queue app |}.

Definition with_output_queue (q : list queue_item) (app : App) : App :=
  {| form := form app; controls := controls app;
     output_text := output_text app; table := table app;
     output_queue := q; status_queue := status_queue app |}.

Definition with_status_queue (q : list (string * string)) (app : App)
  : App :=
  {| form := form app; controls := controls app;
     output_text := output_text app; table := table app;
     output_queue := output_queue app; status_queue := q |}.

(** [self.safe_dir_var.set(b)] and [self.ssl_verify_var.set(b)] *)
Definition set_safe_dir (b : bool) (app : App) : App :=
  with_form {| username_var := username_var (form app);
               dir_var := dir_var (form app);
               token_var := token_var (form app);
               safe_dir_var := b;
               ssl_verify_var := ssl_verify_var (form app) |} app.

Definition set_ssl_verify (b : bool) (app : App) : App :=
  with_form {| username_var := username_var (form app);
               dir_var := dir_var (form app);
               token_var := token_var (form app);
               safe_dir_var := safe_dir_var (form app);
               ssl_verify_var := b |} app.

(** [set_controls_state(state)] *)
Definition set_controls_state (state : string) (app : App) : App :=
  {| form := form app;
     controls := {| run_button := state; safe_dir_cb := state;
                    ssl_verify_cb := state |};
     output_text := output_text app; table := table app;
     output_queue := output_queue app; status_queue := status_queue app |}.

(** *** update_repo_status *)

(** [d.get(key)] on the dictionary [repo_items]. *)
Fixpoint items_get (key : string) (d : list (string * nat)) : option nat :=
  match d with
  | [] => None
  | (k, v) :: d' => if String.eqb k key then Some v else items_get key d'
  end.

(** [tree.tag_configure(tag, foreground=colour)] *)
Fixpoint tag_configure (tag colour : string) (d : list (string * string))
  : list (string * string) :=
  match d with
  | [] => [(tag, colour)]
  | (k, v) :: d' =>
      if String.eqb k tag then (k, colour) :: d'
      else (k, v) :: tag_configure tag colour d'
  end.

(** [tree.item(iid, ...)]: the rows with the row [iid] changed by [f];
    no rows when there is no such row (Tk raises). *)
Fixpoint rows_item (iid : nat) (f : Row -> Row) (rs : list Row)
  : option (list Row) :=
  match rs with
  | [] => None
  | r :: rs' =>
      if (row_iid r =? iid)%nat then Some (f r :: rs')
      else match rows_item iid f rs' with
           | Some rs'' => Some (r :: rs'')
           | None => None
           end
  end.

Definition set_value (value : string) (r : Row) : Row :=
  {| row_iid := row_iid r; row_text := row_text r; row_value := value;
     row_tags := row_tags r |}.

Definition set_tags (tags : list string) (r : Row) : Row :=
  {| row_iid := row_iid r; row_text := row_text r;
     row_value := row_value r; row_tags := tags |}.

(** The tag and the colour [update_repo_status] gives to a status, when
    it gives one. *)
Definition tag_of_status (status : string) : option (string * string) :=
  if String.eqb status "成功" then Some ("success", "green")
  else if String.eqb status "失败" || String.eqb status "跳过"
  then Some ("fail", "red")
  else if String.eqb status "处理中" then Some ("processing", "blue")
  else None.

(** [update_repo_status(repo_name, status)]; nothing when Tk raises. *)
Definition update_repo_status (repo_name status : string) (t : Table)
  : option Table :=
  let placed :=
    match items_get repo_name (repo_items t) with
    | None =>
        let item_id := next_iid t in
        Some (item_id,
              {| rows := (rows t
                          ++ [{| row_iid := item_id; row_text := repo_name;
                                 row_value := status; row_tags := [] |}])%list;
                 next_iid := S (next_iid t);
                 tag_colors := tag_colors t;
                 repo_items := (repo_items t ++ [(repo_name, item_id)])%list |})
    | Some item_id =>
        match rows_item item_id (set_value status) (rows t) with
        | Some rs =>
            Some (item_id,
                  {| rows := rs; next_iid := next_iid t;
                     tag_colors := tag_colors t;
                     repo_items := repo_items t |})
        | None => None
        end
    end in
  match placed with
  | None => None
  | Some (item_id, t1) =>
      match tag_of_status status with
      | None => Some t1
      | Some (tag, colour) =>
          match rows_item item_id (set_tags [tag]) (rows t1) with
          | Some rs =>
              Some {| rows := rs; next_iid := next_iid t1;
                      tag_colors := tag_configure tag colour (tag_colors t1);
                      repo_items := repo_items t1 |}
          | None => None
          end
      end
  end.

(** The tags of a row and the colours of the tags after a status was
    shown on it. *)
Definition tags_after (status : string) (old : list string) : list string :=
  match tag_of_status status with
  | Some (tag, _) => [tag]
  | None => old
  end.

Definition colors_after (status : string) (d : list (string * string))
  : list (string * string) :=
  match tag_of_status status with
  | Some (tag, colour) => tag_configure tag colour d
  | None => d
  end.

(** The second loop of [update_ui]: every queued status, in order. *)
Fixpoint drain_status (q : list (string * string)) (t : Table)
  : option Table :=
  match q with
  | [] => Some t
  | (repo_name, status) :: q' =>
      match update_repo_status repo_name status t with
      | Some t1 => drain_status q' t1
      | None => None
      end
  end.

(** The dictionary and the tree view tell the same story. *)
Definition in_sync (t : Table) : Prop :=
  map (fun r => (row_text r, row_iid r)) (rows t) = repo_items t /\
  NoDup (map row_text (rows t)) /\
  NoDup (map row_iid (rows t)) /\
  Forall (fun r => row_iid r < next_iid t) (rows t).

(** A row that shows a terminal status with the tag that goes with it. *)
Definition settled (r : Row) : Prop :=
  (row_value r = "成功" /\ row_tags r = ["success"]) \/
  ((row_value r = "失败" \/ row_value r = "跳过") /\ row_tags r = ["fail"]).

(** A value and tags that make a settled row. *)
Definition settled_pair (p : string * list string) : Prop :=
  (fst p = "成功" /\ snd p = ["success"]) \/
  ((fst p = "失败" \/ fst p = "跳过") /\ snd p = ["fail"]).

(** What the table shows for a repository: the value and the tags of the
    first row with its name. *)
Definition shown_for (n : string) (t : Table)
  : option (string * list string) :=
  match find (fun r => String.eqb (row_text r) n) (rows t) with
  | Some r => Some (row_value r, row_tags r)
  | None => None
  end.

(** What a queue of statuses says last about a repository, starting from
    what was shown for it before. *)
Fixpoint latest (n : string) (q : list (string * string))
  (before : option (string * list string))
  : option (string * list string) :=
  match q with
  | [] => before
  | (m, status) :: q' =>
      latest n q'
        (if String.eqb m n
         then Some (status,
                    tags_after status
                      match before with
                      | Some (_, tags) => tags
                      | None => []
                      end)
         else before)
  end.

Section Window.

Context {D : Desktop}.

#[local] Existing Instance desktop_runtime.

(** *** update_config_status *)

Definition get_safe_directory : list string :=
  ["git"; "config"; "--global"; "--get-all"; "safe.directory"].

Definition get_ssl_verify : list string :=
  ["git"; "config"; "--global"; "--get"; "http.sslVerify"].

Definition update_config_status (app : App) (w : World)
  : App * World * list window_event :=
  let '(app1, w1, t1) :=
    match subprocess_run w get_safe_directory creation_flags with
    | (inr result, w1) =>
        let has_star :=
          if (cp_returncode result =? 0)%Z
          then existsb (String.eqb "*")
                       (split_newline (str_strip (cp_stdout result)))
          else false in
        (set_safe_dir has_star app, w1,
         [RanConfig get_safe_directory creation_flags])
    | (inl e, w1) =>
        (set_safe_dir false app, w1,
         [RanConfig get_safe_directory creation_flags;
          Printed ("获取 safe.directory 失败: " ++ str e)])
    end in
  match subprocess_run w1 get_ssl_verify creation_flags with
  | (inr result, w2) =>
      let ssl_enabled :=
        if (cp_returncode result =? 0)%Z
        then String.eqb (str_lower (str_strip (cp_stdout result))) "true"
        else true in
      (set_ssl_verify ssl_enabled app1, w2,
       (t1 ++ [RanConfig get_ssl_verify creation_flags])%list)
  | (inl e, w2) =>
      (set_ssl_verify true app1, w2,
       (t1 ++ [RanConfig get_ssl_verify creation_flags;
               Printed ("获取 http.sslVerify 失败: " ++ str e)])%list)
  end.

(** *** The two check boxes *)

(** The body shared by the two handlers: run [cmd]; on a non-zero exit
    or an exception put the variable back with [restore] and show an
    error box; otherwise read the configuration again; in every case
    enable the controls at the end. *)
Definition toggle (cmd : list string) (restore : App -> App) (app : App)
  (w : World) : App * World * list window_event :=
  let app1 := set_controls_state "disabled" app in
  let '(app2, w2, t2) :=
    match subprocess_run w cmd creation_flags with
    | (inr result, w1) =>
        if negb (cp_returncode result =? 0)%Z then
          (restore app1, w1,
           [RanConfig cmd creation_flags;
            ShowError "错误"
              ("执行 Git 命令失败:" ++ Py.newline ++ cp_stderr result)])
        else
          let '(app2, w2, t2) := update_config_status app1 w1 in
          (app2, w2, RanConfig cmd creation_flags :: t2)
    | (inl e, w1) =>
        (restore app1, w1,
         [RanConfig cmd creation_flags;
          ShowError "错误" ("发生异常:" ++ Py.newline ++ str e)])
    end in
  (set_controls_state "normal" app2, w2, t2).

Definition on_safe_directory_toggle (app : App) (w : World)
  : App * World * list window_event :=
  let target := safe_dir_var (form app) in
  let old_state := negb target in
  let cmd :=
    if target
    then ["git"; "config"; "--global"; "--add"; "safe.directory"; "*"]
    else ["git"; "config"; "--global"; "--unset-all"; "safe.directory"] in
  toggle cmd (set_safe_dir old_state) app w.

Definition on_ssl_verify_toggle (app : App) (w : World)
  : App * World * list window_event :=
  let target := ssl_verify_var (form app) in
  let old_state := negb target in
  let value := if target then "true" else "false" in
  let cmd := ["git"; "config"; "--global"; "http.sslVerify"; value] in
  toggle cmd (set_ssl_verify old_state) app w.

(** *** start_sync, sync_thread, update_ui *)

(** The text pane emptied, the rows of the tree deleted, [repo_items]
    cleared. *)
Definition cleared (app : App) : App :=
  with_table {| rows := []; next_iid := next_iid (table app);
                tag_colors := tag_colors (table app); repo_items := [] |}
             (with_text EmptyString app).

Definition start_sync (app : App) (w : World)
  : App * World * list window_event :=
  let username := str_strip (username_var (form app)) in
  let base_dir := str_strip (dir_var (form app)) in
  let token :=
    if Py.truthy (str_strip (token_var (form app)))
    then Some (str_strip (token_var (form app)))
    else None in
  if negb (Py.truthy username) then
    (app, w, [ShowError "错误" "请输入 GitHub 用户名"])
  else if negb (Py.truthy base_dir) then
    (app, w, [ShowError "错误" "请选择本地目录"])
  else
    let go (w1 : World) (t1 : list window_event) :=
      (set_controls_state "disabled" (cleared app), w1,
       (t1 ++ [ThreadStarted username base_dir token])%list) in
    if negb (os_path_exists w base_dir) then
      match window_makedirs w base_dir with
      | (None, w1) => go w1 [MadeDirs base_dir]
      | (Some e, w1) =>
          (app, w1,
           [MadeDirs base_dir; ShowError "错误" ("无法创建目录: " ++ str e)])
      end
    else go w [].

(** What the two callbacks of [sync_thread] put on the queues for the
    events of a session. *)
Definition queued_statuses (t : list event) : list (string * string) :=
  map (fun p => (fst p, status_text (snd p))) (statuses t).

Definition queued_output (t : list event) : list queue_item :=
  map QLog (log_lines t).

(** [sync_thread(username, base_dir, token)], run to its end: the queues
    hold what the callbacks put, and the sentinel when [process_repos]
    returned. *)
Definition sync_thread (fuel : nat) (username base_dir : string)
  (token : option string) (app : App) (w : World) : App * World :=
  let '(r, w1, t) :=
    process_repos fuel username base_dir token true true w in
  (with_status_queue (status_queue app ++ queued_statuses t)%list
     (with_output_queue
        (output_queue app ++ queued_output t
         ++ match r with Return _ => [QDone] | _ => [] end)%list app),
   w1).

(** The first loop of [update_ui]: log lines go to the text pane until
    the queue is empty or the sentinel is met; the sentinel reads the
    configuration again, enables the controls and ends the loop.  The
    last component is what stays in the queue. *)
Fixpoint drain_output (q : list queue_item) (app : App) (w : World)
  : App * World * list window_event * list queue_item :=
  match q with
  | [] => (app, w, [], [])
  | QDone :: rest =>
      let '(app1, w1, t1) := update_config_status app w in
      (set_controls_state "normal" app1, w1, t1, rest)
  | QLog msg :: rest =>
      drain_output rest
        (with_text (output_text app ++ msg ++ Py.newline) app) w
  end.

(** One run of [update_ui]; nothing when an exception escapes it. *)
Definition update_ui (app : App) (w : World)
  : option (App * World * list window_event) :=
  let '(app1, w1, t1, rest) := drain_output (output_queue app) app w in
  let app2 := with_output_queue rest app1 in
  match drain_status (status_queue app2) (table app2) with
  | Some t => Some (with_status_queue [] (with_table t app2), w1, t1)
  | None => None
  end.

End Window.

(** ** A desktop to run the window on *)

Module Studio.

Definition is_upper (c : ascii) : bool :=
  ((65 <=? nat_of_ascii c)%nat && (nat_of_ascii c <=? 90)%nat)%bool.

Fixpoint lower (s : string) : string :=
  match s with
  | EmptyString => EmptyString
  | String c s' =>
      String (if is_upper c then ascii_of_nat (nat_of_ascii c + 32) else c)
             (lower s')
  end.

Fixpoint strip_left (s : string) : string :=
  match s with
  | EmptyString => EmptyString
  | String c s' => if Demo.is_space c then strip_left s' else s
  end.

Definition strip (s : string) : string := strip_left (Demo.strip_right s).

(** [git config] reports two safe directories, one of them [*], and
    [http.sslVerify] as [False]; adding a value fails; any other command
    cannot be launched. *)
Definition run_config (w : Demo.world) (cmd : list string) (flags : Z)
  : (exn + CompletedProcess) * Demo.world :=
  match cmd with
  | [_; _; _; "--get-all"; _] =>
      (inr {| cp_returncode := 0;
              cp_stdout := "/src" ++ Py.newline ++ "*" ++ Py.newline;
              cp_stderr := "" |}, w)
  | [_; _; _; "--get"; _] =>
      (inr {| cp_returncode := 0; cp_stdout := "False" ++ Py.newline;
              cp_stderr := "" |}, w)
  | [_; _; _; "--add"; _; _] =>
      (inr {| cp_returncode := 255; cp_stdout := "";
              cp_stderr := "error: could not lock config file" |}, w)
  | _ => (inl (OtherError "[WinError 2] The system cannot find the file"), w)
  end.

Definition desktop : Desktop := {|
  desktop_runtime := Demo.runtime;
  subprocess_run := run_config;
  str_strip := strip;
  str_lower := lower;
  window_makedirs := fun w path =>
    (None, {| Demo.dirs := path :: Demo.dirs w;
              Demo.network := Demo.network w; Demo.git := Demo.git w |})
|}.

Definition fresh_table : Table :=
  {| rows := []; next_iid := 0; tag_colors := []; repo_items := [] |}.

(** The window with the form filled in, after an earlier run. *)
Definition app_d : App :=
  {| form := {| username_var := " u "; dir_var := "d"; token_var := "  ";
                safe_dir_var := true; ssl_verify_var := false |};
     controls := {| run_button := "normal"; safe_dir_cb := "normal";
                    ssl_verify_cb := "normal" |};
     output_text := "old";
     table := {| rows := [{| row_iid := 4; row_text := "gone";
                             row_value := "处理中";
                             row_tags := ["processing"] |}];
                 next_iid := 5; tag_colors := [("processing", "blue")];
                 repo_items := [("gone", 4)] |};
     output_queue := [];
     status_queue := [] |}.

(** The same window with no user name. *)
Definition app_blank : App :=
  with_form {| username_var := "  "; dir_var := "d"; token_var := "";
               safe_dir_var := true; ssl_verify_var := false |} app_d.

(** The directory [d] with the plain directory [d/c] in it. *)
Definition w_d : Demo.world :=
  {| Demo.dirs := ["d"; "d/c"];
     Demo.network := [page_response Demo.three];
     Demo.git := [Demo.done ["Cloning into 'd/a'..." ++ Py.newline];
                  Demo.failed [] 128] |}.

End Studio.

(** * Properties *)

(** ** Running the engine *)

Example demo_session_log :
  log_lines (events (process_repos (RT := Demo.runtime) 1 "u" "d" None
                                   true true Demo.w_three))
  = ["正在获取用户 u 的仓库列表...";
     "共找到 3 个仓库，开始处理...";
     "克隆 https://h/a.git 到 d/a";
     "Cloning into 'd/a'...";
     "克隆 https://h/b.git 到 d/b";
     "跳过: d/c 不是一个 Git 仓库";
     Py.newline ++ "处理完成: 2 成功, 1 失败"].
Proof. reflexivity. Qed.

Example demo_session_statuses :
  statuses (events (process_repos (RT := Demo.runtime) 1 "u" "d" None
                                  true true Demo.w_three))
  = [("a", Processing); ("a", Success);
     ("b", Processing); ("b", Success);
     ("c", Processing); ("c", Skipped)].
Proof. reflexivity. Qed.

Example demo_session_spawned :
  spawned (events (process_repos (RT := Demo.runtime) 1 "u" "d" None
                                 true true Demo.w_three))
  = [(["git"; "clone"; "https://h/a.git"; "d/a"], None);
     (["git"; "clone"; "https://h/b.git"; "d/b"], None)].
Proof. reflexivity. Qed.

Example demo_second_run_pulls :
  let w := final_world (process_repos (RT := Demo.runtime) 1 "u" "d" None
                                      true true Demo.w_three) in
  route (RT := Demo.runtime) w "d" {| name := "a"; clone_url := "x" |}
  = RoutePull.
Proof. reflexivity. Qed.

Example demo_out_of_rounds :
  value (get_user_repos (RT := Demo.runtime) 1 "u" None Demo.w_pages)
  = Diverge.
Proof. reflexivity. Qed.

Example demo_error_text :
  str (HTTPError 403 "rate limit exceeded")
  = "HTTP Error 403: rate limit exceeded".
Proof. reflexivity. Qed.

Example demo_missing_key :
  value (process_repos (RT := Demo.runtime) 2 "u" "d" None false true
                       Demo.w_broken) = Return false /\
  last (log_lines (events (process_repos (RT := Demo.runtime) 2 "u" "d" None
                                         false true Demo.w_broken)))
       EmptyString
  = "错误: 发生错误: 'clone_url'".
Proof. split; reflexivity. Qed.

(** ** Traces *)

Lemma statuses_app (t1 t2 : list event) :
  statuses (t1 ++ t2) = (statuses t1 ++ statuses t2)%list.
Proof.
  induction t1 as [|ev t1 IH]; simpl; [reflexivity|].
  destruct ev; simpl; rewrite IH; reflexivity.
Qed.

Lemma log_lines_app (t1 t2 : list event) :
  log_lines (t1 ++ t2) = (log_lines t1 ++ log_lines t2)%list.
Proof.
  induction t1 as [|ev t1 IH]; simpl; [reflexivity|].
  destruct ev; simpl; rewrite IH; reflexivity.
Qed.

Lemma requests_app (t1 t2 : list event) :
  requests (t1 ++ t2) = (requests t1 ++ requests t2)%list.
Proof.
  induction t1 as [|ev t1 IH]; simpl; [reflexivity|].
  destruct ev; simpl; rewrite IH; reflexivity.
Qed.

Lemma spawned_app (t1 t2 : list event) :
  spawned (t1 ++ t2) = (spawned t1 ++ spawned t2)%list.
Proof.
  induction t1 as [|ev t1 IH]; simpl; [reflexivity|].
  destruct ev; simpl; rewrite IH; reflexivity.
Qed.

Lemma statuses_status_event (scb : bool) (n : string) (s : RepoStatus) :
  statuses (status_event scb n s) = if scb then [(n, s)] else [].
Proof. destruct scb; reflexivity. Qed.

Lemma statuses_output_event (ocb : bool) (line : string) :
  statuses (output_event ocb line) = [].
Proof. destruct ocb; reflexivity. Qed.

Lemma statuses_output_events (ocb : bool) (lines : list string) :
  statuses (output_events ocb lines) = [].
Proof.
  destruct ocb; simpl; [|reflexivity].
  induction lines; simpl; auto.
Qed.

Lemma spawned_status_event (scb : bool) (n : string) (s : RepoStatus) :
  spawned (status_event scb n s) = [].
Proof. destruct scb; reflexivity. Qed.

Lemma spawned_output_event (ocb : bool) (line : string) :
  spawned (output_event ocb line) = [].
Proof. destruct ocb; reflexivity. Qed.

Lemma spawned_output_events (ocb : bool) (lines : list string) :
  spawned (output_events ocb lines) = [].
Proof.
  destruct ocb; simpl; [|reflexivity].
  induction lines; simpl; auto.
Qed.

Lemma requests_status_event (scb : bool) (n : string) (s : RepoStatus) :
  requests (status_event scb n s) = [].
Proof. destruct scb; reflexivity. Qed.

Lemma requests_output_event (ocb : bool) (line : string) :
  requests (output_event ocb line) = [].
Proof. destruct ocb; reflexivity. Qed.

Lemma requests_output_events (ocb : bool) (lines : list string) :
  requests (output_events ocb lines) = [].
Proof.
  destruct ocb; simpl; [|reflexivity].
  induction lines; simpl; auto.
Qed.

Lemma log_lines_status_event (scb : bool) (n : string) (s : RepoStatus) :
  log_lines (status_event scb n s) = [].
Proof. destruct scb; reflexivity. Qed.

Lemma log_lines_output_event (ocb : bool) (line : string) :
  log_lines (output_event ocb line) = if ocb then [line] else [].
Proof. destruct ocb; reflexivity. Qed.

Lemma log_lines_output_events (ocb : bool) (lines : list string) :
  log_lines (output_events ocb lines) = if ocb then lines else [].
Proof.
  destruct ocb; simpl; [|reflexivity].
  induction lines; simpl; [reflexivity|]. now rewrite IHlines.
Qed.

Lemma output_events_cons (ocb : bool) (line : string) (lines : list string) :
  output_events ocb (line :: lines)
  = (output_event ocb line ++ output_events ocb lines)%list.
Proof. destruct ocb; reflexivity. Qed.

Lemma statuses_requests (l : list Request) :
  statuses (map HttpRequest l) = [].
Proof. induction l; simpl; auto. Qed.

Lemma spawned_requests (l : list Request) :
  spawned (map HttpRequest l) = [].
Proof. induction l; simpl; auto. Qed.

Lemma log_lines_requests (l : list Request) :
  log_lines (map HttpRequest l) = [].
Proof. induction l; simpl; auto. Qed.

Lemma requests_requests (l : list Request) :
  requests (map HttpRequest l) = l.
Proof. induction l; simpl; [reflexivity|]. now rewrite IHl. Qed.

Create Rewrite HintDb trace.
#[local] Hint Rewrite statuses_app log_lines_app requests_app spawned_app
  statuses_status_event statuses_output_event statuses_output_events
  spawned_status_event spawned_output_event spawned_output_events
  requests_status_event requests_output_event requests_output_events
  log_lines_status_event log_lines_output_event log_lines_output_events
  statuses_requests spawned_requests log_lines_requests requests_requests
  app_nil_r app_nil_l : trace.

(** ** The monad *)

Section MonadFacts.

Context {RT : Runtime}.

Lemma prepend_nil {A : Type} (x : result A * World * list event) :
  prepend [] x = x.
Proof. destruct x as [[r w] t]; reflexivity. Qed.

Lemma prepend_prepend {A : Type} (t1 t2 : list event)
  (x : result A * World * list event) :
  prepend t1 (prepend t2 x) = prepend (t1 ++ t2) x.
Proof. destruct x as [[r w] t]; simpl; now rewrite app_assoc. Qed.

Lemma bind_return {A B : Type} (m : M A) (k : A -> M B) (w w1 : World)
  (a : A) (t1 : list event) :
  m w = (Return a, w1, t1) -> bind m k w = prepend t1 (k a w1).
Proof. intros H; unfold bind; now rewrite H. Qed.

Lemma bind_raise {A B : Type} (m : M A) (k : A -> M B) (w w1 : World)
  (e : exn) (t1 : list event) :
  m w = (Raise e, w1, t1) -> bind m k w = (Raise e, w1, t1).
Proof. intros H; unfold bind; now rewrite H. Qed.

Lemma bind_diverge {A B : Type} (m : M A) (k : A -> M B) (w w1 : World)
  (t1 : list event) :
  m w = (Diverge, w1, t1) -> bind m k w = (Diverge, w1, t1).
Proof. intros H; unfold bind; now rewrite H. Qed.

Lemma call_status_run (scb : bool) (n : string) (s : RepoStatus) (w : World) :
  call_status scb n s w = (Return tt, w, status_event scb n s).
Proof. destruct scb; reflexivity. Qed.

Lemma call_output_run (ocb : bool) (line : string) (w : World) :
  call_output ocb line w = (Return tt, w, output_event ocb line).
Proof. destruct ocb; reflexivity. Qed.

End MonadFacts.

(** ** The command runner *)

Section Runner.

Context {RT : Runtime}.

Lemma read_lines_run (lines : list string) (ocb : bool) (acc : list string)
  (w : World) :
  read_lines lines ocb acc w
  = (Return (acc ++ map rstrip lines)%list, w,
     output_events ocb (map rstrip lines)).
Proof.
  revert acc; induction lines as [|line rest IH]; intros acc; simpl.
  - unfold ret. rewrite app_nil_r. now destruct ocb.
  - rewrite (bind_return _ _ _ _ _ _ (call_output_run ocb (rstrip line) w)).
    rewrite IH. simpl. rewrite <- app_assoc. simpl.
    now rewrite output_events_cons.
Qed.

Lemma run_git_command_run (cmd : list string) (cwd : option string)
  (ocb : bool) (w : World) :
  run_git_command cmd cwd ocb w
  = match Popen w cmd cwd creation_flags with
    | (SpawnRaises e, w') =>
        (Return (false, str e), w', [Spawn cmd cwd creation_flags])
    | (Spawned p, w') =>
        (Return (runner_result p), w',
         Spawn cmd cwd creation_flags
           :: output_events ocb (map rstrip (stdout p)))
    end.
Proof.
  unfold run_git_command, try_except, bind, do_Popen, creation_flags.
  destruct (Popen w cmd cwd _) as [[e|p] w'] eqn:HP; simpl.
  - reflexivity.
  - rewrite read_lines_run. simpl.
    unfold end_of_stream, runner_result.
    destruct (stdout_error p) as [e|]; simpl.
    + unfold raise, ret. simpl. now rewrite !app_nil_r.
    + unfold ret. simpl.
      destruct (returncode p =? 0)%Z; simpl; now rewrite !app_nil_r.
Qed.

End Runner.

(** ** The orchestrator *)

Section Orchestrator.

Context {RT : Runtime}.

Lemma run_git_command_launch (cmd : list string) (cwd : option string)
  (ocb : bool) (w : World) :
  run_git_command cmd cwd ocb w
  = (Return (launch_result (fst (Popen w cmd cwd creation_flags))),
     snd (Popen w cmd cwd creation_flags),
     launch_events cmd cwd ocb (fst (Popen w cmd cwd creation_flags))).
Proof.
  rewrite run_git_command_run. unfold launch_events, launch_result.
  destruct (Popen w cmd cwd creation_flags) as [[e|p] w']; reflexivity.
Qed.

(** The three branches of [clone_or_pull], one equation each. *)
Lemma clone_or_pull_clone (repo : RepositoryRef) (base : string)
  (scb ocb : bool) (w : World) :
  route w base repo = RouteClone ->
  let lp := local_path_of base (name repo) in
  let cmd := ["git"; "clone"; clone_url repo; lp] in
  let s := fst (Popen w cmd None creation_flags) in
  clone_or_pull repo base scb ocb w
  = (Return (fst (launch_result s)),
     snd (Popen w cmd None creation_flags),
     status_event scb (name repo) Processing
     ++ output_event ocb ("克隆 " ++ clone_url repo ++ " 到 " ++ lp)
     ++ launch_events cmd None ocb s
     ++ status_event scb (name repo) (status_of_bool (fst (launch_result s))))%list.
Proof.
  intros H lp cmd s. unfold route in H. fold lp in H.
  unfold clone_or_pull.
  rewrite (bind_return _ _ _ _ _ _ (call_status_run _ _ _ _)).
  unfold ask at 1. unfold bind at 1. fold lp.
  destruct (os_path_exists w lp) eqn:He; simpl in *.
  { destruct (os_path_isdir w _); discriminate. }
  rewrite (bind_return _ _ _ _ _ _ (call_output_run _ _ _)).
  rewrite (bind_return _ _ _ _ _ _ (run_git_command_launch _ _ _ _)).
  fold cmd. fold s.
  destruct (fst (launch_result s)) eqn:Hr;
    rewrite (bind_return _ _ _ _ _ _ (call_status_run _ _ _ _));
    unfold ret; simpl; rewrite ?app_nil_r; reflexivity.
Qed.

Lemma clone_or_pull_pull (repo : RepositoryRef) (base : string)
  (scb ocb : bool) (w : World) :
  route w base repo = RoutePull ->
  let lp := local_path_of base (name repo) in
  let cmd := ["git"; "pull"] in
  let s := fst (Popen w cmd (Some lp) creation_flags) in
  clone_or_pull repo base scb ocb w
  = (Return (fst (launch_result s)),
     snd (Popen w cmd (Some lp) creation_flags),
     status_event scb (name repo) Processing
     ++ output_event ocb ("拉取 " ++ lp)
     ++ launch_events cmd (Some lp) ocb s
     ++ status_event scb (name repo) (status_of_bool (fst (launch_result s))))%list.
Proof.
  intros H lp cmd s. unfold route in H. fold lp in H.
  unfold clone_or_pull.
  rewrite (bind_return _ _ _ _ _ _ (call_status_run _ _ _ _)).
  unfold ask at 1. unfold bind at 1. fold lp.
  destruct (os_path_exists w lp) eqn:He; simpl in *; [|discriminate].
  unfold ask at 1. unfold bind at 1. fold lp.
  destruct (os_path_isdir w _) eqn:Hd; simpl in *; [|discriminate].
  rewrite (bind_return _ _ _ _ _ _ (call_output_run _ _ _)).
  rewrite (bind_return _ _ _ _ _ _ (run_git_command_launch _ _ _ _)).
  fold cmd. fold s.
  destruct (fst (launch_result s)) eqn:Hr;
    rewrite (bind_return _ _ _ _ _ _ (call_status_run _ _ _ _));
    unfold ret; simpl; rewrite ?app_nil_r; reflexivity.
Qed.

Lemma clone_or_pull_skip (repo : RepositoryRef) (base : string)
  (scb ocb : bool) (w : World) :
  route w base repo = RouteSkip ->
  let lp := local_path_of base (name repo) in
  clone_or_pull repo base scb ocb w
  = (Return false, w,
     status_event scb (name repo) Processing
     ++ output_event ocb ("跳过: " ++ lp ++ " 不是一个 Git 仓库")
     ++ status_event scb (name repo) Skipped)%list.
Proof.
  intros H lp. unfold route in H. fold lp in H.
  unfold clone_or_pull.
  rewrite (bind_return _ _ _ _ _ _ (call_status_run _ _ _ _)).
  unfold ask at 1. unfold bind at 1. fold lp.
  destruct (os_path_exists w lp) eqn:He; simpl in *; [|discriminate].
  unfold ask at 1. unfold bind at 1. fold lp.
  destruct (os_path_isdir w _) eqn:Hd; simpl in *; [discriminate|].
  rewrite (bind_return _ _ _ _ _ _ (call_output_run _ _ _)).
  rewrite (bind_return _ _ _ _ _ _ (call_status_run _ _ _ _)).
  unfold ret; simpl; rewrite ?app_nil_r; reflexivity.
Qed.

End Orchestrator.

(** ** The claims about the runner and the orchestrator *)

(** C6.  [run_git_command] always returns a pair and never raises.  When
    launching the subprocess raises, or reading its output raises, the
    pair is [(False, str(e))].  Otherwise the flag is true exactly when
    the exit code is zero, the lines of the merged output reach the output
    callback in the order the subprocess produced them (each stripped on
    the right), and the same lines joined by newlines are the returned
    output. *)
Theorem run_git_command_never_raises {RT : Runtime} (cmd : list string)
  (cwd : option string) (output_callback : bool) (w : World) :
  exists (succeeded : bool) (output : string) (lines : list string),
    run_git_command cmd cwd output_callback w
    = (Return (succeeded, output),
       snd (Popen w cmd cwd creation_flags),
       Spawn cmd cwd creation_flags :: output_events output_callback lines)
    /\ match fst (Popen w cmd cwd creation_flags) with
       | SpawnRaises e => succeeded = false /\ output = str e /\ lines = []
       | Spawned p =>
           lines = map rstrip (stdout p) /\
           match stdout_error p with
           | Some e => succeeded = false /\ output = str e
           | None => (succeeded = true <-> returncode p = 0%Z) /\
                     output = Py.join Py.newline lines
           end
       end.
Proof.
  rewrite run_git_command_run.
  destruct (Popen w cmd cwd creation_flags) as [[e|p] w'] eqn:HP; simpl.
  - exists false, (str e), []. split; [|auto].
    now destruct output_callback.
  - unfold runner_result.
    destruct (stdout_error p) as [e|] eqn:He.
    + exists false, (str e), (map rstrip (stdout p)). auto.
    + exists (returncode p =? 0)%Z,
             (Py.join Py.newline (map rstrip (stdout p))),
             (map rstrip (stdout p)).
      repeat split; auto.
      * intros H. now apply Z.eqb_eq.
      * intros H. now apply Z.eqb_eq.
Qed.

(** C3.  The routing of [clone_or_pull] has three cases that exclude one
    another and cover every world.  When the normalized target path does
    not exist, exactly one subprocess is launched, the clone into that
    path.  When it exists and holds a [.git] directory, exactly one
    subprocess is launched, the pull inside that path.  When it exists and
    holds no [.git] directory, the call returns [False], the status is
    Skipped and no subprocess is launched. *)
Theorem routing_total_exclusive {RT : Runtime} (repo_info : RepositoryRef)
  (base_dir : string) (status_callback output_callback : bool) (w : World) :
  let local_path := os_path_normpath (os_path_join base_dir (name repo_info)) in
  let run := clone_or_pull repo_info base_dir status_callback output_callback w in
  match os_path_exists w local_path,
        os_path_isdir w (os_path_join local_path ".git") with
  | false, _ =>
      spawned (events run)
      = [(["git"; "clone"; clone_url repo_info; local_path], None)]
  | true, true =>
      spawned (events run) = [(["git"; "pull"], Some local_path)]
  | true, false =>
      run = (Return false, w, events run) /\
      spawned (events run) = [] /\
      statuses (events run)
      = if status_callback
        then [(name repo_info, Processing); (name repo_info, Skipped)]
        else []
  end.
Proof.
  intros local_path run.
  destruct (os_path_exists w local_path) eqn:He;
    [destruct (os_path_isdir w (os_path_join local_path ".git")) eqn:Hd|].
  - assert (Hr : route w base_dir repo_info = RoutePull).
    { unfold route, local_path_of. fold local_path. now rewrite He, Hd. }
    unfold run. rewrite (clone_or_pull_pull _ _ _ _ _ Hr).
    unfold events, launch_events; simpl.
    autorewrite with trace. simpl.
    destruct (fst (Popen _ _ _ _)); simpl; autorewrite with trace; reflexivity.
  - assert (Hr : route w base_dir repo_info = RouteSkip).
    { unfold route, local_path_of. fold local_path. now rewrite He, Hd. }
    unfold run. rewrite (clone_or_pull_skip _ _ _ _ _ Hr).
    unfold events; simpl. autorewrite with trace.
    repeat split. now destruct status_callback.
  - assert (Hr : route w base_dir repo_info = RouteClone).
    { unfold route, local_path_of. fold local_path. now rewrite He. }
    unfold run. rewrite (clone_or_pull_clone _ _ _ _ _ Hr).
    unfold events, launch_events; simpl.
    autorewrite with trace. simpl.
    destruct (fst (Popen _ _ _ _)); simpl; autorewrite with trace; reflexivity.
Qed.



(** ** The listing client *)

Section Listing.

Context {RT : Runtime}.

Lemma append_repos_run (its : list json_item) (repos : list RepositoryRef)
  (w : World) :
  append_repos its repos w
  = (match page_refs its with
     | inl e => Raise e
     | inr l => Return (repos ++ l)%list
     end, w, []).
Proof.
  revert repos; induction its as [|it rest IH]; intros repos; simpl.
  - unfold ret. now rewrite app_nil_r.
  - unfold bind at 1.
    destruct (subscript it "name") as [e|n]; simpl; [reflexivity|].
    unfold bind at 1.
    destruct (subscript it "clone_url") as [e|u]; simpl; [reflexivity|].
    rewrite IH.
    destruct (page_refs rest) as [e|l]; simpl; [reflexivity|].
    now rewrite <- app_assoc.
Qed.

Lemma fetch_page_run (username : string) (token : option string)
  (page : nat) (repos : list RepositoryRef) (w : World) :
  let req := listing_request username token page in
  fetch_page username token page repos w
  = (match page_outcome (fst (urlopen w req)) with
     | inl e => Raise e
     | inr (go_on, l) => Return (go_on, (repos ++ l)%list)
     end, snd (urlopen w req), [HttpRequest req]).
Proof.
  intros req. unfold fetch_page, bind, do_urlopen, page_outcome. fold req.
  destruct (urlopen w req) as [[e|response] w']; simpl; [reflexivity|].
  destruct (payload response) as [e|[its|[|] te]]; simpl;
    rewrite ?app_nil_r; try reflexivity.
  destruct its as [|it rest]; [simpl; now rewrite app_nil_r|].
  cbv beta iota. rewrite append_repos_run.
  destruct (page_refs (it :: rest)) as [e|l]; simpl; [reflexivity|].
  destruct (has_next (link_header response)); reflexivity.
Qed.

(** One round of the loop. *)
Lemma round_run (fuel : nat) (username : string) (token : option string)
  (page : nat) (repos : list RepositoryRef) (w : World) :
  let req := listing_request username token page in
  get_user_repos_from (S fuel) username token page repos w
  = match page_outcome (fst (urlopen w req)) with
    | inl e =>
        (Raise (listing_error username e), snd (urlopen w req),
         [HttpRequest req])
    | inr (true, l) =>
        prepend [HttpRequest req]
          (get_user_repos_from fuel username token (page + 1)
                               (repos ++ l)%list (snd (urlopen w req)))
    | inr (false, l) =>
        (Return (repos ++ l)%list, snd (urlopen w req), [HttpRequest req])
    end.
Proof.
  intros req. simpl. unfold bind, try_except.
  rewrite fetch_page_run. fold req.
  destruct (page_outcome (fst (urlopen w req))) as [e|[[|] l]]; simpl;
    reflexivity.
Qed.

(** The loop emits listing requests and nothing else. *)
Lemma get_user_repos_from_events (fuel : nat) (username : string)
  (token : option string) (page : nat) (repos : list RepositoryRef)
  (w : World) :
  exists n,
    events (get_user_repos_from fuel username token page repos w)
    = map HttpRequest (page_requests username token page n).
Proof.
  revert page repos w; induction fuel as [|fuel IH]; intros page repos w.
  - exists 0. reflexivity.
  - rewrite round_run.
    destruct (page_outcome _) as [e|[[|] l]].
    + exists 1. reflexivity.
    + destruct (IH (page + 1) (repos ++ l)%list
                   (snd (urlopen w (listing_request username token page))))
        as [n Hn].
      exists (S n).
      destruct (get_user_repos_from fuel _ _ _ _ _) as [[r w'] t].
      unfold events in *; simpl in *. rewrite Hn.
      unfold page_requests. simpl. now rewrite Nat.add_1_r.
    + exists 1. reflexivity.
Qed.

End Listing.

(** ** Walking a listing *)

Section Pagination.

Context {RT : Runtime}.

Lemma page_refs_well_formed (its : list json_item) :
  forallb well_formed its = true -> page_refs its = inr (refs_of its).
Proof.
  induction its as [|it rest IH]; simpl; [reflexivity|].
  unfold well_formed at 1, item_ref.
  destruct it as [members|te]; simpl; [|discriminate].
  destruct (dict_get members "name") as [e|n]; [discriminate|].
  destruct (dict_get members "clone_url") as [e|u]; [discriminate|].
  simpl. intros H. now rewrite (IH H).
Qed.

Lemma page_refs_ill_formed (its : list json_item) :
  forallb well_formed its = false -> exists e, page_refs its = inl e.
Proof.
  induction its as [|it rest IH]; simpl; [discriminate|].
  unfold well_formed at 1, item_ref.
  destruct it as [members|te]; simpl; [|eauto].
  destruct (dict_get members "name") as [e|n]; [eauto|].
  destruct (dict_get members "clone_url") as [e|u]; [eauto|].
  simpl. intros H. destruct (IH H) as [e He]. rewrite He. eauto.
Qed.

Lemma continuing_outcome (p : Page) :
  continuing p = true ->
  page_outcome (page_response p) = inr (true, refs_of (items p)).
Proof.
  unfold continuing, page_outcome, page_response; simpl.
  destruct (items p) as [|it rest] eqn:Hi; [discriminate|].
  intros H. apply andb_prop in H as [Hw Hn].
  rewrite (page_refs_well_formed _ Hw), Hn. reflexivity.
Qed.

(** A page on which the loop stops: empty, or without a next relation. *)
Lemma stopping_outcome (p : Page) :
  forallb well_formed (items p) = true ->
  match items p with [] => true | _ :: _ => negb (has_next (link p)) end = true ->
  page_outcome (page_response p) = inr (false, refs_of (items p)).
Proof.
  unfold page_outcome, page_response; simpl.
  intros Hw Hs.
  destruct (items p) as [|it rest] eqn:Hi; [reflexivity|].
  rewrite (page_refs_well_formed _ Hw).
  apply negb_true_iff in Hs. now rewrite Hs.
Qed.

Lemma served_app (username : string) (token : option string)
  (a b : list fetch) (w : World) (page : nat) :
  served username token w page (a ++ b) <->
  served username token w page a /\
  served username token (world_after username token w page (length a))
         (page + length a) b.
Proof.
  revert w page; induction a as [|f a IH]; intros w page; simpl.
  - rewrite Nat.add_0_r. tauto.
  - rewrite IH. rewrite <- Nat.add_assoc. simpl. tauto.
Qed.

Lemma page_requests_S (username : string) (token : option string)
  (page n : nat) :
  page_requests username token page (S n)
  = listing_request username token page
    :: page_requests username token (page + 1) n.
Proof. unfold page_requests. simpl. now rewrite Nat.add_1_r. Qed.

Lemma page_requests_snoc (username : string) (token : option string)
  (page n : nat) :
  page_requests username token page (n + 1)
  = (page_requests username token page n
     ++ [listing_request username token (page + n)])%list.
Proof.
  unfold page_requests. rewrite seq_app, map_app. reflexivity.
Qed.

(** The rounds over a prefix of pages after each of which the loop goes
    on. *)
Lemma listing_prefix (username : string) (token : option string)
  (pre : list Page) (page : nat) (repos : list RepositoryRef) (w : World)
  (fuel : nat) :
  forallb continuing pre = true ->
  served username token w page (map page_response pre) ->
  get_user_repos_from (length pre + fuel) username token page repos w
  = prepend (map HttpRequest (page_requests username token page (length pre)))
      (get_user_repos_from fuel username token (page + length pre)
         (repos ++ listing_refs pre)%list
         (world_after username token w page (length pre))).
Proof.
  revert page repos w; induction pre as [|p pre IH]; intros page repos w Hc Hs.
  - simpl. rewrite Nat.add_0_r, app_nil_r. now rewrite prepend_nil.
  - simpl in Hc. apply andb_prop in Hc as [Hp Hc].
    simpl in Hs. destruct Hs as [Hf Hs].
    change (length (p :: pre) + fuel) with (S (length pre + fuel)).
    rewrite round_run. rewrite Hf, (continuing_outcome _ Hp).
    rewrite (IH _ _ _ Hc Hs). rewrite prepend_prepend.
    simpl length. rewrite page_requests_S. simpl.
    rewrite <- app_assoc.
    replace (page + 1 + length pre) with (page + S (length pre)) by lia.
    reflexivity.
Qed.

Lemma world_after_snoc (username : string) (token : option string)
  (w : World) (page n : nat) :
  world_after username token w page (n + 1)
  = snd (urlopen (world_after username token w page n)
                 (listing_request username token (page + n))).
Proof.
  revert w page; induction n as [|n IH]; intros w page; simpl.
  - now rewrite Nat.add_0_r.
  - rewrite IH. now rewrite <- Nat.add_assoc.
Qed.

(** The last round, on an answer that makes the loop raise. *)
Lemma listing_last_raise (username : string) (token : option string)
  (pre : list Page) (f : fetch) (e : exn) (w : World) (fuel : nat) :
  forallb continuing pre = true ->
  served username token w 1 (map page_response pre ++ [f]) ->
  page_outcome f = inl e ->
  length pre < fuel ->
  get_user_repos fuel username token w
  = (Raise (listing_error username e),
     world_after username token w 1 (length pre + 1),
     map HttpRequest (page_requests username token 1 (length pre + 1))).
Proof.
  intros Hc Hs Ho Hlt.
  apply served_app in Hs as [Hpre Hlast].
  rewrite length_map in Hlast. destruct Hlast as [Hf _].
  unfold get_user_repos.
  replace fuel with (length pre + S (fuel - length pre - 1)) by lia.
  rewrite (listing_prefix _ _ _ _ _ _ _ Hc Hpre).
  rewrite round_run, Hf, Ho. simpl.
  rewrite page_requests_snoc, map_app, world_after_snoc. reflexivity.
Qed.

(** The last round, on an answer that stops the loop. *)
Lemma listing_last_stop (username : string) (token : option string)
  (pre : list Page) (f : fetch) (l : list RepositoryRef) (w : World)
  (fuel : nat) :
  forallb continuing pre = true ->
  served username token w 1 (map page_response pre ++ [f]) ->
  page_outcome f = inr (false, l) ->
  length pre < fuel ->
  get_user_repos fuel username token w
  = (Return (listing_refs pre ++ l)%list,
     world_after username token w 1 (length pre + 1),
     map HttpRequest (page_requests username token 1 (length pre + 1))).
Proof.
  intros Hc Hs Ho Hlt.
  apply served_app in Hs as [Hpre Hlast].
  rewrite length_map in Hlast. destruct Hlast as [Hf _].
  unfold get_user_repos.
  replace fuel with (length pre + S (fuel - length pre - 1)) by lia.
  rewrite (listing_prefix _ _ _ _ _ _ _ Hc Hpre).
  rewrite round_run, Hf, Ho. simpl.
  rewrite page_requests_snoc, map_app, world_after_snoc. reflexivity.
Qed.

End Pagination.

(** ** The claims about the listing client *)

Section PaginationClaims.

Context {RT : Runtime}.

Lemma full_continuing (pages : list Page) :
  Forall full pages -> forallb continuing pages = true.
Proof.
  induction 1 as [|p pages [Hl [Hw Hn]] _ IH]; simpl; [reflexivity|].
  rewrite IH, andb_true_r. unfold continuing.
  destruct (items p) as [|it rest]; [discriminate Hl|].
  now rewrite Hw, Hn.
Qed.

Lemma listing_refs_snoc (pages : list Page) (p : Page) :
  listing_refs (pages ++ [p]) = (listing_refs pages ++ refs_of (items p))%list.
Proof.
  unfold listing_refs. rewrite flat_map_app. simpl. now rewrite app_nil_r.
Qed.

End PaginationClaims.

(** C4.  Pagination terminates.  Take a listing of N pages: N - 1 pages of
    exactly 100 repository objects each, whose [Link] header has a next
    relation, and a final page of at most 100 objects.  When the final page
    is empty or its [Link] header has no next relation, [get_user_repos]
    issues exactly N requests; when the final page is not empty and its
    [Link] header still has a next relation, and the page after it is
    empty, it issues exactly N + 1.  The requests are those for the pages
    1, 2, 3, ... in this order: the k-th request asks for the address
    [https://api.github.com/users/<username>/repos?page=<k>&per_page=100].
    The list returned is the concatenation of the pages in page order.
    Any bound on the rounds that is at least that number of requests
    suffices. *)
Theorem pagination_terminates {RT : Runtime} (username : string)
  (token : option string) (w : World) (pages : list Page) (final : Page)
  (empty_link : option string) (fuel : nat) :
  Forall full pages ->
  length (items final) <= per_page ->
  forallb well_formed (items final) = true ->
  let n := length pages + 1 + (if advertises_more final then 1 else 0) in
  served username token w 1
    (map page_response (pages ++ [final])
     ++ (if advertises_more final
         then [page_response {| items := []; link := empty_link |}]
         else [])) ->
  n <= fuel ->
  get_user_repos fuel username token w
  = (Return (listing_refs (pages ++ [final])),
     world_after username token w 1 n,
     map HttpRequest (map (listing_request username token) (seq 1 n))) /\
  map url (requests (events (get_user_repos fuel username token w)))
  = map (fun page =>
           "https://api.github.com/users/" ++ username ++ "/repos?page="
           ++ Py.str_of_nat page ++ "&per_page=100")
        (seq 1 n).
Proof.
  intros Hfull Hlen Hw n Hs Hfuel.
  enough (H : get_user_repos fuel username token w
              = (Return (listing_refs (pages ++ [final])),
                 world_after username token w 1 n,
                 map HttpRequest
                     (map (listing_request username token) (seq 1 n)))).
  { split; [exact H|]. rewrite H. unfold events. cbn [snd].
    rewrite requests_requests, map_map. apply map_ext. intros page.
    reflexivity. }
  subst n.
  pose proof (full_continuing _ Hfull) as Hc.
  fold (page_requests username token 1
          (length pages + 1 + (if advertises_more final then 1 else 0))).
  destruct (advertises_more final) eqn:Hmore.
  - assert (Hc' : forallb continuing (pages ++ [final]) = true).
    { rewrite forallb_app, Hc. simpl. rewrite andb_true_r.
      unfold advertises_more in Hmore. unfold continuing.
      destruct (items final); [discriminate|]. now rewrite Hw, Hmore. }
    rewrite (listing_last_stop username token (pages ++ [final])
               (page_response {| items := []; link := empty_link |}) []
               w fuel Hc' Hs eq_refl).
    + rewrite app_nil_r, length_app. reflexivity.
    + rewrite length_app. simpl. lia.
  - rewrite app_nil_r, map_app in Hs. simpl in Hs.
    rewrite (listing_last_stop username token pages (page_response final)
               (refs_of (items final)) w fuel Hc Hs).
    + rewrite listing_refs_snoc, Nat.add_0_r. reflexivity.
    + apply stopping_outcome; [exact Hw|].
      unfold advertises_more in Hmore.
      destruct (items final); [reflexivity|]. now rewrite Hmore.
    + lia.
Qed.

Lemma pagination_terminates_witness :
  get_user_repos (RT := Demo.runtime) 2 "u" None Demo.w_pages
  = (Return (listing_refs [Demo.full_page; Demo.short_page]),
     world_after (RT := Demo.runtime) "u" None Demo.w_pages 1 2,
     map HttpRequest (map (listing_request "u" None) (seq 1 2))) /\
  map url
      (requests
         (events (get_user_repos (RT := Demo.runtime) 2 "u" None
                                 Demo.w_pages)))
  = ["https://api.github.com/users/u/repos?page=1&per_page=100";
     "https://api.github.com/users/u/repos?page=2&per_page=100"].
Proof.
  apply (pagination_terminates (RT := Demo.runtime) "u" None Demo.w_pages
           [Demo.full_page] Demo.short_page None 2).
  - repeat constructor.
  - simpl. unfold per_page. lia.
  - reflexivity.
  - simpl. repeat split.
  - simpl. lia.
Defined.

(** ** The session driver *)

Section Session.

Context {RT : Runtime}.

Lemma process_repos_listing_raises (fuel : nat) (username base : string)
  (token : option string) (scb ocb : bool) (w w1 : World) (e : exn)
  (t1 : list event) :
  get_user_repos fuel username token w = (Raise e, w1, t1) ->
  process_repos fuel username base token scb ocb w
  = (Return false, w1,
     output_event ocb (listing_line username) ++ t1
     ++ output_event ocb (error_line e))%list.
Proof.
  intros H. unfold process_repos.
  rewrite (bind_return _ _ _ _ _ _ (call_output_run _ _ _)).
  rewrite H. simpl.
  rewrite (bind_return _ _ _ _ _ _ (call_output_run _ _ _)).
  unfold ret. simpl. now rewrite app_nil_r, <- app_assoc.
Qed.

Lemma process_repos_listing_returns (fuel : nat) (username base : string)
  (token : option string) (scb ocb : bool) (w w1 : World)
  (repos : list RepositoryRef) (t1 : list event) :
  get_user_repos fuel username token w = (Return repos, w1, t1) ->
  process_repos fuel username base token scb ocb w
  = prepend (output_event ocb (listing_line username) ++ t1)
      (process_listing repos base scb ocb w1).
Proof.
  intros H. unfold process_repos.
  rewrite (bind_return _ _ _ _ _ _ (call_output_run _ _ _)).
  rewrite H. simpl. reflexivity.
Qed.

(** One call of the orchestrator: the first event is Processing, the
    last is a terminal status, and the boolean says whether that status
    is Success. *)
Lemma clone_or_pull_shape (repo : RepositoryRef) (base : string)
  (scb ocb : bool) (w : World) :
  exists (final : RepoStatus) (mid : list event),
    terminal final = true /\
    statuses mid = [] /\ requests mid = [] /\
    clone_or_pull repo base scb ocb w
    = (Return (status_eqb final Success),
       final_world (clone_or_pull repo base scb ocb w),
       status_event scb (name repo) Processing ++ mid
       ++ status_event scb (name repo) final)%list.
Proof.
  destruct (route w base repo) eqn:Hr.
  - rewrite (clone_or_pull_clone _ _ _ _ _ Hr).
    set (lp := local_path_of base (name repo)).
    set (cmd := ["git"; "clone"; clone_url repo; lp]).
    set (s := fst (Popen _ _ _ _)).
    exists (status_of_bool (fst (launch_result s))),
      (output_event ocb ("克隆 " ++ clone_url repo ++ " 到 " ++ lp)
       ++ launch_events cmd None ocb s)%list.
    split; [now destruct (fst (launch_result s))|].
    split; [|split].
    + unfold launch_events. autorewrite with trace. cbn [statuses].
      destruct s; autorewrite with trace; reflexivity.
    + unfold launch_events. autorewrite with trace. cbn [requests].
      destruct s; autorewrite with trace; reflexivity.
    + unfold final_world. cbn [fst snd]. rewrite <- app_assoc.
      replace (status_eqb (status_of_bool (fst (launch_result s))) Success)
        with (fst (launch_result s)) by now destruct (fst (launch_result s)).
      reflexivity.
  - rewrite (clone_or_pull_pull _ _ _ _ _ Hr).
    set (lp := local_path_of base (name repo)).
    set (cmd := ["git"; "pull"]).
    set (s := fst (Popen _ _ _ _)).
    exists (status_of_bool (fst (launch_result s))),
      (output_event ocb ("拉取 " ++ lp)
       ++ launch_events cmd (Some lp) ocb s)%list.
    split; [now destruct (fst (launch_result s))|].
    split; [|split].
    + unfold launch_events. autorewrite with trace. cbn [statuses].
      destruct s; autorewrite with trace; reflexivity.
    + unfold launch_events. autorewrite with trace. cbn [requests].
      destruct s; autorewrite with trace; reflexivity.
    + unfold final_world. cbn [fst snd]. rewrite <- app_assoc.
      replace (status_eqb (status_of_bool (fst (launch_result s))) Success)
        with (fst (launch_result s)) by now destruct (fst (launch_result s)).
      reflexivity.
  - rewrite (clone_or_pull_skip _ _ _ _ _ Hr).
    set (lp := local_path_of base (name repo)).
    exists Skipped, (output_event ocb ("跳过: " ++ lp ++ " 不是一个 Git 仓库")).
    split; [reflexivity|].
    split; [|split].
    + autorewrite with trace. reflexivity.
    + autorewrite with trace. reflexivity.
    + reflexivity.
Qed.

Lemma successes_cons (s : RepoStatus) (finals : list RepoStatus) :
  successes (s :: finals)
  = (if status_eqb s Success then 1 else 0) + successes finals.
Proof. unfold successes. simpl. now destruct (status_eqb s Success). Qed.

Lemma failures_cons (s : RepoStatus) (finals : list RepoStatus) :
  failures (s :: finals)
  = (if status_eqb s Success then 0 else 1) + failures finals.
Proof. unfold failures. simpl. now destruct (status_eqb s Success). Qed.

(** The loop over the listing: one terminal status per repository. *)
Lemma process_loop_run (repos : list RepositoryRef) (base : string)
  (scb ocb : bool) (s f : nat) (w : World) :
  exists (finals : list RepoStatus) (w' : World) (t : list event),
    process_loop repos base scb ocb s f w
    = (Return (s + successes finals, f + failures finals), w', t) /\
    length finals = length repos /\
    forallb terminal finals = true /\
    statuses t
    = (if scb then flat_map status_pair (combine repos finals) else []) /\
    requests t = [].
Proof.
  revert s f w; induction repos as [|repo rest IH]; intros s f w.
  - exists [], w, []. simpl. unfold ret, successes, failures. simpl.
    rewrite !Nat.add_0_r. repeat split. now destruct scb.
  - destruct (clone_or_pull_shape repo base scb ocb w)
      as (final & mid & Hterm & Hmid & Hreq & Hrun).
    simpl. rewrite (bind_return _ _ _ _ _ _ Hrun).
    set (w1 := final_world _).
    destruct (status_eqb final Success) eqn:Hfinal.
    + destruct (IH (s + 1) f w1)
        as (finals & w' & t & Hloop & Hlen & Hall & Hst & Hrq).
      exists (final :: finals), w'. eexists.
      rewrite Hloop. cbn [prepend]. split; [|split; [|split; [|split]]].
      * rewrite successes_cons, failures_cons, Hfinal.
        replace (s + (1 + successes finals)) with (s + 1 + successes finals)
          by lia.
        reflexivity.
      * simpl. now rewrite Hlen.
      * simpl. now rewrite Hterm, Hall.
      * autorewrite with trace. rewrite Hmid, Hst.
        destruct scb; reflexivity.
      * autorewrite with trace. now rewrite Hreq, Hrq.
    + destruct (IH s (f + 1) w1)
        as (finals & w' & t & Hloop & Hlen & Hall & Hst & Hrq).
      exists (final :: finals), w'. eexists.
      rewrite Hloop. cbn [prepend]. split; [|split; [|split; [|split]]].
      * rewrite successes_cons, failures_cons, Hfinal.
        replace (f + (1 + failures finals)) with (f + 1 + failures finals)
          by lia.
        reflexivity.
      * simpl. now rewrite Hlen.
      * simpl. now rewrite Hterm, Hall.
      * autorewrite with trace. rewrite Hmid, Hst.
        destruct scb; reflexivity.
      * autorewrite with trace. now rewrite Hreq, Hrq.
Qed.

End Session.

(** ** Counting the statuses of a session *)

Section Tally.

Context {RT : Runtime}.

Lemma paired_statuses_count (repos : list RepositoryRef)
  (finals : list RepoStatus) :
  length finals = length repos ->
  forallb terminal finals = true ->
  let l := flat_map status_pair (combine repos finals) in
  length (filter (fun p => status_eqb (snd p) Success) l) = successes finals /\
  length (filter (fun p => status_eqb (snd p) Failed) l)
  + length (filter (fun p => status_eqb (snd p) Skipped) l) = failures finals /\
  length (filter (fun p => status_eqb (snd p) Processing) l) = length repos /\
  length (filter (fun p => terminal (snd p)) l) = length repos.
Proof.
  revert finals; induction repos as [|repo rest IH]; intros finals Hlen Hall.
  - destruct finals; [|discriminate]. repeat split.
  - destruct finals as [|final finals]; [discriminate|].
    simpl in Hlen, Hall. apply andb_prop in Hall as [Hterm Hall].
    injection Hlen as Hlen.
    destruct (IH finals Hlen Hall) as (H1 & H2 & H3 & H4).
    cbn zeta in *.
    change (flat_map status_pair (combine (repo :: rest) (final :: finals)))
      with ((name repo, Processing) :: (name repo, final)
            :: flat_map status_pair (combine rest finals)).
    rewrite successes_cons, failures_cons.
    destruct final; try discriminate; simpl; lia.
Qed.

(** The session over a listing that is not empty. *)
Lemma process_listing_run (repo : RepositoryRef) (rest : list RepositoryRef)
  (base : string) (scb ocb : bool) (w : World) :
  let repos := repo :: rest in
  exists (finals : list RepoStatus) (w' : World) (t : list event),
    process_loop repos base scb ocb 0 0 w
    = (Return (successes finals, failures finals), w', t) /\
    process_listing repos base scb ocb w
    = (Return (failures finals =? 0)%nat, w',
       output_event ocb (count_line (length repos)) ++ t
       ++ output_event ocb
            (summary_line (successes finals) (failures finals)))%list /\
    length finals = length repos /\
    forallb terminal finals = true /\
    statuses t
    = (if scb then flat_map status_pair (combine repos finals) else []) /\
    requests t = [].
Proof.
  intros repos.
  destruct (process_loop_run repos base scb ocb 0 0 w)
    as (finals & w' & t & Hloop & Hlen & Hall & Hst & Hrq).
  change (0 + successes finals) with (successes finals) in Hloop.
  change (0 + failures finals) with (failures finals) in Hloop.
  exists finals, w', t. repeat split; try assumption.
  subst repos. unfold process_listing.
  rewrite (bind_return _ _ _ _ _ _ (call_output_run _ _ _)).
  rewrite (bind_return _ _ _ _ _ _ Hloop).
  cbn [fst snd].
  rewrite (bind_return _ _ _ _ _ _ (call_output_run _ _ _)).
  unfold ret. cbn [prepend]. now rewrite app_nil_r.
Qed.

Lemma process_listing_nil (base : string) (scb ocb : bool) (w : World) :
  process_listing [] base scb ocb w
  = (Return true, w, output_event ocb nothing_line).
Proof.
  unfold process_listing.
  rewrite (bind_return _ _ _ _ _ _ (call_output_run _ _ _)).
  unfold ret. cbn [prepend]. now rewrite app_nil_r.
Qed.

End Tally.

(** ** The claims about a session *)

(** C2.  With a status callback, every call of [clone_or_pull] returns
    and invokes the callback exactly twice: Processing first, before
    anything else happens, and one terminal status (Success, Failed or
    Skipped) last.  Hence, in a session over a listing, the status events
    are one such pair per repository in listing order, and the number of
    terminal status events is the number of repositories. *)
Theorem status_twice_per_repository {RT : Runtime} (fuel : nat)
  (username base_dir : string) (token : option string)
  (output_callback : bool) (w w1 : World) (repos : list RepositoryRef)
  (t1 : list event) :
  get_user_repos fuel username token w = (Return repos, w1, t1) ->
  (forall (repo_info : RepositoryRef) (w0 : World),
     exists (ok : bool) (final : RepoStatus) (between : list event),
       value (clone_or_pull repo_info base_dir true output_callback w0)
       = Return ok /\
       events (clone_or_pull repo_info base_dir true output_callback w0)
       = (OnStatus (name repo_info) Processing :: between
          ++ [OnStatus (name repo_info) final])%list /\
       statuses between = [] /\
       terminal final = true) /\
  let session :=
    process_repos fuel username base_dir token true output_callback w in
  (exists finals : list RepoStatus,
     length finals = length repos /\
     forallb terminal finals = true /\
     statuses (events session)
     = flat_map status_pair (combine repos finals)) /\
  count_terminal (events session) = length repos /\
  count_status Processing (events session) = length repos.
Proof.
  intros Hlist. split.
  - intros repo w0.
    destruct (clone_or_pull_shape repo base_dir true output_callback w0)
      as (final & mid & Hterm & Hmid & _ & Hrun).
    exists (status_eqb final Success), final, mid.
    rewrite Hrun. unfold value, events. simpl. auto.
  - intros session. unfold session.
    rewrite (process_repos_listing_returns _ _ _ _ _ _ _ _ _ _ Hlist).
    destruct (get_user_repos_from_events fuel username token 1 [] w)
      as [n Hn].
    unfold get_user_repos in Hlist. rewrite Hlist in Hn.
    unfold events in Hn. simpl in Hn. subst t1.
    destruct repos as [|repo rest].
    + rewrite process_listing_nil.
      unfold events, count_terminal, count_status. cbn [prepend snd].
      autorewrite with trace. simpl.
      split; [|auto]. exists []. auto.
    + destruct (process_listing_run repo rest base_dir true output_callback w1)
        as (finals & w' & t & _ & Hrun & Hlen & Hall & Hst & _).
      rewrite Hrun. unfold events, count_terminal, count_status.
      cbn [prepend snd].
      autorewrite with trace. rewrite Hst. cbn [app].
      destruct (paired_statuses_count _ _ Hlen Hall) as (_ & _ & H3 & H4).
      split; [exists finals; auto|]. split; assumption.
Qed.

Lemma status_twice_per_repository_witness :
  let session :=
    process_repos (RT := Demo.runtime) 1 "u" "d" None true true Demo.w_three in
  count_terminal (events session) = 3 /\
  count_status Processing (events session) = 3.
Proof.
  refine (let H := status_twice_per_repository (RT := Demo.runtime) 1 "u" "d"
                     None true Demo.w_three _ _ _ eq_refl in _).
  destruct H as (_ & _ & H). exact H.
Defined.

(** C1.  A session over a listing that is not empty returns, and the
    boolean it returns is true exactly when the failure tally of its loop
    is zero.  The two tallies add up to the number of repositories; the
    last log line is the summary with the two tallies; and a repository
    whose terminal status is Skipped counts in the failure tally as one
    whose status is Failed does.  In particular, over three repositories of
    which two end in Success and one in Skipped, the session returns
    [False] and its summary line carries the counts 2 and 1. *)
Theorem session_result_iff_no_failure {RT : Runtime} (fuel : nat)
  (username base_dir : string) (token : option string)
  (status_callback output_callback : bool) (w w1 : World)
  (repos : list RepositoryRef) (t1 : list event) :
  repos <> [] ->
  get_user_repos fuel username token w = (Return repos, w1, t1) ->
  let session :=
    process_repos fuel username base_dir token status_callback
                  output_callback w in
  exists (success_count fail_count : nat) (ok : bool),
    value (process_loop repos base_dir status_callback output_callback 0 0 w1)
    = Return (success_count, fail_count) /\
    value session = Return ok /\
    (ok = true <-> fail_count = 0) /\
    success_count + fail_count = length repos /\
    (output_callback = true ->
     last (log_lines (events session)) EmptyString
     = summary_line success_count fail_count) /\
    (status_callback = true ->
     success_count = count_status Success (events session) /\
     fail_count = count_status Failed (events session)
                  + count_status Skipped (events session)) /\
    (status_callback = true ->
     output_callback = true ->
     length repos = 3 ->
     count_status Success (events session) = 2 ->
     count_status Skipped (events session) = 1 ->
     value session = Return false /\
     last (log_lines (events session)) EmptyString
     = Py.newline ++ "处理完成: 2 成功, 1 失败").
Proof.
  intros Hne Hlist session.
  destruct repos as [|repo rest]; [contradiction|].
  destruct (process_listing_run repo rest base_dir status_callback
              output_callback w1)
    as (finals & w' & t & Hloop & Hrun & Hlen & Hall & Hst & _).
  assert (Hsession :
    session
    = (Return (failures finals =? 0)%nat, w',
       (output_event output_callback (listing_line username) ++ t1)
       ++ output_event output_callback (count_line (length (repo :: rest)))
       ++ t
       ++ output_event output_callback
            (summary_line (successes finals) (failures finals)))%list).
  { unfold session.
    rewrite (process_repos_listing_returns _ _ _ _ _ _ _ _ _ _ Hlist).
    now rewrite Hrun. }
  destruct (get_user_repos_from_events fuel username token 1 [] w) as [n Hn].
  unfold get_user_repos in Hlist. rewrite Hlist in Hn.
  unfold events in Hn. cbn [snd] in Hn.
  destruct (paired_statuses_count _ _ Hlen Hall) as (H1 & H2 & H3 & _).
  cbn zeta in H1, H2, H3.
  assert (Hsum : successes finals + failures finals = length finals).
  { clear. unfold successes, failures.
    induction finals as [|s finals IH]; simpl; [reflexivity|].
    destruct (status_eqb s Success); simpl; lia. }
  assert (Hlast : output_callback = true ->
    last (log_lines (events session)) EmptyString
    = summary_line (successes finals) (failures finals)).
  { intros ->. rewrite Hsession. unfold events. cbn [snd].
    rewrite !app_assoc, log_lines_app. cbn [output_event log_lines].
    apply last_last. }
  assert (Hcount : status_callback = true ->
    successes finals = count_status Success (events session) /\
    failures finals = count_status Failed (events session)
                      + count_status Skipped (events session)).
  { intros ->. rewrite Hsession. unfold count_status, events. cbn [snd].
    subst t1. autorewrite with trace. rewrite Hst. cbn [app].
    rewrite H1, H2. auto. }
  exists (successes finals), (failures finals), (failures finals =? 0)%nat.
  split; [now rewrite Hloop|].
  split; [now rewrite Hsession|].
  split; [apply Nat.eqb_eq|].
  split; [now rewrite Hsum, Hlen|].
  split; [exact Hlast|].
  split; [exact Hcount|].
  intros Hs Ho H3r H2s H1k.
  destruct (Hcount Hs) as [Hsucc Hfail].
  assert (Hf1 : failures finals = 1) by (simpl in *; lia).
  assert (Hs2 : successes finals = 2) by lia.
  split.
  - rewrite Hsession. unfold value. cbn [fst]. now rewrite Hf1.
  - rewrite (Hlast Ho), Hs2, Hf1. reflexivity.
Qed.

Lemma session_result_iff_no_failure_witness :
  let session :=
    process_repos (RT := Demo.runtime) 1 "u" "d" None true true Demo.w_three in
  value session = Return false /\
  last (log_lines (events session)) EmptyString
  = Py.newline ++ "处理完成: 2 成功, 1 失败".
Proof.
  pose (listing := get_user_repos (RT := Demo.runtime) 1 "u" None Demo.w_three).
  destruct (session_result_iff_no_failure (RT := Demo.runtime) 1 "u" "d"
              None true true Demo.w_three (final_world listing)
              (refs_of (items Demo.three)) (events listing))
    as (s & f & ok & _ & _ & _ & _ & _ & _ & H).
  - discriminate.
  - reflexivity.
  - apply H; reflexivity.
Defined.

(** ** The claims about a failing listing *)

Section ListingFailure.

Context {RT : Runtime}.

Lemma listing_error_is_exception (username : string) (e : exn) :
  exists message, listing_error username e = Exception message.
Proof.
  unfold listing_error, UserNotFound, RateLimited, APIRequestFailed,
    TransportError.
  destruct e as [code msg| | | |]; eauto.
  destruct (code =? 404)%Z; [eauto|].
  destruct ((code =? 403)%Z && _); eauto.
Qed.

(** When the listing raises, the session logs the error and returns
    [False] at once. *)
Lemma failed_listing_session (fuel : nat) (username base : string)
  (token : option string) (scb ocb : bool) (w : World) (pre : list Page)
  (f : fetch) (e : exn) :
  forallb continuing pre = true ->
  served username token w 1 (map page_response pre ++ [f]) ->
  page_outcome f = inl e ->
  length pre < fuel ->
  process_repos fuel username base token scb ocb w
  = (Return false,
     world_after username token w 1 (length pre + 1),
     output_event ocb (listing_line username)
     ++ map HttpRequest (page_requests username token 1 (length pre + 1))
     ++ output_event ocb (error_line (listing_error username e)))%list.
Proof.
  intros Hc Hs Ho Hlt.
  apply process_repos_listing_raises.
  now apply listing_last_raise with (f := f).
Qed.

End ListingFailure.

(** C5.  When a listing request is answered with HTTP 404 (the first one,
    or a later one after pages that made the loop go on),
    [get_user_repos] raises the exception whose message says that the
    user does not exist or has no public repositories; [process_repos]
    logs that message after its announcement, returns [False], launches
    no subprocess and reports no status: no repository is processed. *)
Theorem user_not_found_stops_session {RT : Runtime} (fuel : nat)
  (username base_dir : string) (token : option string)
  (status_callback output_callback : bool) (w : World) (pre : list Page)
  (reason : string) :
  forallb continuing pre = true ->
  served username token w 1
    (map page_response pre ++ [FetchRaises (HTTPError 404 reason)]) ->
  length pre < fuel ->
  let session :=
    process_repos fuel username base_dir token status_callback
                  output_callback w in
  value (get_user_repos fuel username token w)
  = Raise (Exception ("用户 " ++ username ++ " 不存在或没有公共仓库。")) /\
  value session = Return false /\
  log_lines (events session)
  = (if output_callback
     then ["正在获取用户 " ++ username ++ " 的仓库列表...";
           "错误: 用户 " ++ username ++ " 不存在或没有公共仓库。"]
     else []) /\
  statuses (events session) = [] /\
  spawned (events session) = [] /\
  final_world session = world_after username token w 1 (length pre + 1).
Proof.
  intros Hc Hs Hlt session.
  assert (Ho : page_outcome (FetchRaises (HTTPError 404 reason))
               = inl (HTTPError 404 reason)) by reflexivity.
  split.
  - rewrite (listing_last_raise _ _ _ _ _ _ _ Hc Hs Ho Hlt). reflexivity.
  - unfold session.
    rewrite (failed_listing_session _ _ _ _ _ _ _ _ _ _ Hc Hs Ho Hlt).
    unfold value, events, final_world. cbn [fst snd].
    autorewrite with trace.
    repeat split. destruct output_callback; reflexivity.
Qed.

Lemma user_not_found_stops_session_witness :
  let session :=
    process_repos (RT := Demo.runtime) 1 "u" "d" None true true Demo.w_404 in
  value session = Return false /\
  statuses (events session) = [] /\
  spawned (events session) = [].
Proof.
  destruct (user_not_found_stops_session (RT := Demo.runtime) 1 "u" "d" None
              true true Demo.w_404 [] "Not Found")
    as (_ & Hv & _ & Hst & Hsp & _).
  - reflexivity.
  - simpl. split; reflexivity.
  - simpl. lia.
  - repeat split; assumption.
Defined.

(** C7.  When a listing request is answered with an HTTP error status,
    [get_user_repos] raises: for 403 with the words "rate limit" in the
    text of the error, the rate-limit exception; for 404, the
    user-not-found exception; for every other status, and for 403 without
    those words, the request-failed exception that carries the text of
    the error.  The rate-limit exception is none of the request-failed
    ones. *)
Theorem rate_limit_is_classified {RT : Runtime} (fuel : nat)
  (username : string) (token : option string) (w : World) (pre : list Page)
  (code : Z) (reason : string) :
  forallb continuing pre = true ->
  served username token w 1
    (map page_response pre ++ [FetchRaises (HTTPError code reason)]) ->
  length pre < fuel ->
  let text := "HTTP Error " ++ Py.str_of_int code ++ ": " ++ reason in
  value (get_user_repos fuel username token w)
  = Raise
      (if (code =? 404)%Z then
         Exception ("用户 " ++ username ++ " 不存在或没有公共仓库。")
       else if (code =? 403)%Z && Py.str_in "rate limit" text then
         Exception "API 速率限制已用尽。请稍后再试，或使用个人访问令牌提高限制。"
       else
         Exception ("API 请求失败: " ++ text)) /\
  (code = 403%Z -> Py.str_in "rate limit" text = true ->
   value (get_user_repos fuel username token w) = Raise RateLimited) /\
  (forall e : exn, RateLimited <> APIRequestFailed e).
Proof.
  intros Hc Hs Hlt text.
  assert (Ho : page_outcome (FetchRaises (HTTPError code reason))
               = inl (HTTPError code reason)) by reflexivity.
  rewrite (listing_last_raise _ _ _ _ _ _ _ Hc Hs Ho Hlt).
  unfold value. cbn [fst].
  split; [reflexivity|]. split.
  - intros -> Hin. unfold listing_error. cbn [str]. fold text.
    now rewrite Hin.
  - intros e H. unfold RateLimited, APIRequestFailed in H.
    discriminate H.
Qed.

Lemma rate_limit_is_classified_witness :
  value (get_user_repos (RT := Demo.runtime) 2 "u" None Demo.w_403)
  = Raise RateLimited.
Proof.
  destruct (rate_limit_is_classified (RT := Demo.runtime) 2 "u" None
              Demo.w_403 [Demo.full_page] 403 "rate limit exceeded")
    as (_ & H & _).
  - reflexivity.
  - simpl. repeat split.
  - simpl. lia.
  - apply H; reflexivity.
Defined.

(** C10.  The listing is all or nothing.  When the round for some page
    raises inside its [try] (the request fails, the body cannot be read or
    decoded, the body is no array, or an element of the array is no object
    with both the [name] and the [clone_url] key), also after earlier pages
    were fetched and collected, [get_user_repos] raises an exception and
    returns no list; [process_repos] then returns [False], reports no
    status and launches no subprocess: no repository is processed. *)
Theorem listing_all_or_nothing {RT : Runtime} (fuel : nat)
  (username base_dir : string) (token : option string)
  (status_callback output_callback : bool) (w : World) (pre : list Page)
  (f : fetch) (e : exn) :
  forallb continuing pre = true ->
  served username token w 1 (map page_response pre ++ [f]) ->
  page_outcome f = inl e ->
  length pre < fuel ->
  let session :=
    process_repos fuel username base_dir token status_callback
                  output_callback w in
  (exists message,
     value (get_user_repos fuel username token w) = Raise (Exception message) /\
     log_lines (events session)
     = if output_callback
       then [listing_line username; "错误: " ++ message]
       else []) /\
  value session = Return false /\
  statuses (events session) = [] /\
  spawned (events session) = [] /\
  final_world session = world_after username token w 1 (length pre + 1) /\
  (forall (its : list json_item) (link : option string),
     forallb well_formed its = false ->
     exists e',
       page_outcome
         (Fetched {| payload := inr (JArray its); link_header := link |})
       = inl e') /\
  (forall members : list (string * string),
     dict_get members "name" = inl (KeyError "name") \/
     dict_get members "clone_url" = inl (KeyError "clone_url") ->
     well_formed (JObject members) = false).
Proof.
  intros Hc Hs Ho Hlt session.
  split; [|split; [|split; [|split; [|split; [|split]]]]].
  - destruct (listing_error_is_exception username e) as [message Hm].
    exists message.
    rewrite (listing_last_raise _ _ _ _ _ _ _ Hc Hs Ho Hlt).
    unfold session.
    rewrite (failed_listing_session _ _ _ _ _ _ _ _ _ _ Hc Hs Ho Hlt).
    rewrite Hm. unfold value, events. cbn [fst snd].
    autorewrite with trace. split; [reflexivity|].
    destruct output_callback; reflexivity.
  - unfold session.
    now rewrite (failed_listing_session _ _ _ _ _ _ _ _ _ _ Hc Hs Ho Hlt).
  - unfold session.
    rewrite (failed_listing_session _ _ _ _ _ _ _ _ _ _ Hc Hs Ho Hlt).
    unfold events. cbn [snd]. now autorewrite with trace.
  - unfold session.
    rewrite (failed_listing_session _ _ _ _ _ _ _ _ _ _ Hc Hs Ho Hlt).
    unfold events. cbn [snd]. now autorewrite with trace.
  - unfold session.
    now rewrite (failed_listing_session _ _ _ _ _ _ _ _ _ _ Hc Hs Ho Hlt).
  - intros its link Hill.
    destruct (page_refs_ill_formed its Hill) as [e' He'].
    exists e'. unfold page_outcome. cbn [payload].
    destruct its as [|it rest]; [discriminate Hill|].
    now rewrite He'.
  - intros members [H|H]; unfold well_formed, item_ref; rewrite H.
    + reflexivity.
    + now destruct (dict_get members "name").
Qed.

Lemma listing_all_or_nothing_witness :
  let session :=
    process_repos (RT := Demo.runtime) 2 "u" "d" None true true Demo.w_broken in
  value session = Return false /\
  statuses (events session) = [] /\
  spawned (events session) = [].
Proof.
  destruct (listing_all_or_nothing (RT := Demo.runtime) 2 "u" "d" None
              true true Demo.w_broken [Demo.full_page] Demo.broken_page
              (KeyError "clone_url"))
    as (_ & Hv & Hst & Hsp & _).
  - reflexivity.
  - simpl. repeat split.
  - reflexivity.
  - simpl. lia.
  - repeat split; assumption.
Defined.

(** ** The token *)

Section Token.

Context {RT : Runtime}.

Lemma process_repos_run (fuel : nat) (username base : string)
  (token : option string) (scb ocb : bool) (w : World) :
  process_repos fuel username base token scb ocb w
  = match get_user_repos fuel username token w with
    | (Return repos, w1, t1) =>
        prepend (output_event ocb (listing_line username) ++ t1)
          (process_listing repos base scb ocb w1)
    | (Raise e, w1, t1) =>
        (Return false, w1,
         output_event ocb (listing_line username) ++ t1
         ++ output_event ocb (error_line e))%list
    | (Diverge, w1, t1) =>
        (Diverge, w1, (output_event ocb (listing_line username) ++ t1)%list)
    end.
Proof.
  destruct (get_user_repos fuel username token w) as [[[repos|e|] w1] t1] eqn:H.
  - now apply process_repos_listing_returns.
  - now apply process_repos_listing_raises.
  - unfold process_repos.
    rewrite (bind_return _ _ _ _ _ _ (call_output_run _ _ _)).
    rewrite H. reflexivity.
Qed.

(** The session emits no listing request after the listing. *)
Lemma process_listing_requests (repos : list RepositoryRef) (base : string)
  (scb ocb : bool) (w : World) :
  requests (events (process_listing repos base scb ocb w)) = [].
Proof.
  destruct repos as [|repo rest].
  - rewrite process_listing_nil. unfold events. cbn [snd].
    now autorewrite with trace.
  - destruct (process_listing_run repo rest base scb ocb w)
      as (finals & w' & t & _ & Hrun & _ & _ & _ & Hrq).
    rewrite Hrun. unfold events. cbn [snd].
    autorewrite with trace. exact Hrq.
Qed.

Lemma session_requests (fuel : nat) (username base : string)
  (token : option string) (scb ocb : bool) (w : World) :
  exists n,
    requests (events (process_repos fuel username base token scb ocb w))
    = page_requests username token 1 n.
Proof.
  rewrite process_repos_run.
  destruct (get_user_repos_from_events fuel username token 1 [] w) as [n Hn].
  fold (get_user_repos fuel username token w) in Hn.
  exists n.
  destruct (get_user_repos fuel username token w) as [[[repos|e|] w1] t1];
    unfold events in Hn; cbn [snd] in Hn; subst t1.
  - pose proof (process_listing_requests repos base scb ocb w1) as Hp.
    destruct (process_listing repos base scb ocb w1) as [[r w2] t2].
    unfold events in *. cbn [prepend snd] in *.
    autorewrite with trace. rewrite Hp. now rewrite app_nil_r.
  - unfold events. cbn [snd]. now autorewrite with trace.
  - unfold events. cbn [snd]. now autorewrite with trace.
Qed.


End Token.




(** * More properties of the engine *)

(** ** The listing client, further *)

Section ListingMore.

Context {RT : Runtime}.

Lemma first_page_stop (fuel : nat) (username : string)
  (token : option string) (w : World) (l : list RepositoryRef) :
  0 < fuel ->
  page_outcome (fst (urlopen w (listing_request username token 1)))
  = inr (false, l) ->
  get_user_repos fuel username token w
  = (Return l, snd (urlopen w (listing_request username token 1)),
     [HttpRequest (listing_request username token 1)]).
Proof.
  intros Hfuel Ho. unfold get_user_repos.
  destruct fuel as [|fuel]; [lia|].
  rewrite round_run, Ho. reflexivity.
Qed.

Lemma first_page_raise (fuel : nat) (username : string)
  (token : option string) (w : World) (e : exn) :
  0 < fuel ->
  page_outcome (fst (urlopen w (listing_request username token 1))) = inl e ->
  get_user_repos fuel username token w
  = (Raise (listing_error username e),
     snd (urlopen w (listing_request username token 1)),
     [HttpRequest (listing_request username token 1)]).
Proof.
  intros Hfuel Ho. unfold get_user_repos.
  destruct fuel as [|fuel]; [lia|].
  rewrite round_run, Ho. reflexivity.
Qed.

Lemma get_user_repos_from_empty_token (fuel : nat) (username : string)
  (page : nat) (repos : list RepositoryRef) (w : World) :
  get_user_repos_from fuel username (Some EmptyString) page repos w
  = get_user_repos_from fuel username None page repos w.
Proof.
  revert page repos w; induction fuel as [|fuel IH]; intros page repos w.
  - reflexivity.
  - rewrite !round_run.
    change (listing_request username (Some EmptyString) page)
      with (listing_request username None page).
    destruct (page_outcome _) as [e|[[|] l]]; try reflexivity.
    now rewrite IH.
Qed.

End ListingMore.

(** X1.  An empty listing is a success.  When the first page is an empty
    array, or a body that is no array and is falsy, [get_user_repos]
    returns the empty list after that one request, and [process_repos]
    logs that nothing was found and returns [True] without reporting a
    status or launching a subprocess. *)
Theorem empty_listing_is_success {RT : Runtime} (fuel : nat)
  (username base_dir : string) (token : option string)
  (status_callback output_callback : bool) (w : World)
  (response : Response) :
  0 < fuel ->
  fst (urlopen w (listing_request username token 1)) = Fetched response ->
  payload response = inr (JArray []) \/
  (exists text, payload response = inr (JNonArray false text)) ->
  let session :=
    process_repos fuel username base_dir token status_callback
                  output_callback w in
  value (get_user_repos fuel username token w) = Return [] /\
  value session = Return true /\
  log_lines (events session)
  = (if output_callback
     then ["正在获取用户 " ++ username ++ " 的仓库列表...";
           "没有找到任何仓库。"]
     else []) /\
  requests (events session) = [listing_request username token 1] /\
  statuses (events session) = [] /\
  spawned (events session) = [].
Proof.
  intros Hfuel Hf Hp session.
  assert (Ho : page_outcome (fst (urlopen w (listing_request username token 1)))
               = inr (false, [])).
  { rewrite Hf. unfold page_outcome.
    destruct Hp as [-> | [text ->]]; reflexivity. }
  pose proof (first_page_stop fuel username token w [] Hfuel Ho) as Hl.
  split; [now rewrite Hl|].
  unfold session.
  rewrite (process_repos_listing_returns _ _ _ _ _ _ _ _ _ _ Hl).
  rewrite process_listing_nil. unfold value, events. cbn [prepend fst snd].
  autorewrite with trace. cbn [requests app].
  repeat split. destruct output_callback; reflexivity.
Qed.

Lemma empty_listing_is_success_witness :
  value (process_repos (RT := Demo.runtime) 1 "u" "d" None true true
                       Lab.w_empty) = Return true.
Proof.
  destruct (empty_listing_is_success (RT := Demo.runtime) 1 "u" "d" None
              true true Lab.w_empty
              {| payload := inr (JArray []); link_header := None |})
    as (_ & H & _).
  - lia.
  - reflexivity.
  - left. reflexivity.
  - exact H.
Defined.

(** X2.  A body that is no array and is truthy (a JSON object such as an
    error message, a number, a string) fails the listing: iterating it
    raises inside the [try], so [get_user_repos] raises the wrapped
    exception and [process_repos] logs it and returns [False]. *)
Theorem non_array_body_fails_listing {RT : Runtime} (fuel : nat)
  (username base_dir : string) (token : option string)
  (status_callback output_callback : bool) (w : World)
  (response : Response) (text : string) :
  0 < fuel ->
  fst (urlopen w (listing_request username token 1)) = Fetched response ->
  payload response = inr (JNonArray true text) ->
  let session :=
    process_repos fuel username base_dir token status_callback
                  output_callback w in
  value (get_user_repos fuel username token w)
  = Raise (Exception ("发生错误: " ++ text)) /\
  value session = Return false /\
  log_lines (events session)
  = (if output_callback
     then ["正在获取用户 " ++ username ++ " 的仓库列表...";
           "错误: 发生错误: " ++ text]
     else []) /\
  statuses (events session) = [] /\
  spawned (events session) = [].
Proof.
  intros Hfuel Hf Hp session.
  assert (Ho : page_outcome (fst (urlopen w (listing_request username token 1)))
               = inl (TypeError text)).
  { rewrite Hf. unfold page_outcome. now rewrite Hp. }
  pose proof (first_page_raise fuel username token w _ Hfuel Ho) as Hl.
  split; [now rewrite Hl|].
  unfold session.
  rewrite (process_repos_listing_raises _ _ _ _ _ _ _ _ _ _ Hl).
  unfold value, events. cbn [fst snd].
  autorewrite with trace. cbn [spawned statuses log_lines app].
  repeat split. destruct output_callback; reflexivity.
Qed.

Lemma non_array_body_fails_listing_witness :
  value (process_repos (RT := Demo.runtime) 1 "u" "d" None true true
                       Lab.w_object) = Return false.
Proof.
  destruct (non_array_body_fails_listing (RT := Demo.runtime) 1 "u" "d" None
              true true Lab.w_object
              {| payload :=
                   inr (JNonArray true
                          "string indices must be integers, not 'str'");
                 link_header := None |}
              "string indices must be integers, not 'str'")
    as (_ & H & _).
  - lia.
  - reflexivity.
  - reflexivity.
  - exact H.
Defined.

(** X3.  An empty token is no token.  A session with the empty string as
    token runs exactly as one without a token, and in neither does any
    listing request carry a header. *)
Theorem empty_token_is_no_token {RT : Runtime} (fuel : nat)
  (username base_dir : string) (status_callback output_callback : bool)
  (w : World) :
  process_repos fuel username base_dir (Some EmptyString) status_callback
                output_callback w
  = process_repos fuel username base_dir None status_callback
                  output_callback w /\
  Forall (fun req => headers req = [])
    (requests (events (process_repos fuel username base_dir None
                                     status_callback output_callback w))).
Proof.
  split.
  - rewrite !process_repos_run. unfold get_user_repos.
    now rewrite get_user_repos_from_empty_token.
  - destruct (session_requests fuel username base_dir None status_callback
                output_callback w) as [n Hn].
    rewrite Hn. unfold page_requests.
    apply Forall_forall. intros req Hin.
    apply in_map_iff in Hin as (page & <- & _). reflexivity.
Qed.

(** X4.  Only the [Link] header and an empty page end the listing; the
    number of elements of a page plays no part.  After any pages that are
    not empty and carry a next relation, a page without a next relation,
    of whatever size, is the last one requested: the list returned is the
    concatenation up to it and the number of requests is the number of
    these pages. *)
Theorem listing_ends_at_missing_next {RT : Runtime} (fuel : nat)
  (username : string) (token : option string) (w : World)
  (pre : list Page) (last_page : Page) :
  forallb continuing pre = true ->
  forallb well_formed (items last_page) = true ->
  has_next (link last_page) = false ->
  served username token w 1 (map page_response (pre ++ [last_page])) ->
  length pre < fuel ->
  let listing := get_user_repos fuel username token w in
  value listing = Return (listing_refs (pre ++ [last_page])) /\
  requests (events listing)
  = map (listing_request username token) (seq 1 (length pre + 1)) /\
  final_world listing = world_after username token w 1 (length pre + 1).
Proof.
  intros Hc Hw Hn Hs Hlt listing. unfold listing.
  rewrite map_app in Hs. simpl in Hs.
  rewrite (listing_last_stop username token pre (page_response last_page)
             (refs_of (items last_page)) w fuel Hc Hs).
  - unfold value, events, final_world. cbn [fst snd].
    rewrite listing_refs_snoc. autorewrite with trace. auto.
  - apply stopping_outcome; [exact Hw|].
    destruct (items last_page); [reflexivity|]. now rewrite Hn.
  - exact Hlt.
Qed.

Lemma listing_ends_at_missing_next_witness :
  let listing := get_user_repos (RT := Demo.runtime) 2 "u" None
                                Lab.w_short_pages in
  value listing
  = Return [{| name := "r"; clone_url := "https://h/r.git" |};
            {| name := "s"; clone_url := "https://h/s.git" |}] /\
  Demo.network (final_world listing) = [page_response Lab.more_page].
Proof.
  destruct (listing_ends_at_missing_next (RT := Demo.runtime) 2 "u" None
              Lab.w_short_pages [Lab.more_page] Demo.short_page)
    as (Hv & _ & Hw).
  - reflexivity.
  - reflexivity.
  - reflexivity.
  - simpl. repeat split.
  - simpl. lia.
  - split; [exact Hv|]. rewrite Hw. reflexivity.
Defined.

Section EndlessListing.

Context {RT : Runtime}.

Lemma endless_rounds (username : string) (token : option string) :
  endless username token ->
  forall (fuel page : nat) (repos : list RepositoryRef) (w : World),
    value (get_user_repos_from fuel username token page repos w) = Diverge /\
    events (get_user_repos_from fuel username token page repos w)
    = map HttpRequest (page_requests username token page fuel).
Proof.
  intros Hend fuel; induction fuel as [|fuel IH]; intros page repos w.
  - split; reflexivity.
  - rewrite round_run.
    destruct (Hend w page) as (p & Hp & Hf).
    rewrite Hf, (continuing_outcome _ Hp).
    destruct (IH (page + 1) (repos ++ refs_of (items p))%list
                 (snd (urlopen w (listing_request username token page))))
      as [Hv He].
    destruct (get_user_repos_from fuel _ _ _ _ _) as [[r w1] t1].
    unfold value, events in *. cbn [prepend fst snd] in *.
    split; [exact Hv|].
    rewrite He, page_requests_S. reflexivity.
Qed.

End EndlessListing.

(** X5.  The loop has no bound of its own on the number of pages.  Against
    a hosting API whose every answer is a page that is not empty and
    carries a next relation, [get_user_repos] does not return within any
    number of rounds: after [fuel] rounds it has requested the pages 1 to
    [fuel] and is still going, and the session has processed nothing. *)
Theorem endless_listing_never_returns {RT : Runtime} (fuel : nat)
  (username base_dir : string) (token : option string)
  (status_callback output_callback : bool) (w : World) :
  endless username token ->
  let listing := get_user_repos fuel username token w in
  let session :=
    process_repos fuel username base_dir token status_callback
                  output_callback w in
  value listing = Diverge /\
  requests (events listing)
  = map (listing_request username token) (seq 1 fuel) /\
  value session = Diverge /\
  statuses (events session) = [] /\
  spawned (events session) = [].
Proof.
  intros Hend listing session.
  destruct (endless_rounds username token Hend fuel 1 [] w) as [Hv He].
  fold (get_user_repos fuel username token w) in Hv, He.
  fold listing in Hv, He.
  split; [exact Hv|].
  split; [rewrite He; now autorewrite with trace|].
  unfold session. rewrite process_repos_run. fold listing.
  destruct listing as [[r w1] t1].
  unfold value, events in *. cbn [fst snd] in *. subst r t1.
  cbn [fst snd]. autorewrite with trace. auto.
Qed.

Lemma endless_listing_never_returns_witness :
  value (get_user_repos (RT := Lab.endless_runtime) 25 "u" None Lab.w_nothing)
  = Diverge.
Proof.
  destruct (endless_listing_never_returns (RT := Lab.endless_runtime) 25
              "u" "d" None true true Lab.w_nothing)
    as (H & _).
  - intros w page. exists Lab.more_page. split; reflexivity.
  - exact H.
Defined.

(** ** The callbacks only observe *)

Lemma visible_app (scb ocb : bool) (t1 t2 : list event) :
  visible scb ocb (t1 ++ t2) = (visible scb ocb t1 ++ visible scb ocb t2)%list.
Proof.
  induction t1 as [|ev t1 IH]; simpl; [reflexivity|].
  destruct ev; simpl; rewrite IH; try reflexivity.
  - now destruct scb.
  - now destruct ocb.
Qed.

Lemma visible_status_event (scb ocb : bool) (n : string) (s : RepoStatus) :
  visible scb ocb (status_event true n s) = status_event scb n s.
Proof. destruct scb; reflexivity. Qed.

Lemma visible_output_event (scb ocb : bool) (line : string) :
  visible scb ocb (output_event true line) = output_event ocb line.
Proof. destruct ocb; reflexivity. Qed.

Lemma visible_output_events (scb ocb : bool) (lines : list string) :
  visible scb ocb (output_events true lines) = output_events ocb lines.
Proof.
  unfold output_events.
  induction lines as [|line lines IH]; simpl; [now destruct ocb|].
  rewrite IH. now destruct ocb.
Qed.

Lemma visible_requests (scb ocb : bool) (l : list Request) :
  visible scb ocb (map HttpRequest l) = map HttpRequest l.
Proof. induction l; simpl; [reflexivity|]. now rewrite IHl. Qed.

Section Observers.

Context {RT : Runtime}.

Lemma visible_launch_events (scb ocb : bool) (cmd : list string)
  (cwd : option string) (s : spawn) :
  visible scb ocb (launch_events cmd cwd true s) = launch_events cmd cwd ocb s.
Proof.
  unfold launch_events. simpl. f_equal.
  destruct s; [reflexivity|]. apply visible_output_events.
Qed.

Lemma run_eta {A : Type} (x : result A * World * list event) :
  x = (value x, final_world x, events x).
Proof. now destruct x as [[r w] t]. Qed.

Lemma clone_or_pull_visible (repo : RepositoryRef) (base : string)
  (scb ocb : bool) (w : World) :
  clone_or_pull repo base scb ocb w
  = (value (clone_or_pull repo base true true w),
     final_world (clone_or_pull repo base true true w),
     visible scb ocb (events (clone_or_pull repo base true true w))).
Proof.
  destruct (route w base repo) eqn:Hr.
  - rewrite (clone_or_pull_clone repo base scb ocb w Hr).
    rewrite (clone_or_pull_clone repo base true true w Hr).
    unfold value, final_world, events. cbn [fst snd].
    rewrite !visible_app, !visible_status_event, visible_output_event,
      visible_launch_events. reflexivity.
  - rewrite (clone_or_pull_pull repo base scb ocb w Hr).
    rewrite (clone_or_pull_pull repo base true true w Hr).
    unfold value, final_world, events. cbn [fst snd].
    rewrite !visible_app, !visible_status_event, visible_output_event,
      visible_launch_events. reflexivity.
  - rewrite (clone_or_pull_skip repo base scb ocb w Hr).
    rewrite (clone_or_pull_skip repo base true true w Hr).
    unfold value, final_world, events. cbn [fst snd].
    rewrite !visible_app, !visible_status_event, visible_output_event.
    reflexivity.
Qed.

Lemma process_loop_visible (repos : list RepositoryRef) (base : string)
  (scb ocb : bool) (s f : nat) (w : World) :
  process_loop repos base scb ocb s f w
  = (value (process_loop repos base true true s f w),
     final_world (process_loop repos base true true s f w),
     visible scb ocb (events (process_loop repos base true true s f w))).
Proof.
  revert s f w; induction repos as [|repo rest IH]; intros s f w.
  - reflexivity.
  - simpl. unfold bind.
    rewrite (clone_or_pull_visible repo base scb ocb w).
    destruct (clone_or_pull repo base true true w) as [[[ok|e|] w1] t1];
      unfold value, final_world, events; cbn [fst snd]; try reflexivity.
    destruct ok.
    + rewrite (IH (s + 1) f w1).
      destruct (process_loop rest base true true (s + 1) f w1) as [[r w2] t2].
      unfold value, final_world, events. cbn [prepend fst snd].
      now rewrite visible_app.
    + rewrite (IH s (f + 1) w1).
      destruct (process_loop rest base true true s (f + 1) w1) as [[r w2] t2].
      unfold value, final_world, events. cbn [prepend fst snd].
      now rewrite visible_app.
Qed.

Lemma process_listing_cons (repo : RepositoryRef)
  (rest : list RepositoryRef) (base : string) (scb ocb : bool) (w : World) :
  process_listing (repo :: rest) base scb ocb w
  = match process_loop (repo :: rest) base scb ocb 0 0 w with
    | (Return counts, w1, t1) =>
        (Return (snd counts =? 0)%nat, w1,
         output_event ocb (count_line (length (repo :: rest))) ++ t1
         ++ output_event ocb (summary_line (fst counts) (snd counts)))%list
    | (Raise e, w1, t1) =>
        (Raise e, w1,
         output_event ocb (count_line (length (repo :: rest))) ++ t1)%list
    | (Diverge, w1, t1) =>
        (Diverge, w1,
         output_event ocb (count_line (length (repo :: rest))) ++ t1)%list
    end.
Proof.
  unfold process_listing.
  rewrite (bind_return _ _ _ _ _ _ (call_output_run _ _ _)).
  unfold bind at 1.
  destruct (process_loop (repo :: rest) base scb ocb 0 0 w)
    as [[[counts|e|] w1] t1]; try reflexivity.
  rewrite (bind_return _ _ _ _ _ _ (call_output_run _ _ _)).
  unfold ret. cbn [prepend]. now rewrite app_nil_r.
Qed.

Lemma process_listing_visible (repos : list RepositoryRef) (base : string)
  (scb ocb : bool) (w : World) :
  process_listing repos base scb ocb w
  = (value (process_listing repos base true true w),
     final_world (process_listing repos base true true w),
     visible scb ocb (events (process_listing repos base true true w))).
Proof.
  destruct repos as [|repo rest].
  - rewrite !process_listing_nil.
    unfold value, final_world, events. cbn [fst snd].
    now rewrite visible_output_event.
  - rewrite !process_listing_cons.
    rewrite (process_loop_visible (repo :: rest) base scb ocb 0 0 w).
    destruct (process_loop (repo :: rest) base true true 0 0 w)
      as [[[counts|e|] w1] t1];
      unfold value, final_world, events; cbn [fst snd];
      rewrite ?visible_app, ?visible_output_event; reflexivity.
Qed.

End Observers.

(** X7.  The callbacks only observe.  Whether a status callback and an
    output callback are supplied changes neither what a session returns
    nor what it does to the world: a session run with fewer callbacks
    emits the events of the session run with both, without the status
    events when there is no status callback and without the log lines
    when there is no output callback. *)
Theorem callbacks_only_observe {RT : Runtime} (fuel : nat)
  (username base_dir : string) (token : option string)
  (status_callback output_callback : bool) (w : World) :
  let observed := process_repos fuel username base_dir token true true w in
  process_repos fuel username base_dir token status_callback
                output_callback w
  = (value observed, final_world observed,
     visible status_callback output_callback (events observed)).
Proof.
  intros observed. unfold observed. rewrite !process_repos_run.
  destruct (get_user_repos_from_events fuel username token 1 [] w) as [n Hn].
  fold (get_user_repos fuel username token w) in Hn.
  destruct (get_user_repos fuel username token w) as [[[repos|e|] w1] t1];
    unfold events in Hn; cbn [snd] in Hn; subst t1.
  - rewrite (process_listing_visible repos base_dir status_callback
               output_callback w1).
    destruct (process_listing repos base_dir true true w1) as [[r w2] t2].
    unfold value, final_world, events. cbn [prepend fst snd].
    rewrite !visible_app, visible_output_event, visible_requests.
    reflexivity.
  - unfold value, final_world, events. cbn [fst snd].
    rewrite !visible_app, !visible_output_event, visible_requests.
    reflexivity.
  - unfold value, final_world, events. cbn [fst snd].
    rewrite !visible_app, !visible_output_event, visible_requests.
    reflexivity.
Qed.

(** X8.  The log of one repository.  With an output callback alone, a
    clone emits its action line, then launches [git clone], then forwards
    the lines of the subprocess; a pull does the same with its action
    line and [git pull]; a skip emits its one line.  The text the runner
    returns is dropped: when the subprocess cannot be launched, or reading
    it fails, no log line carries the description of the error. *)
Theorem action_line_then_launch {RT : Runtime} (repo_info : RepositoryRef)
  (base_dir : string) (w : World) :
  let local_path := local_path_of base_dir (name repo_info) in
  let forwarded cmd cwd :=
    match fst (Popen w cmd cwd creation_flags) with
    | SpawnRaises _ => []
    | Spawned p => map OnOutput (map rstrip (stdout p))
    end in
  events (clone_or_pull repo_info base_dir false true w)
  = match route w base_dir repo_info with
    | RouteClone =>
        let cmd := ["git"; "clone"; clone_url repo_info; local_path] in
        OnOutput ("克隆 " ++ clone_url repo_info ++ " 到 " ++ local_path)
        :: Spawn cmd None creation_flags :: forwarded cmd None
    | RoutePull =>
        let cmd := ["git"; "pull"] in
        OnOutput ("拉取 " ++ local_path)
        :: Spawn cmd (Some local_path) creation_flags
        :: forwarded cmd (Some local_path)
    | RouteSkip =>
        [OnOutput ("跳过: " ++ local_path ++ " 不是一个 Git 仓库")]
    end.
Proof.
  intros local_path forwarded.
  destruct (route w base_dir repo_info) eqn:Hr.
  - rewrite (clone_or_pull_clone _ _ _ _ _ Hr).
    unfold events, launch_events, forwarded, status_event, output_event,
      output_events. cbn [snd app]. fold local_path.
    destruct (fst (Popen _ _ _ _)); now rewrite app_nil_r.
  - rewrite (clone_or_pull_pull _ _ _ _ _ Hr).
    unfold events, launch_events, forwarded, status_event, output_event,
      output_events. cbn [snd app]. fold local_path.
    destruct (fst (Popen _ _ _ _)); now rewrite app_nil_r.
  - rewrite (clone_or_pull_skip _ _ _ _ _ Hr). reflexivity.
Qed.

(** X9.  The listing is complete before the first repository is touched.
    The events of a session are its announcement, then all its listing
    requests, then the rest; in the rest there is no listing request, and
    unless the listing returned there is no status and no launch in it. *)
Theorem listing_precedes_processing {RT : Runtime} (fuel : nat)
  (username base_dir : string) (token : option string)
  (status_callback output_callback : bool) (w : World) :
  exists (n : nat) (rest : list event),
    events (process_repos fuel username base_dir token status_callback
                          output_callback w)
    = (output_event output_callback (listing_line username)
       ++ map HttpRequest (map (listing_request username token) (seq 1 n))
       ++ rest)%list /\
    requests rest = [] /\
    match value (get_user_repos fuel username token w) with
    | Return _ => True
    | _ => statuses rest = [] /\ spawned rest = []
    end.
Proof.
  rewrite process_repos_run.
  destruct (get_user_repos_from_events fuel username token 1 [] w) as [n Hn].
  fold (get_user_repos fuel username token w) in Hn.
  unfold page_requests in Hn. exists n.
  destruct (get_user_repos fuel username token w) as [[[repos|e|] w1] t1];
    unfold events in Hn; cbn [snd] in Hn; subst t1.
  - pose proof (process_listing_requests repos base_dir status_callback
                  output_callback w1) as Hp.
    destruct (process_listing repos base_dir status_callback
                output_callback w1) as [[r w2] t2].
    exists t2. unfold events in *. cbn [prepend snd value fst] in *.
    rewrite <- app_assoc. auto.
  - exists (output_event output_callback (error_line e)).
    unfold events, value. cbn [snd fst].
    autorewrite with trace. auto.
  - exists []. unfold events, value. cbn [snd fst].
    rewrite app_nil_r. auto.
Qed.

(** ** Launches *)

Lemma count_status_app (s : RepoStatus) (t1 t2 : list event) :
  count_status s (t1 ++ t2) = count_status s t1 + count_status s t2.
Proof.
  unfold count_status. now rewrite statuses_app, filter_app, length_app.
Qed.

Section Launches.

Context {RT : Runtime}.

Lemma clone_or_pull_launches (repo : RepositoryRef) (base : string)
  (ocb : bool) (w : World) :
  let t := events (clone_or_pull repo base true ocb w) in
  length (spawned t) + count_status Skipped t = 1 /\
  exists ok, value (clone_or_pull repo base true ocb w) = Return ok.
Proof.
  intros t. subst t.
  destruct (route w base repo) eqn:Hr.
  - rewrite (clone_or_pull_clone _ _ _ _ _ Hr).
    unfold events, value, count_status, launch_events. cbn [fst snd].
    autorewrite with trace. cbn [spawned statuses].
    split; [|eauto].
    destruct (fst (Popen _ _ _ _)) as [e|p]; autorewrite with trace;
      cbn [launch_result fst]; [reflexivity|].
    now destruct (fst (runner_result p)).
  - rewrite (clone_or_pull_pull _ _ _ _ _ Hr).
    unfold events, value, count_status, launch_events. cbn [fst snd].
    autorewrite with trace. cbn [spawned statuses].
    split; [|eauto].
    destruct (fst (Popen _ _ _ _)) as [e|p]; autorewrite with trace;
      cbn [launch_result fst]; [reflexivity|].
    now destruct (fst (runner_result p)).
  - rewrite (clone_or_pull_skip _ _ _ _ _ Hr).
    unfold events, value, count_status. cbn [fst snd].
    autorewrite with trace. split; [reflexivity|eauto].
Qed.

Lemma process_loop_launches (repos : list RepositoryRef) (base : string)
  (ocb : bool) (s f : nat) (w : World) :
  let t := events (process_loop repos base true ocb s f w) in
  length (spawned t) + count_status Skipped t = length repos.
Proof.
  revert s f w; induction repos as [|repo rest IH]; intros s f w.
  - reflexivity.
  - cbn zeta. simpl process_loop. unfold bind.
    destruct (clone_or_pull_launches repo base ocb w) as [H1 [ok Hok]].
    cbn zeta in H1.
    destruct (clone_or_pull repo base true ocb w) as [[r w1] t1].
    unfold value, events in H1, Hok. cbn [fst snd] in H1, Hok. subst r.
    destruct ok.
    + specialize (IH (s + 1) f w1). cbn zeta in IH.
      destruct (process_loop rest base true ocb (s + 1) f w1) as [[r w2] t2].
      unfold events in *. cbn [prepend snd] in *.
      rewrite spawned_app, length_app, count_status_app. simpl length. lia.
    + specialize (IH s (f + 1) w1). cbn zeta in IH.
      destruct (process_loop rest base true ocb s (f + 1) w1) as [[r w2] t2].
      unfold events in *. cbn [prepend snd] in *.
      rewrite spawned_app, length_app, count_status_app. simpl length. lia.
Qed.

End Launches.

(** X10.  One subprocess per repository that is not skipped.  In a
    session whose listing returned, the number of subprocesses launched
    plus the number of repositories reported Skipped is the number of
    repositories: a clone or a pull is tried once and never retried, and
    a failure does not keep the following repositories from their turn. *)
Theorem one_launch_per_unskipped_repository {RT : Runtime} (fuel : nat)
  (username base_dir : string) (token : option string)
  (output_callback : bool) (w w1 : World) (repos : list RepositoryRef)
  (t1 : list event) :
  get_user_repos fuel username token w = (Return repos, w1, t1) ->
  let session :=
    process_repos fuel username base_dir token true output_callback w in
  length (spawned (events session)) + count_status Skipped (events session)
  = length repos.
Proof.
  intros Hlist session. unfold session.
  rewrite (process_repos_listing_returns _ _ _ _ _ _ _ _ _ _ Hlist).
  destruct (get_user_repos_from_events fuel username token 1 [] w) as [n Hn].
  unfold get_user_repos in Hlist. rewrite Hlist in Hn.
  unfold events in Hn. cbn [snd] in Hn. subst t1.
  destruct repos as [|repo rest].
  - rewrite process_listing_nil. unfold events, count_status. cbn [prepend snd].
    autorewrite with trace. reflexivity.
  - rewrite process_listing_cons.
    pose proof (process_loop_launches (repo :: rest) base_dir output_callback
                  0 0 w1) as Hl.
    cbn zeta in Hl.
    destruct (process_loop (repo :: rest) base_dir true output_callback 0 0 w1)
      as [[[counts|e|] w2] t2];
      unfold events in *; cbn [prepend snd] in *;
      rewrite !spawned_app, !length_app, !count_status_app;
      unfold count_status; autorewrite with trace; cbn [length filter];
      fold (count_status Skipped t2); cbn [length] in Hl; lia.
Qed.

Lemma one_launch_per_unskipped_repository_witness :
  let session :=
    process_repos (RT := Demo.runtime) 1 "u" "d" None true true Lab.w_mixed in
  length (spawned (events session)) + count_status Skipped (events session)
  = 3.
Proof.
  pose (listing := get_user_repos (RT := Demo.runtime) 1 "u" None Lab.w_mixed).
  apply (one_launch_per_unskipped_repository (RT := Demo.runtime) 1 "u" "d"
           None true Lab.w_mixed (final_world listing)
           (refs_of (items Demo.three)) (events listing)).
  reflexivity.
Defined.

(** ** Substrings *)

Lemma prefix_iff (a b : string) :
  String.prefix a b = true <-> exists post, b = a ++ post.
Proof.
  revert b; induction a as [|c a IH]; intros b.
  - split; [intros _; now exists b|]. intros _. now destruct b.
  - destruct b as [|d b]; simpl.
    + split; [discriminate|]. intros [post H]. discriminate H.
    + destruct (ascii_dec c d) as [->|Hne].
      * rewrite IH. split; intros [post H]; exists post.
        -- now rewrite H.
        -- now injection H.
      * split; [discriminate|]. intros [post H]. injection H as H1 H2.
        now elim Hne.
Qed.

Lemma str_in_iff (needle hay : string) :
  Py.str_in needle hay = true <->
  exists pre post, hay = pre ++ needle ++ post.
Proof.
  induction hay as [|c hay IH].
  - change (Py.str_in needle EmptyString)
      with (String.prefix needle EmptyString || false).
    rewrite orb_false_r, prefix_iff. split.
    + intros [post H]. exists EmptyString, post. exact H.
    + intros [pre [post H]]. destruct pre; [|discriminate H].
      now exists post.
  - change (Py.str_in needle (String c hay))
      with (String.prefix needle (String c hay) || Py.str_in needle hay).
    rewrite orb_true_iff, prefix_iff, IH. split.
    + intros [[post H]|[pre [post H]]].
      * exists EmptyString, post. exact H.
      * exists (String c pre), post. simpl. now rewrite H.
    + intros [pre [post H]]. destruct pre as [|d pre].
      * left. now exists post.
      * right. injection H as _ H. now exists pre, post.
Qed.

(** X11.  The rate-limit indicator is read from the reason phrase.  A
    listing request answered with status 403 makes [get_user_repos] raise
    the rate-limit exception exactly when the reason phrase of the answer
    contains the words "rate limit" in this spelling; the text "HTTP
    Error 403: " that precedes the phrase in [str(e)] never matches. *)
Theorem rate_limit_read_from_reason {RT : Runtime} (fuel : nat)
  (username : string) (token : option string) (w : World)
  (reason : string) :
  0 < fuel ->
  fst (urlopen w (listing_request username token 1))
  = FetchRaises (HTTPError 403 reason) ->
  (value (get_user_repos fuel username token w) = Raise RateLimited <->
   exists pre post, reason = pre ++ "rate limit" ++ post) /\
  (value (get_user_repos fuel username token w) = Raise RateLimited \/
   value (get_user_repos fuel username token w)
   = Raise (Exception ("API 请求失败: HTTP Error 403: " ++ reason))).
Proof.
  intros Hfuel Hf.
  assert (Ho : page_outcome (fst (urlopen w (listing_request username token 1)))
               = inl (HTTPError 403 reason)) by now rewrite Hf.
  rewrite (first_page_raise fuel username token w _ Hfuel Ho).
  unfold value. cbn [fst]. rewrite <- str_in_iff.
  unfold listing_error.
  change (403 =? 404)%Z with false. change (403 =? 403)%Z with true.
  cbn [andb].
  assert (Hin : Py.str_in "rate limit" (str (HTTPError 403 reason))
                = Py.str_in "rate limit" reason) by reflexivity.
  rewrite Hin.
  destruct (Py.str_in "rate limit" reason).
  - split; [tauto|]. now left.
  - split; [|now right].
    split; [|discriminate].
    intros H. injection H as H. discriminate H.
Qed.

Lemma rate_limit_read_from_reason_witness :
  value (get_user_repos (RT := Demo.runtime) 1 "u" None Lab.w_limited)
  = Raise RateLimited.
Proof.
  destruct (rate_limit_read_from_reason (RT := Demo.runtime) 1 "u" None
              Lab.w_limited "API rate limit exceeded") as ([_ H] & _).
  - lia.
  - reflexivity.
  - apply H. exists "API ", " exceeded". reflexivity.
Defined.

(** * Properties of the command line *)

(** ** Colours *)

Lemma all_digits_uint (u : Decimal.uint) :
  all_digits (NilEmpty.string_of_uint u) = true.
Proof.
  induction u; cbn [NilEmpty.string_of_uint all_digits];
    try rewrite IHu; reflexivity.
Qed.

Lemma all_digits_str_of_nat (n : nat) : all_digits (Py.str_of_nat n) = true.
Proof. apply all_digits_uint. Qed.

(** A needle that starts with no digit is not found across digits. *)
Lemma str_in_digits_app (needle digits rest : string) :
  starts_off_digits needle = true ->
  all_digits digits = true ->
  Py.str_in needle (digits ++ rest) = Py.str_in needle rest.
Proof.
  destruct needle as [|a needle]; [discriminate|].
  cbn [starts_off_digits]. intros Ha.
  apply negb_true_iff in Ha.
  induction digits as [|c digits IH]; intros Hd.
  - reflexivity.
  - cbn [all_digits] in Hd. apply andb_prop in Hd as [Hc Hd].
    change (Py.str_in (String a needle) (String c digits ++ rest))
      with (String.prefix (String a needle) (String c (digits ++ rest))
            || Py.str_in (String a needle) (digits ++ rest)).
    rewrite (IH Hd). simpl String.prefix.
    destruct (ascii_dec a c) as [->|Hne]; [|reflexivity].
    rewrite Hc in Ha. discriminate Ha.
Qed.

Lemma colored_output_plain (msg : string) : colored_output false msg = msg.
Proof.
  unfold colored_output, color_text.
  repeat match goal with |- context [if ?b then _ else _] => destruct b end;
    reflexivity.
Qed.

Lemma printed_shown (use_color : bool) (t : list event) :
  printed (shown use_color t) = map (colored_output use_color) (log_lines t).
Proof.
  induction t as [|ev t IH]; simpl; [reflexivity|].
  destruct ev; simpl; now rewrite IH.
Qed.

Lemma printed_app (t1 t2 : list cli_event) :
  printed (t1 ++ t2) = (printed t1 ++ printed t2)%list.
Proof.
  induction t1 as [|ev t1 IH]; simpl; [reflexivity|].
  destruct ev; simpl; now rewrite IH.
Qed.

Lemma touches_nothing_shown_requests (use_color : bool) (t : list event) :
  touches_nothing (shown use_color t) = true ->
  requests t = [] /\ spawned t = [].
Proof.
  induction t as [|ev t IH]; simpl; [auto|].
  destruct ev; simpl; try discriminate; exact IH.
Qed.

(** X12.  The summary of a session is printed green whatever it says: the
    line of [process_repos] with the two counts contains the word for
    "done" and neither of the two words looked for first, so
    [colored_output] wraps it in the green code also when the failure
    count is not zero. *)
Theorem summary_is_printed_green (use_color : bool)
  (success_count fail_count : nat) :
  colored_output use_color (summary_line success_count fail_count)
  = color_text (summary_line success_count fail_count) Colors.OKGREEN
               use_color.
Proof.
  unfold colored_output, summary_line.
  assert (Hno : forall needle,
            starts_off_digits needle = true ->
            (forall x, Py.str_in needle (Py.newline ++ "处理完成: " ++ x)
                       = Py.str_in needle x) ->
            (forall x, Py.str_in needle (" 成功, " ++ x)
                       = Py.str_in needle x) ->
            Py.str_in needle " 失败" = false ->
            Py.str_in needle
              (Py.newline ++ "处理完成: " ++ Py.str_of_nat success_count
               ++ " 成功, " ++ Py.str_of_nat fail_count ++ " 失败") = false).
  { intros needle Ha H1 H2 H3.
    rewrite H1, (str_in_digits_app _ _ _ Ha (all_digits_str_of_nat _)).
    rewrite H2, (str_in_digits_app _ _ _ Ha (all_digits_str_of_nat _)).
    exact H3. }
  rewrite (Hno "克隆" eq_refl (fun x => eq_refl) (fun x => eq_refl) eq_refl).
  rewrite (Hno "拉取" eq_refl (fun x => eq_refl) (fun x => eq_refl) eq_refl).
  cbn [orb].
  assert (Hdone : forall x,
            Py.str_in "完成" (Py.newline ++ "处理完成: " ++ x) = true)
    by (intros x; reflexivity).
  rewrite Hdone, orb_true_r. reflexivity.
Qed.

(** X13.  The lines that announce work are printed blue whatever the
    address and the path in them say, and the line with the number of
    repositories is printed without colour whatever the number. *)
Theorem action_lines_are_printed_blue (use_color : bool)
  (repo_url local_path : string) (n : nat) :
  colored_output use_color ("克隆 " ++ repo_url ++ " 到 " ++ local_path)
  = color_text ("克隆 " ++ repo_url ++ " 到 " ++ local_path) Colors.OKBLUE
               use_color /\
  colored_output use_color ("拉取 " ++ local_path)
  = color_text ("拉取 " ++ local_path) Colors.OKBLUE use_color /\
  colored_output use_color (count_line n) = count_line n.
Proof.
  unfold colored_output. split; [|split].
  - assert (H : forall x, Py.str_in "克隆" ("克隆 " ++ x) = true)
      by (intros x; reflexivity).
    now rewrite H.
  - assert (H : forall x, Py.str_in "拉取" ("拉取 " ++ x) = true)
      by (intros x; reflexivity).
    now rewrite H, orb_true_r.
  - unfold count_line.
    assert (Hno : forall needle,
              starts_off_digits needle = true ->
              (forall x, Py.str_in needle ("共找到 " ++ x)
                         = Py.str_in needle x) ->
              Py.str_in needle " 个仓库，开始处理..." = false ->
              Py.str_in needle
                ("共找到 " ++ Py.str_of_nat n ++ " 个仓库，开始处理...")
              = false).
    { intros needle Ha H1 H2.
      rewrite H1, (str_in_digits_app _ _ _ Ha (all_digits_str_of_nat _)).
      exact H2. }
    rewrite (Hno "克隆" eq_refl (fun x => eq_refl) eq_refl).
    rewrite (Hno "拉取" eq_refl (fun x => eq_refl) eq_refl).
    rewrite (Hno "成功" eq_refl (fun x => eq_refl) eq_refl).
    rewrite (Hno "完成" eq_refl (fun x => eq_refl) eq_refl).
    rewrite (Hno "失败" eq_refl (fun x => eq_refl) eq_refl).
    rewrite (Hno "错误" eq_refl (fun x => eq_refl) eq_refl).
    rewrite (Hno "跳过" eq_refl (fun x => eq_refl) eq_refl).
    reflexivity.
Qed.

(** ** The script *)

Lemma console_mode_not_shown (use_color : bool) (t : list event) :
  ~ In ConsoleMode (shown use_color t).
Proof.
  induction t as [|ev t IH]; simpl; [tauto|].
  destruct ev; simpl; try exact IH;
    intros [H|H]; try discriminate H; now apply IH.
Qed.

Section Script.

Context {C : Console}.

#[local] Existing Instance console_runtime.

Lemma main_cli_in_place (fuel : nat) (args : Args) (w : World) :
  let base_dir := os_path_abspath (arg_dir args) in
  let session :=
    process_repos fuel (arg_username args) base_dir (arg_token args)
                  false true w in
  os_path_exists w base_dir = true ->
  main_cli fuel args w
  = (exit_after (value session), final_world session,
     snd (choose_color args)
     ++ shown (fst (choose_color args)) (events session))%list.
Proof.
  intros base_dir session He. unfold main_cli.
  destruct (choose_color args) as [use_color t0].
  fold base_dir. rewrite He. cbn [negb]. fold session.
  now destruct session as [[r w2] t2].
Qed.

End Script.

(** X14.  The command line gives up before doing anything when its
    directory cannot be made.  When the target directory does not exist
    and [os.makedirs] raises [OSError], [main_cli] ends through
    [sys.exit] with a message that names the directory and the error;
    it has printed nothing, asked the hosting API nothing and launched
    nothing. *)
Theorem cli_stops_when_directory_cannot_be_made {C : Console} (fuel : nat)
  (args : Args) (w w1 : @World console_runtime) (text : string) :
  let base_dir := os_path_abspath (arg_dir args) in
  @os_path_exists console_runtime w base_dir = false ->
  os_makedirs w base_dir = (Some text, w1) ->
  exists t : list cli_event,
    main_cli fuel args w
    = (SystemExit ("无法创建目录 " ++ base_dir ++ ": " ++ text), w1, t) /\
    printed t = [] /\
    touches_nothing t = true.
Proof.
  intros base_dir He Hm. unfold main_cli.
  fold base_dir. rewrite He, Hm. cbn [negb].
  unfold choose_color, supports_color.
  destruct (arg_color args); [eexists; repeat split|].
  destruct (negb stdout_isatty); [eexists; repeat split|].
  destruct (String.eqb os_name "nt"); eexists; repeat split.
Qed.

Lemma cli_stops_when_directory_cannot_be_made_witness :
  fst (fst (main_cli (C := Desk.console) 1 Desk.args_locked Desk.w_home))
  = SystemExit
      "无法创建目录 /home/locked: [Errno 13] Permission denied: '/home/locked'".
Proof.
  destruct (cli_stops_when_directory_cannot_be_made (C := Desk.console) 1
              Desk.args_locked Desk.w_home Desk.w_home
              "[Errno 13] Permission denied: '/home/locked'")
    as (t & H & _).
  - reflexivity.
  - reflexivity.
  - rewrite H. reflexivity.
Defined.

(** X15.  The command line does not pass on the result of the session.
    With the target directory in place, when [process_repos] returns,
    [main_cli] runs to its end in the same way whether the value is
    [True] or [False]; what it prints are the log lines of the session,
    each through [colored_output], in order. *)
Theorem cli_discards_session_result {C : Console} (fuel : nat)
  (args : Args) (w : @World console_runtime) (ok : bool) :
  let base_dir := os_path_abspath (arg_dir args) in
  let session :=
    process_repos (RT := console_runtime) fuel (arg_username args) base_dir
                  (arg_token args) false true w in
  @os_path_exists console_runtime w base_dir = true ->
  value session = Return ok ->
  exists (use_color : bool) (t : list cli_event),
    main_cli fuel args w = (Completed, final_world session, t) /\
    printed t = map (colored_output use_color) (log_lines (events session)).
Proof.
  intros base_dir session He Hv.
  rewrite (main_cli_in_place fuel args w He).
  fold base_dir. fold session. rewrite Hv. cbn [exit_after].
  exists (fst (choose_color args)). eexists. split; [reflexivity|].
  rewrite printed_app, printed_shown.
  unfold choose_color, supports_color.
  destruct (arg_color args); [reflexivity|].
  destruct (negb stdout_isatty); [reflexivity|].
  destruct (String.eqb os_name "nt"); reflexivity.
Qed.

Lemma cli_discards_session_result_witness :
  value (process_repos (RT := Demo.runtime) 1 "u" "/home/d" None false true
                       Desk.w_home) = Return false /\
  fst (fst (main_cli (C := Desk.console) 1 Desk.args_d Desk.w_home))
  = Completed.
Proof.
  destruct (cli_discards_session_result (C := Desk.console) 1 Desk.args_d
              Desk.w_home false) as (use_color & t & H & _).
  - reflexivity.
  - reflexivity.
  - split; [reflexivity|]. rewrite H. reflexivity.
Defined.

(** X16.  With [--color] the terminal is not asked.  When the flag is
    given, [supports_color] is not called: the console mode is never
    touched, and with the target directory in place every log line of the
    session is printed through [colored_output] with colours on, whatever
    the terminal is. *)
Theorem color_flag_skips_the_probe {C : Console} (fuel : nat) (args : Args)
  (w : @World console_runtime) :
  let base_dir := os_path_abspath (arg_dir args) in
  let session :=
    process_repos (RT := console_runtime) fuel (arg_username args) base_dir
                  (arg_token args) false true w in
  arg_color args = true ->
  ~ In ConsoleMode (snd (main_cli fuel args w)) /\
  (@os_path_exists console_runtime w base_dir = true ->
   printed (snd (main_cli fuel args w))
   = map (colored_output true) (log_lines (events session))).
Proof.
  intros base_dir session Hc. split.
  - unfold main_cli, choose_color. rewrite Hc. cbv zeta iota beta.
    fold base_dir.
    destruct (negb (os_path_exists w base_dir)).
    + destruct (os_makedirs w base_dir) as [[text|] w1].
      * simpl. intros [H|[]]. discriminate H.
      * destruct (process_repos _ _ _ _ _ _ w1) as [[r w2] t2].
        cbn [snd app In].
        intros [H|[H|H]]; try discriminate H.
        now apply console_mode_not_shown in H.
    + destruct (process_repos _ _ _ _ _ _ _) as [[r w2] t2]. cbn [snd app].
      apply console_mode_not_shown.
  - intros He. rewrite (main_cli_in_place fuel args w He).
    fold base_dir. fold session. unfold choose_color. rewrite Hc.
    cbn [fst snd app]. apply printed_shown.
Qed.

Lemma color_flag_skips_the_probe_witness :
  ~ In ConsoleMode (snd (main_cli (C := Desk.console) 1 Desk.args_color
                                  Desk.w_home)).
Proof.
  destruct (color_flag_skips_the_probe (C := Desk.console) 1 Desk.args_color
              Desk.w_home) as (H & _).
  - reflexivity.
  - exact H.
Defined.

(** X17.  Piped output is the plain log.  Without [--color] and with
    standard output not a terminal, and the target directory in place,
    [main_cli] prints exactly the log lines of the session, unchanged and
    in order, and does not touch the console mode. *)
Theorem piped_output_is_the_plain_log {C : Console} (fuel : nat)
  (args : Args) (w : @World console_runtime) :
  let base_dir := os_path_abspath (arg_dir args) in
  let session :=
    process_repos (RT := console_runtime) fuel (arg_username args) base_dir
                  (arg_token args) false true w in
  arg_color args = false ->
  stdout_isatty = false ->
  @os_path_exists console_runtime w base_dir = true ->
  printed (snd (main_cli fuel args w)) = log_lines (events session) /\
  ~ In ConsoleMode (snd (main_cli fuel args w)).
Proof.
  intros base_dir session Hc Htty He.
  rewrite (main_cli_in_place fuel args w He).
  fold base_dir. fold session.
  unfold choose_color, supports_color. rewrite Hc, Htty.
  cbn [negb fst snd app]. split.
  - rewrite printed_shown.
    induction (log_lines (events session)) as [|line l IH];
      [reflexivity|].
    simpl. now rewrite colored_output_plain, IH.
  - apply console_mode_not_shown.
Qed.

Lemma piped_output_is_the_plain_log_witness :
  printed (snd (main_cli (C := Desk.piped) 1 Desk.args_d Desk.w_home))
  = log_lines (events (process_repos (RT := Demo.runtime) 1 "u" "/home/d"
                                     None false true Desk.w_home)).
Proof.
  destruct (piped_output_is_the_plain_log (C := Desk.piped) 1 Desk.args_d
              Desk.w_home) as (H & _).
  - reflexivity.
  - reflexivity.
  - reflexivity.
  - exact H.
Defined.

(** * Properties of the window *)

(** ** The status table *)

Lemma items_get_none (n : string) (rs : list Row) :
  ~ In n (map row_text rs) ->
  items_get n (map (fun r => (row_text r, row_iid r)) rs) = None.
Proof.
  induction rs as [|r rs IH]; simpl; [reflexivity|].
  intros H. destruct (String.eqb_spec (row_text r) n) as [He|Hne].
  - exfalso. apply H. now left.
  - apply IH. intros Hin. apply H. now right.
Qed.

Lemma items_get_split (a b : list Row) (r : Row) :
  ~ In (row_text r) (map row_text a) ->
  items_get (row_text r)
            (map (fun r => (row_text r, row_iid r)) (a ++ r :: b))
  = Some (row_iid r).
Proof.
  induction a as [|x a IH]; simpl; intros H.
  - now rewrite String.eqb_refl.
  - destruct (String.eqb_spec (row_text x) (row_text r)) as [He|Hne].
    + exfalso. apply H. now left.
    + apply IH. intros Hin. apply H. now right.
Qed.

Lemma rows_item_split (i : nat) (f : Row -> Row) (a b : list Row) (r : Row) :
  Forall (fun x => row_iid x <> i) a ->
  row_iid r = i ->
  rows_item i f (a ++ r :: b) = Some (a ++ f r :: b)%list.
Proof.
  intros Ha Hr. induction Ha as [|x a Hx _ IH]; simpl.
  - apply Nat.eqb_eq in Hr. now rewrite Hr.
  - apply Nat.eqb_neq in Hx. now rewrite Hx, IH.
Qed.

Lemma rows_item_last (i : nat) (f : Row -> Row) (a : list Row) (r : Row) :
  Forall (fun x => row_iid x <> i) a ->
  row_iid r = i ->
  rows_item i f (a ++ [r]) = Some (a ++ [f r])%list.
Proof. apply rows_item_split. Qed.

(** A status for a repository that has no row yet adds a row at the end. *)
Lemma update_repo_status_new (n status : string) (t : Table) :
  in_sync t ->
  ~ In n (map row_text (rows t)) ->
  update_repo_status n status t
  = Some {| rows := (rows t
                     ++ [{| row_iid := next_iid t; row_text := n;
                            row_value := status;
                            row_tags := tags_after status [] |}])%list;
            next_iid := S (next_iid t);
            tag_colors := colors_after status (tag_colors t);
            repo_items := (repo_items t ++ [(n, next_iid t)])%list |}.
Proof.
  intros (Hmap & _ & _ & Hlt) Hnew.
  unfold update_repo_status, tags_after, colors_after.
  rewrite <- Hmap at 1. rewrite (items_get_none _ _ Hnew).
  destruct (tag_of_status status) as [[tag colour]|]; [|reflexivity].
  cbn [rows next_iid tag_colors repo_items].
  rewrite rows_item_last; [reflexivity| |reflexivity].
  apply Forall_impl with (2 := Hlt). intros r Hr. cbn beta in Hr. lia.
Qed.

(** A status for a repository that has a row changes that row in place. *)
Lemma update_repo_status_old (status : string) (t : Table)
  (a b : list Row) (r : Row) :
  in_sync t ->
  rows t = (a ++ r :: b)%list ->
  update_repo_status (row_text r) status t
  = Some {| rows := (a ++ {| row_iid := row_iid r; row_text := row_text r;
                             row_value := status;
                             row_tags := tags_after status (row_tags r) |}
                       :: b)%list;
            next_iid := next_iid t;
            tag_colors := colors_after status (tag_colors t);
            repo_items := repo_items t |}.
Proof.
  intros (Hmap & Htexts & Hiids & _) Hrows.
  assert (Ha : ~ In (row_text r) (map row_text a)).
  { rewrite Hrows, map_app in Htexts. simpl in Htexts.
    apply NoDup_remove_2 in Htexts. intros Hin. apply Htexts.
    apply in_or_app. now left. }
  assert (Hi : Forall (fun x => row_iid x <> row_iid r) a).
  { rewrite Hrows, map_app in Hiids. simpl in Hiids.
    apply NoDup_remove_2 in Hiids. apply Forall_forall. intros x Hx He.
    apply Hiids. apply in_or_app. left. rewrite <- He. now apply in_map. }
  unfold update_repo_status, tags_after, colors_after.
  rewrite <- Hmap at 1. rewrite Hrows at 1. rewrite (items_get_split _ _ _ Ha).
  rewrite Hrows, (rows_item_split _ _ _ _ _ Hi eq_refl).
  destruct (tag_of_status status) as [[tag colour]|]; [|reflexivity].
  cbn [rows next_iid tag_colors repo_items].
  rewrite (rows_item_split _ _ a b (set_value status r) Hi eq_refl).
  reflexivity.
Qed.

Lemma in_sync_new (n status : string) (tags : list string)
  (colours : list (string * string)) (t : Table) :
  in_sync t ->
  ~ In n (map row_text (rows t)) ->
  in_sync {| rows := (rows t
                      ++ [{| row_iid := next_iid t; row_text := n;
                             row_value := status; row_tags := tags |}])%list;
             next_iid := S (next_iid t);
             tag_colors := colours;
             repo_items := (repo_items t ++ [(n, next_iid t)])%list |}.
Proof.
  intros (Hmap & Htexts & Hiids & Hlt) Hnew. unfold in_sync.
  cbn [rows next_iid repo_items].
  rewrite !map_app. cbn [map row_text row_iid].
  split; [now rewrite Hmap|]. split; [|split].
  - apply NoDup_app_remove_l with (l := []). simpl.
    apply (NoDup_Add (a := n) (l := map row_text (rows t))).
    + clear. induction (map row_text (rows t)); simpl; constructor. assumption.
    + auto.
  - apply (NoDup_Add (a := next_iid t) (l := map row_iid (rows t))).
    + clear. induction (map row_iid (rows t)); simpl; constructor. assumption.
    + split; [assumption|]. intros Hin. apply in_map_iff in Hin as (r & He & Hr).
      rewrite Forall_forall in Hlt. specialize (Hlt r Hr). lia.
  - apply Forall_app. split.
    + apply Forall_impl with (2 := Hlt). intros r Hr. cbn beta in *. lia.
    + constructor; [simpl; lia|constructor].
Qed.

Lemma in_sync_old (status : string) (tags : list string)
  (colours : list (string * string)) (t : Table) (a b : list Row) (r : Row) :
  in_sync t ->
  rows t = (a ++ r :: b)%list ->
  in_sync {| rows := (a ++ {| row_iid := row_iid r; row_text := row_text r;
                              row_value := status; row_tags := tags |}
                        :: b)%list;
             next_iid := next_iid t;
             tag_colors := colours;
             repo_items := repo_items t |}.
Proof.
  intros (Hmap & Htexts & Hiids & Hlt) Hrows. unfold in_sync.
  cbn [rows next_iid repo_items].
  rewrite Hrows in *. rewrite !map_app in *. cbn [map row_text row_iid] in *.
  repeat split; try assumption.
  apply Forall_app in Hlt as [Hla Hlb]. apply Forall_app. split; [assumption|].
  inversion Hlb; subst. constructor; assumption.
Qed.

Lemma find_text_app_new (n m : string) (rs : list Row) (r : Row) :
  row_text r = m ->
  ~ In m (map row_text rs) ->
  find (fun x => String.eqb (row_text x) n) (rs ++ [r])
  = if String.eqb m n then Some r
    else find (fun x => String.eqb (row_text x) n) rs.
Proof.
  intros Hr Hnew. induction rs as [|x rs IH]; simpl.
  - rewrite Hr. now destruct (String.eqb m n).
  - destruct (String.eqb_spec (row_text x) n) as [He|Hne].
    + destruct (String.eqb_spec m n) as [Hm|_]; [|reflexivity].
      exfalso. apply Hnew. left. congruence.
    + apply IH. intros Hin. apply Hnew. now right.
Qed.

Lemma find_text_split (n : string) (a b : list Row) (r r' : Row) :
  row_text r' = row_text r ->
  ~ In (row_text r) (map row_text a) ->
  find (fun x => String.eqb (row_text x) n) (a ++ r' :: b)
  = if String.eqb (row_text r) n then Some r'
    else find (fun x => String.eqb (row_text x) n) (a ++ r :: b).
Proof.
  intros Hr Ha. induction a as [|x a IH]; simpl.
  - rewrite Hr. now destruct (String.eqb (row_text r) n).
  - destruct (String.eqb_spec (row_text x) n) as [He|Hne].
    + destruct (String.eqb_spec (row_text r) n) as [Hm|_]; [|reflexivity].
      exfalso. apply Ha. left. congruence.
    + apply IH. intros Hin. apply Ha. now right.
Qed.

(** One status: the table stays in sync, shows the status for its
    repository and what it showed before for the others. *)
Lemma update_repo_status_step (m status : string) (t : Table) :
  in_sync t ->
  exists t',
    update_repo_status m status t = Some t' /\
    in_sync t' /\
    (forall n, In n (map row_text (rows t')) <->
               In n (map row_text (rows t)) \/ n = m) /\
    (forall n, shown_for n t'
               = if String.eqb m n
                 then Some (status,
                            tags_after status
                              match shown_for n t with
                              | Some (_, tags) => tags
                              | None => []
                              end)
                 else shown_for n t).
Proof.
  intros Hsync.
  destruct (in_dec string_dec m (map row_text (rows t))) as [Hin|Hnew].
  - apply in_map_iff in Hin as (r & Hr & Hin).
    apply in_split in Hin as (a & b & Hrows). subst m.
    assert (Ha : ~ In (row_text r) (map row_text a)).
    { destruct Hsync as (_ & Htexts & _).
      rewrite Hrows, map_app in Htexts. simpl in Htexts.
      apply NoDup_remove_2 in Htexts. intros Hin. apply Htexts.
      apply in_or_app. now left. }
    eexists. split; [apply (update_repo_status_old status t a b r Hsync Hrows)|].
    split; [now apply in_sync_old|]. split.
    + intros n. cbn [rows]. rewrite Hrows, !map_app. cbn [map row_text].
      rewrite !in_app_iff. simpl. intuition (subst; auto).
    + intros n. unfold shown_for. cbn [rows].
      rewrite (find_text_split n a b r
                 {| row_iid := row_iid r; row_text := row_text r;
                    row_value := status;
                    row_tags := tags_after status (row_tags r) |}
                 eq_refl Ha).
      rewrite <- Hrows.
      destruct (String.eqb_spec (row_text r) n) as [He|Hne]; [|reflexivity].
      cbn [row_value row_tags]. subst n.
      rewrite Hrows.
      assert (Hf : find (fun x => String.eqb (row_text x) (row_text r))
                        (a ++ r :: b) = Some r).
      { clear - Ha. induction a as [|x a IH]; simpl.
        - now rewrite String.eqb_refl.
        - destruct (String.eqb_spec (row_text x) (row_text r)) as [He|Hne].
          + exfalso. apply Ha. now left.
          + apply IH. intros Hin. apply Ha. now right. }
      now rewrite Hf.
  - eexists. split; [apply (update_repo_status_new m status t Hsync Hnew)|].
    split; [now apply in_sync_new|]. split.
    + intros n. cbn [rows]. rewrite map_app, in_app_iff. simpl.
      intuition (subst; auto).
    + intros n. unfold shown_for. cbn [rows].
      rewrite (find_text_app_new n m (rows t)
                 {| row_iid := next_iid t; row_text := m;
                    row_value := status; row_tags := tags_after status [] |}
                 eq_refl Hnew).
      destruct (String.eqb_spec m n) as [He|Hne]; [|reflexivity].
      cbn [row_value row_tags]. subst n.
      assert (Hf : find (fun x => String.eqb (row_text x) m) (rows t) = None).
      { clear - Hnew. induction (rows t) as [|x rs IH]; simpl; [reflexivity|].
        destruct (String.eqb_spec (row_text x) m) as [He|Hne].
        - exfalso. apply Hnew. now left.
        - apply IH. intros Hin. apply Hnew. now right. }
      now rewrite Hf.
Qed.

Lemma drain_status_run (q : list (string * string)) (t : Table) :
  in_sync t ->
  exists t',
    drain_status q t = Some t' /\
    in_sync t' /\
    (forall n, In n (map row_text (rows t')) <->
               In n (map row_text (rows t)) \/ In n (map fst q)) /\
    (forall n, shown_for n t' = latest n q (shown_for n t)).
Proof.
  revert t; induction q as [|[m status] q IH]; intros t Hsync.
  - exists t. split; [reflexivity|]. split; [assumption|].
    split; [intros n; simpl; tauto|reflexivity].
  - destruct (update_repo_status_step m status t Hsync)
      as (t1 & Hup & Hsync1 & Hnames1 & Hshown1).
    destruct (IH t1 Hsync1) as (t' & Hdrain & Hsync' & Hnames & Hshown).
    exists t'. simpl. rewrite Hup. split; [exact Hdrain|].
    split; [exact Hsync'|]. split.
    + intros n. rewrite Hnames, Hnames1. intuition auto.
    + intros n. rewrite Hshown, Hshown1. reflexivity.
Qed.

(** X18.  The status table cannot fall out of step.  From a table whose
    dictionary [repo_items] and tree rows agree (as after [start_sync]
    has cleared them), [update_repo_status] applied to any queue of
    statuses never fails to find its row, keeps one row per repository
    name with the dictionary pointing at it, and ends with rows for the
    names it had and the names in the queue. *)
Theorem status_table_stays_in_sync (q : list (string * string))
  (t : Table) :
  in_sync t ->
  exists t',
    drain_status q t = Some t' /\
    in_sync t' /\
    forall n, In n (map row_text (rows t')) <->
              In n (map row_text (rows t)) \/ In n (map fst q).
Proof.
  intros Hsync.
  destruct (drain_status_run q t Hsync) as (t' & H1 & H2 & H3 & _).
  exists t'. auto.
Qed.

Lemma status_table_stays_in_sync_witness :
  exists t',
    drain_status [("a", "处理中"); ("b", "处理中"); ("a", "成功"); ("b", "?")]
                 Studio.fresh_table = Some t' /\
    map row_text (rows t') = ["a"; "b"].
Proof.
  destruct (status_table_stays_in_sync
              [("a", "处理中"); ("b", "处理中"); ("a", "成功"); ("b", "?")]
              Studio.fresh_table) as (t' & H & _).
  - unfold in_sync. simpl. repeat split; constructor.
  - exists t'. split; [exact H|].
    vm_compute in H. injection H as <-. reflexivity.
Defined.

(** X19.  The table shows the last word on each repository.  After any
    queue of statuses has been applied to a table in sync, what the
    table shows for a repository (the value and the tags of its row) is
    what the last status queued for it says, and what was shown before
    when the queue has none for it; a status that is none of the four
    known ones changes the value and leaves the tags. *)
Theorem table_shows_latest_status (q : list (string * string))
  (t t' : Table) (n : string) :
  in_sync t ->
  drain_status q t = Some t' ->
  shown_for n t' = latest n q (shown_for n t).
Proof.
  intros Hsync Hdrain.
  destruct (drain_status_run q t Hsync) as (t2 & H1 & _ & _ & H4).
  rewrite Hdrain in H1. injection H1 as <-. apply H4.
Qed.

Lemma table_shows_latest_status_witness :
  match drain_status
          [("a", "处理中"); ("b", "处理中"); ("a", "成功"); ("b", "?")]
          Studio.fresh_table with
  | Some t' =>
      shown_for "a" t' = Some ("成功", ["success"]) /\
      shown_for "b" t' = Some ("?", ["processing"])
  | None => False
  end.
Proof.
  assert (Hs : in_sync Studio.fresh_table).
  { unfold in_sync. simpl. repeat split; constructor. }
  destruct (drain_status _ Studio.fresh_table) as [t'|] eqn:H.
  - split.
    + rewrite (table_shows_latest_status _ _ _ "a" Hs H). reflexivity.
    + rewrite (table_shows_latest_status _ _ _ "b" Hs H). reflexivity.
  - vm_compute in H. discriminate H.
Defined.

(** ** A session in the window *)

Lemma latest_of_pairs (n : string) (repos : list RepositoryRef)
  (finals : list RepoStatus) (before : option (string * list string)) :
  forallb terminal finals = true ->
  match before with Some p => settled_pair p | None => True end ->
  match latest n (map (fun p => (fst p, status_text (snd p)))
                      (flat_map status_pair (combine repos finals)))
               before with
  | Some p => settled_pair p
  | None => True
  end.
Proof.
  revert finals before; induction repos as [|repo rest IH];
    intros finals before Hall Hb.
  - exact Hb.
  - destruct finals as [|final finals]; [exact Hb|].
    simpl in Hall. apply andb_prop in Hall as [Hterm Hall].
    change (flat_map status_pair (combine (repo :: rest) (final :: finals)))
      with ((name repo, Processing) :: (name repo, final)
            :: flat_map status_pair (combine rest finals)).
    cbn [map latest fst snd].
    apply IH; [exact Hall|].
    destruct (String.eqb (name repo) n); [|exact Hb].
    unfold settled_pair, tags_after.
    destruct final; try discriminate Hterm; cbn; auto.
Qed.

Lemma names_of_pairs (repos : list RepositoryRef) (finals : list RepoStatus)
  (n : string) :
  length finals = length repos ->
  In n (map fst (map (fun p => (fst p, status_text (snd p)))
                     (flat_map status_pair (combine repos finals)))) <->
  In n (map name repos).
Proof.
  revert finals; induction repos as [|repo rest IH]; intros finals Hlen.
  - destruct finals; [simpl; tauto|discriminate].
  - destruct finals as [|final finals]; [discriminate|].
    injection Hlen as Hlen.
    change (flat_map status_pair (combine (repo :: rest) (final :: finals)))
      with ((name repo, Processing) :: (name repo, final)
            :: flat_map status_pair (combine rest finals)).
    cbn [map fst In]. rewrite (IH finals Hlen). tauto.
Qed.

Lemma shown_for_row (t : Table) (r : Row) :
  in_sync t ->
  In r (rows t) ->
  shown_for (row_text r) t = Some (row_value r, row_tags r).
Proof.
  intros (_ & Htexts & _) Hin. unfold shown_for.
  apply in_split in Hin as (a & b & Hrows). rewrite Hrows in *.
  rewrite map_app in Htexts. simpl in Htexts.
  apply NoDup_remove_2 in Htexts.
  assert (Ha : ~ In (row_text r) (map row_text a)).
  { intros Hin. apply Htexts. apply in_or_app. now left. }
  clear Htexts Hrows. revert Ha. induction a as [|x a IH]; simpl; intros Ha.
  - now rewrite String.eqb_refl.
  - destruct (String.eqb_spec (row_text x) (row_text r)) as [He|Hne].
    + exfalso. apply Ha. now left.
    + apply IH. intros Hin. apply Ha. now right.
Qed.

Section WindowSession.

Context {D : Desktop}.

#[local] Existing Instance desktop_runtime.

(** The statuses of a session whose listing returned, with a status
    callback: a pair per repository. *)
Lemma session_statuses (fuel : nat) (username base : string)
  (token : option string) (ocb : bool) (w w1 : World)
  (repos : list RepositoryRef) (t1 : list event) :
  get_user_repos fuel username token w = (Return repos, w1, t1) ->
  exists finals : list RepoStatus,
    length finals = length repos /\
    forallb terminal finals = true /\
    statuses (events (process_repos fuel username base token true ocb w))
    = flat_map status_pair (combine repos finals).
Proof.
  intros Hlist.
  rewrite (process_repos_listing_returns _ _ _ _ _ _ _ _ _ _ Hlist).
  destruct (get_user_repos_from_events fuel username token 1 [] w) as [n Hn].
  unfold get_user_repos in Hlist. rewrite Hlist in Hn.
  unfold events in Hn. cbn [snd] in Hn. subst t1.
  destruct repos as [|repo rest].
  - exists []. rewrite process_listing_nil. unfold events. cbn [prepend snd].
    autorewrite with trace. auto.
  - destruct (process_listing_run repo rest base true ocb w1)
      as (finals & w' & t & _ & Hrun & Hlen & Hall & Hst & _).
    exists finals. rewrite Hrun. unfold events. cbn [prepend snd].
    autorewrite with trace. rewrite Hst. cbn [app]. auto.
Qed.

Lemma update_config_status_keeps (app : App) (w : World) :
  let app' := fst (fst (update_config_status app w)) in
  controls app' = controls app /\
  output_text app' = output_text app /\
  table app' = table app /\
  output_queue app' = output_queue app /\
  status_queue app' = status_queue app /\
  error_boxes (snd (update_config_status app w)) = [] /\
  threads (snd (update_config_status app w)) = [].
Proof.
  unfold update_config_status.
  destruct (subprocess_run w get_safe_directory creation_flags)
    as [[e|result] w1];
    destruct (subprocess_run w1 get_ssl_verify creation_flags)
      as [[e'|result'] w2]; cbn; repeat split.
Qed.

(** The first loop of [update_ui] on log lines followed by the
    sentinel. *)
Lemma drain_output_done (lines : list string) (rest : list queue_item)
  (app : App) (w : World) :
  drain_output (map QLog lines ++ QDone :: rest) app w
  = let app1 :=
      with_text (output_text app
                 ++ String.concat "" (map (fun l => l ++ Py.newline) lines))
                app in
    (set_controls_state "normal" (fst (fst (update_config_status app1 w))),
     snd (fst (update_config_status app1 w)),
     snd (update_config_status app1 w), rest).
Proof.
  revert app; induction lines as [|line lines IH]; intros app.
  - cbn [map List.app drain_output String.concat].
    replace (with_text (output_text app ++ "") app) with app.
    + now destruct (update_config_status app w) as [[app1 w1] t1].
    + destruct app. unfold with_text. cbn.
      f_equal. clear. induction output_text0; simpl; congruence.
  - cbn [map List.app drain_output]. rewrite IH. cbn zeta.
    assert (Ht : with_text
                   (output_text (with_text (output_text app ++ line
                                            ++ Py.newline) app)
                    ++ String.concat ""
                         (map (fun l => l ++ Py.newline) lines))
                   (with_text (output_text app ++ line ++ Py.newline) app)
                 = with_text
                     (output_text app
                      ++ String.concat ""
                           (map (fun l => l ++ Py.newline) (line :: lines)))
                     app).
    { unfold with_text. cbn [form controls output_text table output_queue
                             status_queue]. f_equal.
      cbn [map]. 
      assert (Hc : forall x l, String.concat "" (x :: l)
                               = x ++ String.concat "" l).
      { intros x [|y l]; simpl; [|reflexivity].
        clear. induction x; simpl; congruence. }
      rewrite Hc.
      assert (Ha : forall a b c : string, (a ++ b) ++ c = a ++ b ++ c).
      { clear. intros a b c. induction a; simpl; congruence. }
      now rewrite !Ha. }
    now rewrite Ht.
Qed.

(** The first loop of [update_ui] on log lines alone. *)
Lemma drain_output_logs (lines : list string) (app : App) (w : World) :
  drain_output (map QLog lines) app w
  = (with_text (output_text app
                ++ String.concat "" (map (fun l => l ++ Py.newline) lines))
               app, w, [], []).
Proof.
  revert app; induction lines as [|line lines IH]; intros app.
  - cbn [map drain_output String.concat].
    replace (with_text (output_text app ++ "") app) with app; [reflexivity|].
    destruct app. unfold with_text. cbn.
    f_equal. clear. induction output_text0; simpl; congruence.
  - cbn [map drain_output]. rewrite IH.
    unfold with_text. cbn [form controls output_text table output_queue
                           status_queue]. do 3 f_equal.
    cbn [map].
    assert (Hc : forall x l, String.concat "" (x :: l)
                             = x ++ String.concat "" l).
    { intros x [|y l]; simpl; [|reflexivity].
      clear. induction x; simpl; congruence. }
    rewrite Hc.
    assert (Ha : forall a b c : string, (a ++ b) ++ c = a ++ b ++ c).
    { clear. intros a b c. induction a; simpl; congruence. }
    now rewrite !Ha.
Qed.

End WindowSession.

Section WindowRun.

Context {D : Desktop}.

#[local] Existing Instance desktop_runtime.

Lemma drain_output_keeps (q : list queue_item) (app : App) (w : World) :
  let app' := fst (fst (fst (drain_output q app w))) in
  table app' = table app /\ status_queue app' = status_queue app.
Proof.
  revert app; induction q as [|item q IH]; intros app.
  - split; reflexivity.
  - destruct item as [msg|].
    + cbn [drain_output]. apply (IH (with_text _ app)).
    + cbn [drain_output].
      destruct (update_config_status_keeps app w) as (_ & _ & Ht & _ & Hq & _).
      destruct (update_config_status app w) as [[app1 w1] t1].
      cbn in *. auto.
Qed.

End WindowRun.

(** X20.  No row is left in Processing.  Take a window whose table has
    been cleared and whose status queue is empty, let [sync_thread] run a
    session whose listing returns, and let [update_ui] run once after it.
    Then [update_ui] raises nothing, the table has exactly one row for
    each repository name of the listing, and every row shows a terminal
    status with its tag: Success with [success], Failed or Skipped with
    [fail]. *)
Theorem no_row_left_processing {D : Desktop} (fuel : nat)
  (username base_dir : string) (token : option string) (app : App)
  (w w1 : @World desktop_runtime) (repos : list RepositoryRef)
  (t1 : list event) :
  get_user_repos (RT := desktop_runtime) fuel username token w
  = (Return repos, w1, t1) ->
  rows (table app) = [] ->
  repo_items (table app) = [] ->
  status_queue app = [] ->
  let started := sync_thread fuel username base_dir token app w in
  exists (app2 : App) (w2 : @World desktop_runtime)
         (t : list window_event),
    update_ui (fst started) (snd started) = Some (app2, w2, t) /\
    in_sync (table app2) /\
    (forall n, In n (map row_text (rows (table app2))) <->
               In n (map name repos)) /\
    Forall settled (rows (table app2)) /\
    status_queue app2 = [].
Proof.
  intros Hlist Hrows Hitems Hq started.
  destruct (session_statuses fuel username base_dir token true w w1 repos t1
              Hlist) as (finals & Hlen & Hall & Hst).
  unfold started, sync_thread.
  destruct (process_repos fuel username base_dir token true true w)
    as [[r w'] tev].
  unfold events in Hst. cbn [snd] in Hst. cbn [fst snd].
  unfold update_ui.
  match goal with
  | |- context [drain_output ?q ?a ?x] =>
      pose proof (drain_output_keeps q a x) as Hkeep;
      destruct (drain_output q a x) as [[[app1 wa] ta] rest]
  end.
  cbn [fst] in Hkeep. destruct Hkeep as [Htab Hsq].
  unfold with_status_queue, with_output_queue in Htab, Hsq.
  cbn [table status_queue] in Htab, Hsq.
  cbn [table status_queue with_output_queue].
  rewrite Htab, Hsq, Hq. cbn [List.app].
  assert (Hsync : in_sync (table app)).
  { unfold in_sync. rewrite Hrows, Hitems. simpl.
    repeat split; constructor. }
  destruct (drain_status_run (queued_statuses tev) (table app) Hsync)
    as (t' & Hdrain & Hsync' & Hnames & Hshown).
  rewrite Hdrain. eexists _, _, _. split; [reflexivity|].
  cbn [table status_queue with_status_queue with_table].
  split; [exact Hsync'|]. split; [|split; [|reflexivity]].
  - intros n. rewrite Hnames, Hrows. unfold queued_statuses. rewrite Hst.
    rewrite (names_of_pairs repos finals n Hlen). simpl. tauto.
  - apply Forall_forall. intros row Hin.
    pose proof (shown_for_row t' row Hsync' Hin) as Hrow.
    rewrite Hshown in Hrow. unfold queued_statuses in Hrow. rewrite Hst in Hrow.
    assert (Hnone : shown_for (row_text row) (table app) = None).
    { unfold shown_for. now rewrite Hrows. }
    rewrite Hnone in Hrow.
    pose proof (latest_of_pairs (row_text row) repos finals None Hall I)
      as Hl.
    rewrite Hrow in Hl. exact Hl.
Qed.

Lemma no_row_left_processing_witness :
  let started :=
    sync_thread (D := Studio.desktop) 1 "u" "d" None
                (cleared Studio.app_d) Studio.w_d in
  exists app2 w2 t,
    update_ui (D := Studio.desktop) (fst started) (snd started)
    = Some (app2, w2, t) /\
    Forall settled (rows (table app2)).
Proof.
  pose (listing := get_user_repos (RT := Demo.runtime) 1 "u" None Studio.w_d).
  destruct (no_row_left_processing (D := Studio.desktop) 1 "u" "d" None
              (cleared Studio.app_d) Studio.w_d (final_world listing)
              (refs_of (items Demo.three)) (events listing))
    as (app2 & w2 & t & H & _ & _ & Hs & _).
  - reflexivity.
  - reflexivity.
  - reflexivity.
  - reflexivity.
  - exists app2, w2, t. split; assumption.
Defined.

(** X21.  The log pane shows the log, and the controls come back with
    the sentinel.  Take a window whose output queue is empty and whose
    table is in sync, let [sync_thread] run, and let [update_ui] run once
    after it.  Then the text pane has grown by the log lines of the
    session, each followed by a newline, in order; no error box was
    shown; and the three controls are enabled when [process_repos]
    returned (the sentinel was queued), and are as they were when it did
    not. *)
Theorem log_pane_then_unlock {D : Desktop} (fuel : nat)
  (username base_dir : string) (token : option string) (app : App)
  (w : @World desktop_runtime) :
  output_queue app = [] ->
  in_sync (table app) ->
  let session :=
    process_repos (RT := desktop_runtime) fuel username base_dir token
                  true true w in
  let started := sync_thread fuel username base_dir token app w in
  exists (app2 : App) (w2 : @World desktop_runtime)
         (t : list window_event),
    update_ui (fst started) (snd started) = Some (app2, w2, t) /\
    output_text app2
    = output_text app
      ++ String.concat ""
           (map (fun line => line ++ Py.newline) (log_lines (events session))) /\
    output_queue app2 = [] /\
    error_boxes t = [] /\
    controls app2
    = match value session with
      | Return _ => {| run_button := "normal"; safe_dir_cb := "normal";
                       ssl_verify_cb := "normal" |}
      | _ => controls app
      end.
Proof.
  intros Hq Hsync session started. unfold started, sync_thread, session.
  destruct (process_repos fuel username base_dir token true true w)
    as [[r w'] tev].
  unfold events, value. cbn [fst snd]. rewrite Hq. cbn [List.app].
  unfold update_ui, queued_output.
  cbn [output_queue with_status_queue with_output_queue].
  destruct r as [ok|e|].
  - set (app0 := with_status_queue _ (with_output_queue _ app)).
    rewrite (drain_output_done (log_lines tev) [] app0 w'). cbn zeta.
    set (app1 := with_text _ app0).
    destruct (update_config_status_keeps app1 w')
      as (_ & Htext & Htab & _ & Hsq & Herr & _).
    destruct (update_config_status app1 w') as [[app1' w1'] t1'].
    cbn [fst snd] in *.
    cbn [table status_queue with_output_queue set_controls_state].
    destruct (drain_status_run (status_queue app1') (table app1'))
      as (t' & Hdrain & _).
    { rewrite Htab. exact Hsync. }
    rewrite Hdrain. eexists _, _, _. split; [reflexivity|].
    cbn. rewrite Htext. auto.
  - set (app0 := with_status_queue _ (with_output_queue _ app)).
    rewrite app_nil_r, (drain_output_logs (log_lines tev) app0 w').
    cbn [table status_queue with_output_queue with_text].
    destruct (drain_status_run (status_queue app0) (table app0))
      as (t' & Hdrain & _); [exact Hsync|].
    rewrite Hdrain. eexists _, _, _. split; [reflexivity|].
    cbn. auto.
  - set (app0 := with_status_queue _ (with_output_queue _ app)).
    rewrite app_nil_r, (drain_output_logs (log_lines tev) app0 w').
    cbn [table status_queue with_output_queue with_text].
    destruct (drain_status_run (status_queue app0) (table app0))
      as (t' & Hdrain & _); [exact Hsync|].
    rewrite Hdrain. eexists _, _, _. split; [reflexivity|].
    cbn. auto.
Qed.

Lemma log_pane_then_unlock_witness :
  let started :=
    sync_thread (D := Studio.desktop) 1 "u" "d" None
                (set_controls_state "disabled" (cleared Studio.app_d))
                Studio.w_d in
  exists app2 w2 t,
    update_ui (D := Studio.desktop) (fst started) (snd started)
    = Some (app2, w2, t) /\
    run_button (controls app2) = "normal".
Proof.
  destruct (log_pane_then_unlock (D := Studio.desktop) 1 "u" "d" None
              (set_controls_state "disabled" (cleared Studio.app_d))
              Studio.w_d)
    as (app2 & w2 & t & H & _ & _ & _ & Hc).
  - reflexivity.
  - unfold in_sync. simpl. repeat split; constructor.
  - exists app2, w2, t. split; [exact H|]. rewrite Hc. reflexivity.
Defined.

(** ** The configuration switches *)

Section Switches.

Context {D : Desktop}.

#[local] Existing Instance desktop_runtime.

Lemma toggle_run (cmd : list string) (restore : App -> App) (app : App)
  (w : World) :
  let run := toggle cmd restore app w in
  controls (fst (fst run))
  = {| run_button := "normal"; safe_dir_cb := "normal";
       ssl_verify_cb := "normal" |} /\
  match fst (subprocess_run w cmd creation_flags) with
  | inl e =>
      fst (fst run)
      = set_controls_state "normal"
          (restore (set_controls_state "disabled" app)) /\
      error_boxes (snd run) = [("错误", "发生异常:" ++ Py.newline ++ str e)]
  | inr result =>
      if (cp_returncode result =? 0)%Z then
        error_boxes (snd run) = [] /\
        output_text (fst (fst run)) = output_text app /\
        table (fst (fst run)) = table app
      else
        fst (fst run)
        = set_controls_state "normal"
            (restore (set_controls_state "disabled" app)) /\
        error_boxes (snd run)
        = [("错误", "执行 Git 命令失败:" ++ Py.newline ++ cp_stderr result)]
  end.
Proof.
  unfold toggle.
  destruct (subprocess_run w cmd creation_flags) as [[e|result] w1];
    cbn [fst snd].
  - split; [reflexivity|]. split; reflexivity.
  - destruct (cp_returncode result =? 0)%Z; cbn [negb].
    + destruct (update_config_status_keeps (set_controls_state "disabled" app)
                  w1) as (_ & Htext & Htab & _ & _ & Herr & _).
      destruct (update_config_status (set_controls_state "disabled" app) w1)
        as [[app2 w2] t2].
      cbn [fst snd] in *. cbn [error_boxes]. auto.
    + split; [reflexivity|]. split; reflexivity.
Qed.

End Switches.

(** X22.  A failed switch of the safe-directory box is undone.  The
    handler runs [git config --global --add safe.directory *] when the
    box was just checked and [--unset-all safe.directory] when it was
    just unchecked.  Whatever happens, the three controls are enabled at
    the end.  When git exits with a non-zero status or cannot be run,
    the box is put back to the value it had before the click, the other
    box is not touched, and exactly one error box is shown; when git
    exits with zero, no error box is shown. *)
Theorem safe_directory_switch_is_undone_on_failure {D : Desktop} (app : App)
  (w : @World desktop_runtime) :
  let cmd :=
    if safe_dir_var (form app)
    then ["git"; "config"; "--global"; "--add"; "safe.directory"; "*"]
    else ["git"; "config"; "--global"; "--unset-all"; "safe.directory"] in
  let run := on_safe_directory_toggle app w in
  let app' := fst (fst run) in
  controls app'
  = {| run_button := "normal"; safe_dir_cb := "normal";
       ssl_verify_cb := "normal" |} /\
  match fst (subprocess_run w cmd (creation_flags (RT := desktop_runtime)))
  with
  | inl e =>
      safe_dir_var (form app') = negb (safe_dir_var (form app)) /\
      ssl_verify_var (form app') = ssl_verify_var (form app) /\
      error_boxes (snd run) = [("错误", "发生异常:" ++ Py.newline ++ str e)]
  | inr result =>
      if (cp_returncode result =? 0)%Z then error_boxes (snd run) = []
      else
        safe_dir_var (form app') = negb (safe_dir_var (form app)) /\
        ssl_verify_var (form app') = ssl_verify_var (form app) /\
        error_boxes (snd run)
        = [("错误", "执行 Git 命令失败:" ++ Py.newline ++ cp_stderr result)]
  end.
Proof.
  intros cmd run app'. unfold app', run, on_safe_directory_toggle.
  fold cmd.
  destruct (toggle_run cmd (set_safe_dir (negb (safe_dir_var (form app))))
              app w) as [Hc Hm].
  cbn zeta in Hc, Hm. split; [exact Hc|].
  destruct (fst (subprocess_run w cmd creation_flags)) as [e|result].
  - destruct Hm as [-> ->]. auto.
  - destruct (cp_returncode result =? 0)%Z.
    + tauto.
    + destruct Hm as [-> ->]. auto.
Qed.

(** X23.  A failed switch of the SSL box is undone.  The handler runs
    [git config --global http.sslVerify true] or [... false] after the
    new value of the box.  Whatever happens, the three controls are
    enabled at the end.  When git exits with a non-zero status or cannot
    be run, the box is put back to the value it had before the click, the
    other box is not touched, and exactly one error box is shown; when
    git exits with zero, no error box is shown. *)
Theorem ssl_switch_is_undone_on_failure {D : Desktop} (app : App)
  (w : @World desktop_runtime) :
  let cmd :=
    ["git"; "config"; "--global"; "http.sslVerify";
     if ssl_verify_var (form app) then "true" else "false"] in
  let run := on_ssl_verify_toggle app w in
  let app' := fst (fst run) in
  controls app'
  = {| run_button := "normal"; safe_dir_cb := "normal";
       ssl_verify_cb := "normal" |} /\
  match fst (subprocess_run w cmd (creation_flags (RT := desktop_runtime)))
  with
  | inl e =>
      ssl_verify_var (form app') = negb (ssl_verify_var (form app)) /\
      safe_dir_var (form app') = safe_dir_var (form app) /\
      error_boxes (snd run) = [("错误", "发生异常:" ++ Py.newline ++ str e)]
  | inr result =>
      if (cp_returncode result =? 0)%Z then error_boxes (snd run) = []
      else
        ssl_verify_var (form app') = negb (ssl_verify_var (form app)) /\
        safe_dir_var (form app') = safe_dir_var (form app) /\
        error_boxes (snd run)
        = [("错误", "执行 Git 命令失败:" ++ Py.newline ++ cp_stderr result)]
  end.
Proof.
  intros cmd run app'. unfold app', run, on_ssl_verify_toggle.
  fold cmd.
  destruct (toggle_run cmd (set_ssl_verify (negb (ssl_verify_var (form app))))
              app w) as [Hc Hm].
  cbn zeta in Hc, Hm. split; [exact Hc|].
  destruct (fst (subprocess_run w cmd creation_flags)) as [e|result].
  - destruct Hm as [-> ->]. auto.
  - destruct (cp_returncode result =? 0)%Z.
    + tauto.
    + destruct Hm as [-> ->]. auto.
Qed.

(** X24.  Reading the configuration never fails the window and falls
    back to the defaults.  [update_config_status] shows no error box and
    leaves the controls, the text pane and the table as they are.  The safe-directory box ends unchecked whenever its query
    cannot be run or exits with a non-zero status, and the SSL box ends
    checked whenever its query cannot be run or exits with a non-zero
    status. *)
Theorem config_reading_falls_back {D : Desktop} (app : App)
  (w : @World desktop_runtime) :
  let run := update_config_status app w in
  let app' := fst (fst run) in
  let first :=
    subprocess_run w get_safe_directory
                   (creation_flags (RT := desktop_runtime)) in
  let second :=
    subprocess_run (snd first) get_ssl_verify
                   (creation_flags (RT := desktop_runtime)) in
  error_boxes (snd run) = [] /\
  controls app' = controls app /\
  output_text app' = output_text app /\
  table app' = table app /\
  match fst first with
  | inl _ => safe_dir_var (form app') = false
  | inr result =>
      if (cp_returncode result =? 0)%Z then True
      else safe_dir_var (form app') = false
  end /\
  match fst second with
  | inl _ => ssl_verify_var (form app') = true
  | inr result =>
      if (cp_returncode result =? 0)%Z then True
      else ssl_verify_var (form app') = true
  end.
Proof.
  cbv zeta.
  destruct (update_config_status_keeps app w) as (Hc & Ht & Htab & _ & _ & He & _).
  cbn zeta in Hc. repeat (split; [assumption|]).
  unfold update_config_status.
  destruct (subprocess_run w get_safe_directory creation_flags)
    as [[e|result] w1]; cbn [fst snd];
    destruct (subprocess_run w1 get_ssl_verify creation_flags)
      as [[e'|result'] w2]; cbn [fst snd];
    repeat match goal with
           | |- context [(cp_returncode ?r =? 0)%Z] =>
               destruct (cp_returncode r =? 0)%Z
           end; cbn; auto.
Qed.

(** X25.  A blank form starts nothing.  When the user name or the
    directory of the form is blank once stripped, [start_sync] shows one
    error box and returns: no thread is started, no directory is made,
    and the window (its panes, its table and its controls) and the
    world are as before. *)
Theorem blank_form_starts_nothing {D : Desktop} (app : App)
  (w : @World desktop_runtime) :
  Py.truthy (str_strip (username_var (form app))) = false \/
  Py.truthy (str_strip (dir_var (form app))) = false ->
  let run := start_sync app w in
  fst (fst run) = app /\
  snd (fst run) = w /\
  threads (snd run) = [] /\
  exists message, snd run = [ShowError "错误" message].
Proof.
  intros Hblank run. unfold run, start_sync.
  destruct (Py.truthy (str_strip (username_var (form app)))).
  - destruct Hblank as [Hu|Hd]; [discriminate|]. rewrite Hd.
    cbn [negb fst snd threads]. repeat split. eexists. reflexivity.
  - cbn [negb fst snd threads]. repeat split. eexists. reflexivity.
Qed.

Lemma blank_form_starts_nothing_witness :
  fst (fst (start_sync (D := Studio.desktop) Studio.app_blank Studio.w_d))
  = Studio.app_blank.
Proof.
  apply (blank_form_starts_nothing (D := Studio.desktop) Studio.app_blank
           Studio.w_d).
  left. reflexivity.
Defined.

(** X26.  A filled form starts one thread on a cleared window, or none.
    When the stripped user name and directory are not blank,
    [start_sync] ends in one of two ways.  Either the directory was
    missing and could not be made: then one error box is shown, no
    thread is started and the window is as before.  Or exactly one
    thread is started, with the stripped user name and directory and
    with the stripped token, no token at all when that is empty; then no
    error box is shown, the text pane, the rows and [repo_items] are
    empty, the three controls are disabled, the form is as it was, and
    [os.makedirs] was called exactly when the directory was missing. *)
Theorem filled_form_starts_one_thread {D : Desktop} (app : App)
  (w : @World desktop_runtime) :
  Py.truthy (str_strip (username_var (form app))) = true ->
  Py.truthy (str_strip (dir_var (form app))) = true ->
  let username := str_strip (username_var (form app)) in
  let base_dir := str_strip (dir_var (form app)) in
  let key := str_strip (token_var (form app)) in
  let run := start_sync app w in
  let app' := fst (fst run) in
  (@os_path_exists desktop_runtime w base_dir = false /\
   (exists e, fst (window_makedirs w base_dir) = Some e) /\
   threads (snd run) = [] /\
   length (error_boxes (snd run)) = 1 /\
   app' = app)
  \/
  (threads (snd run)
   = [(username, base_dir, if String.eqb key "" then None else Some key)] /\
   error_boxes (snd run) = [] /\
   output_text app' = "" /\
   rows (table app') = [] /\
   repo_items (table app') = [] /\
   controls app'
   = {| run_button := "disabled"; safe_dir_cb := "disabled";
        ssl_verify_cb := "disabled" |} /\
   form app' = form app /\
   output_queue app' = output_queue app /\
   status_queue app' = status_queue app /\
   (In (MadeDirs base_dir) (snd run)
    <-> @os_path_exists desktop_runtime w base_dir = false)).
Proof.
  intros Hu Hd username base_dir key run app'.
  unfold app', run, start_sync. rewrite Hu, Hd. cbn [negb].
  fold username base_dir key.
  assert (Hkey : (if Py.truthy key then Some key else None)
                 = (if String.eqb key "" then None else Some key)).
  { destruct key; reflexivity. }
  rewrite Hkey.
  destruct (os_path_exists w base_dir) eqn:Hex; cbn [negb].
  - right. cbn. repeat split; try reflexivity.
    + intros [H|[]]. discriminate.
    + discriminate.
  - destruct (window_makedirs w base_dir) as [[e|] w1] eqn:Hmk.
    + left. cbn. repeat split. now exists e.
    + right. cbn. repeat split; try reflexivity. now left.
Qed.

Lemma filled_form_starts_one_thread_witness :
  threads (snd (start_sync (D := Studio.desktop) Studio.app_d Studio.w_d))
  = [("u", "d", None)].
Proof.
  destruct (filled_form_starts_one_thread (D := Studio.desktop) Studio.app_d
              Studio.w_d) as [(Hex & _)|(Ht & _)].
  - reflexivity.
  - reflexivity.
  - discriminate Hex.
  - exact Ht.
Defined.

(** ** A whole round of the window *)

Section Round.

Context {D : Desktop}.

#[local] Existing Instance desktop_runtime.

(** A session whose listing returned returns. *)
Lemma session_returns (fuel : nat) (username base : string)
  (token : option string) (scb ocb : bool) (w w1 : World)
  (repos : list RepositoryRef) (t1 : list event) :
  get_user_repos fuel username token w = (Return repos, w1, t1) ->
  exists ok : bool,
    value (process_repos fuel username base token scb ocb w) = Return ok.
Proof.
  intros H.
  rewrite (process_repos_listing_returns fuel username base token scb ocb
             w w1 repos t1 H).
  destruct repos as [|repo rest].
  - rewrite process_listing_nil. eexists. reflexivity.
  - destruct (process_listing_run repo rest base scb ocb w1)
      as (finals & w' & t & _ & Hrun & _).
    rewrite Hrun. eexists. reflexivity.
Qed.

(** When [start_sync] starts a thread, it has cleared and locked the
    window. *)
Lemma start_sync_started (app : App) (w : World) :
  threads (snd (start_sync app w)) <> [] ->
  fst (fst (start_sync app w)) = set_controls_state "disabled" (cleared app).
Proof.
  unfold start_sync.
  destruct (Py.truthy (str_strip (username_var (form app))));
    cbn [negb]; [|cbn; congruence].
  destruct (Py.truthy (str_strip (dir_var (form app))));
    cbn [negb]; [|cbn; congruence].
  destruct (os_path_exists w (str_strip (dir_var (form app))));
    cbn [negb]; [reflexivity|].
  destruct (window_makedirs w (str_strip (dir_var (form app))))
    as [[e|] w1]; [cbn; congruence|reflexivity].
Qed.

End Round.

(** X27.  A round replaces the display.  Take a window with empty
    queues on which [start_sync] started a thread, let [sync_thread] run
    with the arguments the thread was given, on a session whose listing
    returns, and let [update_ui] run once after it.  Then [update_ui]
    raises nothing and shows no error box; the text pane holds exactly
    the log of the session, a line each; the table has a row for each
    repository name of the listing and no other (the rows of an earlier
    round are gone), each with a terminal status and its tag; both
    queues are empty; and the three controls are enabled again. *)
Theorem round_replaces_the_display {D : Desktop} (fuel : nat) (app : App)
  (w w1 : @World desktop_runtime) (username base_dir : string)
  (token : option string) (repos : list RepositoryRef) (t1 : list event) :
  let opened := start_sync app w in
  let w0 := snd (fst opened) in
  threads (snd opened) = [(username, base_dir, token)] ->
  output_queue app = [] ->
  status_queue app = [] ->
  get_user_repos (RT := desktop_runtime) fuel username token w0
  = (Return repos, w1, t1) ->
  let session :=
    process_repos (RT := desktop_runtime) fuel username base_dir token
                  true true w0 in
  let started :=
    sync_thread fuel username base_dir token (fst (fst opened)) w0 in
  exists (app2 : App) (w2 : @World desktop_runtime)
         (t : list window_event),
    update_ui (fst started) (snd started) = Some (app2, w2, t) /\
    error_boxes t = [] /\
    output_text app2
    = String.concat ""
        (map (fun line => line ++ Py.newline) (log_lines (events session))) /\
    in_sync (table app2) /\
    (forall n, In n (map row_text (rows (table app2))) <->
               In n (map name repos)) /\
    Forall settled (rows (table app2)) /\
    output_queue app2 = [] /\
    status_queue app2 = [] /\
    controls app2
    = {| run_button := "normal"; safe_dir_cb := "normal";
         ssl_verify_cb := "normal" |}.
Proof.
  intros opened w0 Hth Hoq Hsq Hlist session started.
  assert (Happ : fst (fst opened)
                 = set_controls_state "disabled" (cleared app)).
  { apply start_sync_started. fold opened. rewrite Hth. discriminate. }
  destruct (session_statuses fuel username base_dir token true w0 w1 repos t1
              Hlist) as (finals & Hlen & Hall & Hst).
  destruct (session_returns fuel username base_dir token true true w0 w1
              repos t1 Hlist) as [ok Hok].
  unfold started, sync_thread, session. rewrite Happ.
  clearbody w0. clear Hth Happ opened started session.
  destruct (process_repos fuel username base_dir token true true w0)
    as [[r w'] tev].
  unfold value, events in *. cbn [fst snd] in *. subst r.
  cbn [output_queue status_queue set_controls_state cleared with_table
       with_text].
  rewrite Hoq, Hsq. cbn [List.app].
  unfold update_ui, queued_output.
  cbn [output_queue with_status_queue with_output_queue].
  set (app0 := with_status_queue _ (with_output_queue _ _)).
  rewrite (drain_output_done (log_lines tev) [] app0 w'). cbn zeta.
  set (app1 := with_text _ app0).
  destruct (update_config_status_keeps app1 w')
    as (_ & Htext & Htab & _ & Hsq' & Herr & _).
  destruct (update_config_status app1 w') as [[app1' w1'] t1'].
  cbn [fst snd] in *.
  cbn [table status_queue with_output_queue set_controls_state].
  rewrite Htab, Hsq'.
  set (t0 := table app1).
  assert (Hrows : rows t0 = []) by reflexivity.
  assert (Hsync : in_sync t0).
  { unfold in_sync. cbn. repeat split; constructor. }
  change (status_queue app1) with (queued_statuses tev).
  destruct (drain_status_run (queued_statuses tev) t0 Hsync)
    as (t' & Hdrain & Hsync' & Hnames & Hshown).
  rewrite Hdrain. eexists _, _, _. split; [reflexivity|].
  cbn [table status_queue output_queue output_text controls with_status_queue
       with_table with_output_queue set_controls_state].
  split; [exact Herr|]. split; [rewrite Htext; reflexivity|].
  split; [exact Hsync'|]. split; [|split; [|auto]].
  - intros n. rewrite Hnames, Hrows. unfold queued_statuses. rewrite Hst.
    rewrite (names_of_pairs repos finals n Hlen). simpl. tauto.
  - apply Forall_forall. intros row Hin.
    pose proof (shown_for_row t' row Hsync' Hin) as Hrow.
    rewrite Hshown in Hrow. unfold queued_statuses in Hrow.
    rewrite Hst in Hrow.
    assert (Hnone : shown_for (row_text row) t0 = None) by reflexivity.
    rewrite Hnone in Hrow.
    pose proof (latest_of_pairs (row_text row) repos finals None Hall I)
      as Hl.
    rewrite Hrow in Hl. exact Hl.
Qed.

Lemma round_replaces_the_display_witness :
  let opened := start_sync (D := Studio.desktop) Studio.app_d Studio.w_d in
  let started :=
    sync_thread (D := Studio.desktop) 1 "u" "d" None
                (fst (fst opened)) (snd (fst opened)) in
  exists app2 w2 t,
    update_ui (D := Studio.desktop) (fst started) (snd started)
    = Some (app2, w2, t) /\
    Forall settled (rows (table app2)) /\
    run_button (controls app2) = "normal".
Proof.
  pose (listing := get_user_repos (RT := Demo.runtime) 1 "u" None Studio.w_d).
  destruct (round_replaces_the_display (D := Studio.desktop) 1 Studio.app_d
              Studio.w_d (final_world listing) "u" "d" None
              (refs_of (items Demo.three)) (events listing))
    as (app2 & w2 & t & H & _ & _ & _ & _ & Hs & _ & _ & Hc).
  - reflexivity.
  - reflexivity.
  - reflexivity.
  - reflexivity.
  - exists app2, w2, t. split; [exact H|]. split; [exact Hs|].
    rewrite Hc. reflexivity.
Defined.
